(** * California Urban Opportunity Index: the index computation engine

    A shallow embedding of the two dashboard scripts, [app_ca.py] and
    [src/cali.py], restricted to the part that computes the index:

    - the FIPS column ([fips_lookup], [astype(str)], [str.zfill(5)] and the
      prefix repair),
    - the weight presets and their normalisation,
    - the [Z_] column loops (pandas [mean] and [std]),
    - the [UOI_custom] weighted sum,
    - the Alpine County row filter of [app_ca.py],
    - the comparison views of [src/cali.py] ([region_mean], the
      county-to-county values, the midpoint of the colour scale).

    Numbers.  A [float64] cell is an [option R]: [Some x] is the number [x],
    [None] is NaN (pandas' missing value).  Arithmetic is the arithmetic of
    the reals, so rounding, overflow and the two infinities are left out;
    NaN and its propagation are kept, since the scripts rely on them.  One
    place where rounding changes the kind of a result is a column whose
    values are all the same: its standard deviation is [0] here, and in
    binary64 too when the mean is exact (as for 1, 1, 1), while a rounded
    mean can leave a tiny nonzero one.

    Strings.  A [str] is a string of 8-bit characters, and [upper] and
    [strip] are the ASCII parts of the Python methods; statements about
    name matching are made for ASCII names ([Str.is_ascii]).

    Missing identifiers.  [str(None)] is "None", as [astype(str)] of pandas
    up to 2.x has it; statements about the identifier column are made for
    cells that are present.

    Tables.  A [DataFrame] is column oriented, as in pandas: a finite map
    from column names to columns of equal length. *)

From Stdlib Require Import Reals Lra Lia ZArith String Ascii List.
From stdpp Require Import gmap strings list fin_maps pretty.

Set Default Proof Using "Type".

(** ** Python exceptions *)

Inductive pyerr : Type :=
  | KeyError (key : string)
  | ZeroDivisionError
  | ValueError
  | AttributeError.

Inductive result (A : Type) : Type :=
  | Ok (a : A)
  | Raise (e : pyerr).
Arguments Ok {A} a.
Arguments Raise {A} e.

#[global] Instance result_ret : MRet result := λ A a, Ok a.
#[global] Instance result_bind : MBind result := λ A B k m,
  match m with
  | Ok a => k a
  | Raise e => Raise e
  end.


(** ** float64 cells and Series *)

Abbreviation cell := (option R).
Abbreviation NaN := (@None R).
Abbreviation Series := (list (option R)).

Module Float.

Definition add (a b : cell) : cell :=
  match a, b with Some x, Some y => Some (x + y)%R | _, _ => NaN end.
Definition sub (a b : cell) : cell :=
  match a, b with Some x, Some y => Some (x - y)%R | _, _ => NaN end.
Definition mul (a b : cell) : cell :=
  match a, b with Some x, Some y => Some (x * y)%R | _, _ => NaN end.
Definition neg (a : cell) : cell :=
  match a with Some x => Some (- x)%R | None => NaN end.

(** numpy division.  [0 / 0] is NaN.  A nonzero number over zero is an
    infinity in binary64, which [cell] does not have; the only divisor
    in the scripts is a column's [std], and over the reals
    [std_zero_centered] shows that the numerator is then [0]. *)
Definition div (a b : cell) : cell :=
  match a, b with
  | Some x, Some y => if Req_dec_T y 0 then NaN else Some (x / y)%R
  | _, _ => NaN
  end.

(** IEEE comparison: false as soon as one side is NaN. *)
Definition gt (a b : cell) : Prop :=
  match a, b with Some x, Some y => (x > y)%R | _, _ => False end.

End Float.

Module Stats.

(** [skipna=True]: the values that are not NaN, in row order. *)
Fixpoint dropna (s : Series) : list R :=
  match s with
  | [] => []
  | Some x :: s' => x :: dropna s'
  | None :: s' => dropna s'
  end.

Definition Rsum (l : list R) : R := foldr Rplus 0%R l.

(** [Series.mean()]: NaN on a column with no value. *)
Definition mean (s : Series) : cell :=
  let xs := dropna s in
  match xs with
  | [] => NaN
  | _ => Some (Rsum xs / INR (length xs))%R
  end.

(** Sum of squared deviations from [m]. *)
Definition sqdev (m : R) (xs : list R) : R :=
  Rsum (map (λ x, (x - m) * (x - m))%R xs).

(** [Series.std()]: pandas' default [ddof=1], so the denominator is
    [count - 1]; NaN when [count <= ddof].  Over the reals a column of
    equal values has the deviation [0]. *)
Definition std (s : Series) : cell :=
  let xs := dropna s in
  if decide (length xs ≤ 1) then NaN
  else
    let m := (Rsum xs / INR (length xs))%R in
    Some (sqrt (sqdev m xs / (INR (length xs) - 1)))%R.

(** Series-with-scalar arithmetic, element by element. *)
Definition sub_scalar (s : Series) (c : cell) : Series :=
  map (λ x, Float.sub x c) s.
Definition div_scalar (s : Series) (c : cell) : Series :=
  map (λ x, Float.div x c) s.
Definition mul_scalar (s : Series) (c : cell) : Series :=
  map (λ x, Float.mul x c) s.
Definition neg_series (s : Series) : Series := map Float.neg s.

(** [a + b] on two columns of one table: they share the index, so the
    alignment is by position. *)
Definition add_series (a b : Series) : Series := zip_with Float.add a b.

(** [(df[col] - df[col].mean()) / df[col].std()] *)
Definition zscore (s : Series) : Series :=
  div_scalar (sub_scalar s (mean s)) (std s).

(** The cell [zscore] makes of [c] in a column of mean [m] and standard
    deviation [σ]. *)
Definition z_cell (m σ : R) (c : cell) : cell :=
  match c with Some x => Some ((x - m) / σ)%R | None => NaN end.

(** A column of [n] numbers, none missing, that add up to [0]. *)
Definition centred (n : nat) (s : Series) : Prop :=
  ∃ zs, s = map Some zs ∧ length zs = n ∧ Rsum zs = 0%R.

(** The statistics of the specification: denominator [count]. *)
Definition pop_std (s : Series) : cell :=
  let xs := dropna s in
  match xs with
  | [] => NaN
  | _ =>
    let m := (Rsum xs / INR (length xs))%R in
    Some (sqrt (sqdev m xs / INR (length xs)))%R
  end.

End Stats.

(** ** Python strings

    A [str] is a [string] of 8-bit characters; [upper] and [strip] are the
    ASCII parts of the Python methods, which is all they do on a string
    that [is_ascii]. *)

Module Str.

Definition of_list (l : list ascii) : string := string_of_list_ascii l.
Definition to_list (s : string) : list ascii := list_ascii_of_string s.

(** ['0' * n] *)
Definition zeros (n : nat) : string := of_list (replicate n "0"%char).

Definition is_sign (c : ascii) : bool :=
  bool_decide (c = "+"%char) || bool_decide (c = "-"%char).

(** [str.zfill(width)]: pads on the left with ['0'], after a leading
    sign when there is one; never shortens. *)
Definition zfill (width : nat) (s : string) : string :=
  let fill := width - String.length s in
  match s with
  | String c rest =>
    if is_sign c then String c (zeros fill +:+ rest) else zeros fill +:+ s
  | EmptyString => zeros fill
  end.

(** [s[0] in "+-"] *)
Definition signed (s : string) : bool :=
  match s with
  | String c _ => is_sign c
  | EmptyString => false
  end.

(** [s.startswith(p)] *)
Definition startswith (s p : string) : bool := String.prefix p s.

(** [s[-n:]] for [n > 0]: the last [n] characters, all of [s] when it is
    shorter. *)
Definition suffix_from (n : nat) (s : string) : string :=
  of_list (drop (String.length s - n) (to_list s)).

Definition upper_char (c : ascii) : ascii :=
  let n := nat_of_ascii c in
  if bool_decide (97 ≤ n ≤ 122) then ascii_of_nat (n - 32) else c.

(** [s.upper()] *)
Definition upper (s : string) : string :=
  of_list (map upper_char (to_list s)).

(** Python's ASCII white space: TAB, LF, VT, FF, CR, FS, GS, RS, US and
    the space. *)
Definition is_space (c : ascii) : bool :=
  let n := nat_of_ascii c in
  bool_decide (9 ≤ n ≤ 13) || bool_decide (28 ≤ n ≤ 32).

Fixpoint lstrip_list (l : list ascii) : list ascii :=
  match l with
  | c :: l' => if is_space c then lstrip_list l' else l
  | [] => []
  end.

(** [s.strip()] *)
Definition strip (s : string) : string :=
  of_list (rev (lstrip_list (rev (lstrip_list (to_list s))))).

(** [s.isascii()] *)
Definition is_ascii (s : string) : bool :=
  forallb (λ c, bool_decide (nat_of_ascii c < 128)) (to_list s).

End Str.

(** ** Tables *)

(** A cell of an [object] or [int64] column: a missing value, a string or
    an integer.  A [float64] identifier column is not among them. *)
Inductive pyobj : Type :=
  | PyNone
  | PyStr (s : string)
  | PyInt (n : Z).

#[global] Instance pyobj_eq_dec : EqDecision pyobj.
Proof. solve_decision. Defined.

(** [str(x)], as [astype(str)] applies it to each cell; the missing value
    becomes "None", as in pandas up to 2.x. *)
Definition py_str (x : pyobj) : string :=
  match x with
  | PyNone => "None"
  | PyStr s => s
  | PyInt n => pretty n
  end.

(** The name and identifier columns ([County], [GEOID], [fips]) are
    [object] or [int64] columns; the indicator columns and the columns the
    scripts add ([Z_...], [UOI_custom]) are [float64]. *)
Record DataFrame : Type := mkDataFrame {
  obj : gmap string (list pyobj);
  num : gmap string Series;
}.

Definition set_obj (k : string) (c : list pyobj) (df : DataFrame) : DataFrame :=
  mkDataFrame (<[k := c]> (obj df)) (num df).
Definition set_num (k : string) (c : Series) (df : DataFrame) : DataFrame :=
  mkDataFrame (obj df) (<[k := c]> (num df)).

(** [df[k]] raises [KeyError] on a column that is not there. *)
Definition get_obj (df : DataFrame) (k : string) : result (list pyobj) :=
  match obj df !! k with Some c => Ok c | None => Raise (KeyError k) end.
Definition get_num (df : DataFrame) (k : string) : result Series :=
  match num df !! k with Some c => Ok c | None => Raise (KeyError k) end.

(** [l[mask]]: the rows whose mask is [True]. *)
Fixpoint select {A} (mask : list bool) (l : list A) : list A :=
  match mask, l with
  | b :: mask', x :: l' => if b then x :: select mask' l' else select mask' l'
  | _, _ => []
  end.

(** [df[mask]] *)
Definition select_rows (mask : list bool) (df : DataFrame) : DataFrame :=
  mkDataFrame (select mask <$> obj df) (select mask <$> num df).

(** [f] applied to each element in order, stopping at the first
    exception. *)
Fixpoint traverse {A B} (f : A → result B) (l : list A) : result (list B) :=
  match l with
  | [] => Ok []
  | x :: l' => y ← f x; ys ← traverse f l'; Ok (y :: ys)
  end.

(** ** The FIPS column *)

(** A feature of the boundary GeoJSON, with the three properties the
    lookup reads; every feature of the fetched file has them. *)
Record feature : Type := mkFeature {
  feat_id : option string;
  NAME : string;
  STATEFP : string;
  COUNTYFP : string;
}.

Module Fips.

(** [[feat for feat in counties["features"]
      if feat.get("id", "").startswith("06")]] *)
Definition california (features : list feature) : list feature :=
  filter (λ feat, Str.startswith (default "" (feat_id feat)) "06" = true)
         features.

Fixpoint first_match (name : string) (features : list feature) : pyobj :=
  match features with
  | feat :: rest =>
    if bool_decide (Str.upper (NAME feat) = name)
    then PyStr (STATEFP feat +:+ COUNTYFP feat)
    else first_match name rest
  | [] => PyNone
  end.

(** [fips_lookup(county_name)]; [strip] exists on a [str] only. *)
Definition fips_lookup (features : list feature) (county_name : pyobj)
  : result pyobj :=
  match county_name with
  | PyStr s => Ok (first_match (Str.upper (Str.strip s)) features)
  | _ => Raise AttributeError
  end.

(** [.astype(str).str.zfill(5)] *)
Definition astype_str_zfill (c : list pyobj) : list pyobj :=
  map (λ x, PyStr (Str.zfill 5 (py_str x))) c.

(** [lambda x: x if x.startswith("06") else "06" + x[-3:]] *)
Definition repair (x : string) : string :=
  if Str.startswith x "06" then x else "06" +:+ Str.suffix_from 3 x.

(** An explicit identifier, from [str(...)] to the repaired code. *)
Definition normalize (x : pyobj) : string :=
  repair (Str.zfill 5 (py_str x)).

Definition apply_repair (c : list pyobj) : list pyobj :=
  map (λ x, PyStr (repair (py_str x))) c.

(** The rule as the specification words it: pad on the left with zeros to
    five characters and, when the result does not start with "06", put
    "06" in the place of its two leading characters. *)
Definition spec_normalize (s : string) : string :=
  let p := Str.zeros (5 - String.length s) +:+ s in
  if Str.startswith p "06" then p
  else "06" +:+ Str.of_list (drop 2 (Str.to_list p)).

End Fips.

(** ** Weights *)

Inductive preset : Type :=
  | Even
  | IncomeHeavy
  | EducationHeavy
  | EquityFocused
  | StabilityFocused
  | Custom.

#[global] Instance preset_eq_dec : EqDecision preset.
Proof. solve_decision. Defined.

(** [w_inc, w_bach, w_unemp, w_health, w_rent, w_bb, w_school, w_mob,
    w_gini = w] *)
Record weights : Type := mkWeights {
  w_inc : R; w_bach : R; w_unemp : R; w_health : R; w_rent : R;
  w_bb : R; w_school : R; w_mob : R; w_gini : R;
}.

Module Weights.

Local Open Scope R_scope.

(** The slider labels of the "Custom" branch. *)
Definition labels : list string :=
  [ "Income"; "Bachelor’s %"; "Unemployment Rate";
    "Uninsured %"; "Median Rent"; "Broadband %";
    "HS Grad %"; "Upward Mobility"; "Gini Index" ]%string.

(** The [if preset == ...] chain.  [slider label] is the position of the
    sidebar slider with that label, which the widget keeps between [0.0]
    and [1.0]. *)
Definition choose (p : preset) (slider : string → R) : list R :=
  match p with
  | Even => replicate 9 (1 / 9)
  | IncomeHeavy => [0.4; 0.1; 0.1; 0.1; 0.1; 0.05; 0.05; 0.05; 0.05]
  | EducationHeavy => [0.1; 0.4; 0.1; 0.1; 0.1; 0.05; 0.05; 0.05; 0.05]
  | EquityFocused => [0.05; 0.05; 0.3; 0.05; 0.1; 0.05; 0.2; 0.1; 0.1]
  | StabilityFocused => [0.05; 0.05; 0.05; 0.05; 0.2; 0.05; 0.1; 0.3; 0.15]
  | Custom => map slider labels
  end.

(** [sum(w)]: from [0], left to right. *)
Definition py_sum (w : list R) : R := foldl Rplus 0 w.

(** [wi / total_w] on Python floats. *)
Definition py_div (x y : R) : result R :=
  if Req_dec_T y 0 then Raise ZeroDivisionError else Ok (x / y).

(** [total_w = sum(w); w = [wi/total_w for wi in w]] *)
Definition normalize (w : list R) : result (list R) :=
  let total_w := py_sum w in
  traverse (λ wi, py_div wi total_w) w.

(** The nine-name tuple assignment; any other length is a
    [ValueError]. *)
Definition unpack (w : list R) : result weights :=
  match w with
  | [a; b; c; d; e; f; g; h; i] => Ok (mkWeights a b c d e f g h i)
  | _ => Raise ValueError
  end.

(** From the raw list to the nine names. *)
Definition resolve (w : list R) : result weights :=
  w' ← normalize w; unpack w'.

Definition to_list (w : weights) : list R :=
  [w_inc w; w_bach w; w_unemp w; w_health w; w_rent w;
   w_bb w; w_school w; w_mob w; w_gini w].

End Weights.

(** ** Standardisation and the composite score *)

Module Score.

Definition Z_ (col : string) : string := "Z_" +:+ col.

(** One turn of a [Z_] loop; [negs] is the list of the [if col in [...]]
    test of that loop. *)
Definition z_column (negs : list string) (col : string) (s : Series)
  : Series :=
  if bool_decide (col ∈ negs)
  then Stats.neg_series (Stats.zscore s)
  else Stats.zscore s.

(** Row [i] of a [Z_] column, NaN when the column has no row [i]. *)
Definition z_at (negs : list string) (col : string) (s : Series) (i : nat)
  : cell :=
  default NaN (z_column negs col s !! i).

Definition z_step (negs : list string) (df : DataFrame) (col : string)
  : DataFrame :=
  match num df !! col with
  | None => df
  | Some s => set_num (Z_ col) (z_column negs col s) df
  end.

Definition z_loop (cols negs : list string) (df : DataFrame) : DataFrame :=
  foldl (z_step negs) df cols.

(** No name of [cols] is itself the name of a [Z_] column, so a loop over
    [cols] never reads a column it has written. *)
Definition plain (cols : list string) : Prop :=
  Forall (λ c, Str.startswith c "Z_" = false) cols.

(** The nine products of [UOI_custom], in the order they are written. *)
Definition terms (w : weights) : list (string * R) :=
  [ ("Z_Median_Household_Income", w_inc w);
    ("Z_Bachelors_Degree_Pct", w_bach w);
    ("Z_Unemployment_Rate", w_unemp w);
    ("Z_No_Health_Insurance_Pct", w_health w);
    ("Z_Median_Gross_Rent", w_rent w);
    ("Z_Broadband_Pct", w_bb w);
    ("Z_High_School_Grad_Pct", w_school w);
    ("Z_Upward_Mobility", w_mob w);
    ("Z_Gini_Index", w_gini w) ]%string.

(** [acc + df[k1] * w1 + df[k2] * w2 + ...], evaluated left to right. *)
Fixpoint add_terms (df : DataFrame) (acc : Series) (ts : list (string * R))
  : result Series :=
  match ts with
  | [] => Ok acc
  | (k, wk) :: rest =>
    z ← get_num df k;
    add_terms df (Stats.add_series acc (Stats.mul_scalar z (Some wk))) rest
  end.

Definition weighted_sum (df : DataFrame) (ts : list (string * R))
  : result Series :=
  match ts with
  | [] => Ok []
  | (k, wk) :: rest =>
    z ← get_num df k;
    add_terms df (Stats.mul_scalar z (Some wk)) rest
  end.

(** The cell of column [k] in row [i], when the table has both. *)
Definition cell_at (df : DataFrame) (i : nat) (k : string) : option cell :=
  col ← num df !! k; col !! i.

(** Row [i] of the columns named in [ts], each with its weight. *)
Definition row_terms (df : DataFrame) (i : nat) (ts : list (string * R))
  : option (list (cell * R)) :=
  mapM (λ '(k, wk), z ← cell_at df i k; Some (z, wk)) ts.

(** [a + z1 * w1 + z2 * w2 + ...] on cells, left to right. *)
Definition add_products (a : cell) (zw : list (cell * R)) : cell :=
  foldl (λ a '(z, wk), Float.add a (Float.mul z (Some wk))) a zw.

(** One row of [weighted_sum]. *)
Definition row_total (zw : list (cell * R)) : option cell :=
  match zw with
  | [] => None
  | (z, wk) :: rest => Some (add_products (Float.mul z (Some wk)) rest)
  end.

(** The composite of the specification: a missing standardised value
    adds [0], the others add [z * w]. *)
Definition spec_composite (zw : list (cell * R)) : cell :=
  Some (Stats.Rsum (map (λ '(z, wk), default 0%R z * wk)%R zw)).

(** [df["UOI_custom"] = (...)] *)
Definition uoi_custom (w : weights) (df : DataFrame) : result DataFrame :=
  u ← weighted_sum df (terms w);
  Ok (set_num "UOI_custom" u df).

End Score.

(** ** app_ca.py *)

Module AppCa.

Definition indicators : list string :=
  [ "Median_Household_Income"; "Bachelors_Degree_Pct";
    "Unemployment_Rate"; "No_Health_Insurance_Pct";
    "Median_Gross_Rent"; "Broadband_Pct";
    "High_School_Grad_Pct"; "Upward_Mobility"; "Gini_Index" ]%string.

Definition negatives : list string :=
  [ "Unemployment_Rate"; "No_Health_Insurance_Pct";
    "Median_Gross_Rent"; "Gini_Index" ]%string.

(** Lines 45-61. *)
Definition ensure_fips (counties : list feature) (df : DataFrame)
  : result DataFrame :=
  df1 ←
    match obj df !! "GEOID" with
    | Some c => Ok (set_obj "fips" (Fips.astype_str_zfill c) df)
    | None =>
      match obj df !! "fips" with
      | Some c => Ok (set_obj "fips" (Fips.astype_str_zfill c) df)
      | None =>
        names ← get_obj df "County";
        c ← traverse (Fips.fips_lookup counties) names;
        Ok (set_obj "fips" (Fips.astype_str_zfill c) df)
      end
    end;
  c ← get_obj df1 "fips";
  Ok (set_obj "fips" (Fips.apply_repair c) df1).

(** The column the identifiers of [ensure_fips] are made from. *)
Definition raw_ids (counties : list feature) (df : DataFrame)
  : result (list pyobj) :=
  match obj df !! "GEOID" with
  | Some c => Ok c
  | None =>
    match obj df !! "fips" with
    | Some c => Ok c
    | None =>
      names ← get_obj df "County";
      traverse (Fips.fips_lookup counties) names
    end
  end.

(** [df] has the nine indicator columns, and they are [cols]. *)
Definition complete (df : DataFrame) (cols : string → Series) : Prop :=
  ∀ c, c ∈ indicators → num df !! c = Some (cols c).

(** Lines 104-117. *)
Definition standardize (df : DataFrame) : DataFrame :=
  Score.z_loop indicators negatives df.

(** [df["fips"] != "06003"] *)
Definition alpine_mask (c : list pyobj) : list bool :=
  map (λ x, bool_decide (x ≠ PyStr "06003")) c.

(** Lines 133-134: [df[df["fips"] != "06003"]]. *)
Definition exclude_alpine (df : DataFrame) : result DataFrame :=
  c ← get_obj df "fips";
  Ok (select_rows (alpine_mask c) df).

(** The script from the tables it reads to the table it plots: [features]
    is the fetched GeoJSON's feature list, [df] the CSV. *)
Definition run (features : list feature) (p : preset)
    (slider : string → R) (df : DataFrame) : result DataFrame :=
  let counties := Fips.california features in
  df ← ensure_fips counties df;
  w ← Weights.resolve (Weights.choose p slider);
  let df := standardize df in
  df ← Score.uoi_custom w df;
  exclude_alpine df.

End AppCa.

(** ** src/cali.py *)

Module Cali.

Definition six : list string :=
  [ "Median_Household_Income"; "Bachelors_Degree_Pct";
    "Unemployment_Rate"; "No_Health_Insurance_Pct";
    "Median_Gross_Rent"; "Broadband_Pct" ]%string.
Definition six_negatives : list string :=
  [ "Unemployment_Rate"; "No_Health_Insurance_Pct";
    "Median_Gross_Rent" ]%string.

Definition three : list string :=
  [ "High_School_Grad_Pct"; "Upward_Mobility"; "Gini_Index" ]%string.
Definition three_negatives : list string := [ "Gini_Index" ]%string.

(** Lines 28-38. *)
Definition ensure_fips (counties : list feature) (df : DataFrame)
  : result DataFrame :=
  df1 ←
    match obj df !! "fips" with
    | Some _ => Ok df
    | None =>
      names ← get_obj df "County";
      c ← traverse (Fips.fips_lookup counties) names;
      Ok (set_obj "fips" c df)
    end;
  c ← get_obj df1 "fips";
  let df2 := set_obj "fips" (Fips.astype_str_zfill c) df1 in
  c ← get_obj df2 "fips";
  Ok (set_obj "fips" (Fips.apply_repair c) df2).

(** The column the identifiers of [ensure_fips] are made from. *)
Definition raw_ids (counties : list feature) (df : DataFrame)
  : result (list pyobj) :=
  match obj df !! "fips" with
  | Some c => Ok c
  | None =>
    names ← get_obj df "County";
    traverse (Fips.fips_lookup counties) names
  end.

(** Lines 82-112: the loop over six columns, then the loop over three. *)
Definition standardize (df : DataFrame) : DataFrame :=
  Score.z_loop three three_negatives (Score.z_loop six six_negatives df).

Definition run (features : list feature) (p : preset)
    (slider : string → R) (df : DataFrame) : result DataFrame :=
  let counties := Fips.california features in
  df ← ensure_fips counties df;
  w ← Weights.resolve (Weights.choose p slider);
  let df := standardize df in
  Score.uoi_custom w df.

End Cali.


(** ** src/cali.py: the comparison views *)

Module Compare.

(** [region_options], in the order of the dictionary literal. *)
Definition region_options : list (string * list string) :=
  [ ("Bay Area",
     ["06001"; "06013"; "06041"; "06055"; "06075"; "06081"; "06085";
      "06095"; "06097"]);
    ("Central Valley",
     ["06007"; "06019"; "06029"; "06031"; "06039"; "06047"; "06053";
      "06059"; "06061"; "06063"; "06069"; "06071"; "06073"; "06077";
      "06079"]);
    ("Southern California",
     ["06037"; "06065"; "06071"; "06073"; "06079"; "06083"; "06099";
      "06107"; "06111"]);
    ("Northern California",
     ["06003"; "06005"; "06009"; "06011"; "06015"; "06017"; "06021";
      "06023"; "06025"; "06027"; "06033"; "06035"; "06043"; "06045";
      "06049"; "06051"; "06057"; "06067"; "06087"; "06089"; "06091";
      "06093"; "06099"; "06101"; "06103"; "06105"]);
    ("Los Angeles Region", ["06037"; "06059"; "06065"; "06071"]) ]%string.

(** [d[key]] on a dictionary literal. *)
Fixpoint getitem {V} (d : list (string * V)) (key : string) : result V :=
  match d with
  | [] => Raise (KeyError key)
  | (k, v) :: d' => if bool_decide (k = key) then Ok v else getitem d' key
  end.

(** [df["fips"].isin(fips_list)] *)
Definition isin (fips_list : list string) (c : list pyobj) : list bool :=
  map (λ x, match x with
            | PyStr s => bool_decide (s ∈ fips_list)
            | _ => false
            end) c.

(** The values an indicator has in the rows of a region, in row order:
    row by row, the value when the identifier is a string of [fips_list]
    and the value is not missing. *)
Definition region_values (fips_list : list string) (c : list pyobj)
    (col : Series) : list R :=
  omap (λ '(x, v),
          match x with
          | PyStr s => if bool_decide (s ∈ fips_list) then v else None
          | _ => None
          end) (zip c col).

(** [region_mean(region_name, indicator)], on the table [df] the script
    has computed. *)
Definition region_mean (df : DataFrame) (region_name indicator : string)
  : result cell :=
  fips_list ← getitem region_options region_name;
  c ← get_obj df "fips";
  let region_df := select_rows (isin fips_list c) df in
  col ← get_num region_df indicator;
  Ok (Stats.mean col).

(** [color_continuous_midpoint=df["UOI_custom"].mean()], the centre of the
    colour scale of the map. *)
Definition midpoint (df : DataFrame) : result cell :=
  u ← get_num df "UOI_custom";
  Ok (Stats.mean u).

(** [df["County"] == county] *)
Definition named (county : string) (c : list pyobj) : list bool :=
  map (λ x, bool_decide (x = PyStr county)) c.

(** [df.loc[df["County"] == county, indicator].values]; the script takes
    element [0] of it. *)
Definition county_values (df : DataFrame) (county indicator : string)
  : result Series :=
  c ← get_obj df "County";
  col ← get_num df indicator;
  Ok (select (named county c) col).

End Compare.

(** ** Sample tables *)

Module Examples.

Local Open Scope R_scope.

(** A column of three values. *)
Definition col123 : Series := [Some 1; Some 2; Some 3].

(** A table with one indicator column and nothing else. *)
Definition income_only : DataFrame :=
  mkDataFrame ∅ {[ "Median_Household_Income"%string := col123 ]}.

(** A table with a [fips] column and the nine indicator columns. *)
Definition with_fips (ids : list pyobj) (cols : string → Series)
  : DataFrame :=
  mkDataFrame {[ "fips"%string := ids ]}
    (list_to_map (map (λ k, (k, cols k)) AppCa.indicators)).

(** The same with a [County] column and no identifier. *)
Definition with_names (names : list pyobj) (cols : string → Series)
  : DataFrame :=
  mkDataFrame {[ "County"%string := names ]}
    (list_to_map (map (λ k, (k, cols k)) AppCa.indicators)).

(** A column without variation. *)
Definition col111 : Series := [Some 1; Some 1; Some 1].

(** Three counties; every indicator is [1, 2, 3] except the Gini index,
    which is the same in all three. *)
Definition constant_gini_cols (k : string) : Series :=
  if bool_decide (k = "Gini_Index"%string) then col111 else col123.

Definition constant_gini : DataFrame :=
  with_fips [PyStr "06001"; PyStr "06075"; PyStr "06085"]
    constant_gini_cols.

(** The normalised "Even" weights. *)
Definition ninths : weights :=
  mkWeights (1 / 9) (1 / 9) (1 / 9) (1 / 9) (1 / 9)
            (1 / 9) (1 / 9) (1 / 9) (1 / 9).

(** Three counties, Alpine County among them; every indicator is
    [1, 2, 3]. *)
Definition with_alpine : DataFrame :=
  with_fips [PyStr "06001"; PyStr "06003"; PyStr "06005"] (λ _, col123).

(** A boundary file with two Californian counties and one of Nevada. *)
Definition boundaries : list feature :=
  [ mkFeature (Some "06001") "Alameda" "06" "001";
    mkFeature (Some "32001") "Churchill" "32" "001";
    mkFeature (Some "06085") "Santa Clara" "06" "085" ]%string.

(** Three named rows without identifiers; the second name is in no
    boundary feature. *)
Definition with_unmatched : DataFrame :=
  with_names [PyStr " alameda"; PyStr "Atlantis"; PyStr "Santa Clara"]
    (λ _, col123).

(** The two records of the end-to-end test, A then B: income 100 and 200,
    unemployment 5 and 10; [others k] is what A and B have for each of the
    seven other indicators. *)
Definition two_records (others : string → R * R) (k : string) : Series :=
  if bool_decide (k = "Median_Household_Income"%string)
  then [Some 100; Some 200]
  else if bool_decide (k = "Unemployment_Rate"%string)
  then [Some 5; Some 10]
  else [Some (others k).1; Some (others k).2].

(** The same two records with the seven other indicators missing. *)
Definition two_records_only (k : string) : Series :=
  if bool_decide (k = "Median_Household_Income"%string)
  then [Some 100; Some 200]
  else if bool_decide (k = "Unemployment_Rate"%string)
  then [Some 5; Some 10]
  else [NaN; NaN].

Definition AB : list pyobj := [PyStr "06001"; PyStr "06075"].

(** All the weight on one slider. *)
Definition income_slider (label : string) : R :=
  if bool_decide (label = "Income"%string) then 1 else 0.
Definition unemployment_slider (label : string) : R :=
  if bool_decide (label = "Unemployment Rate"%string) then 1 else 0.

(** A table with both a [GEOID] and a [fips] column, which disagree. *)
Definition with_geoid : DataFrame :=
  mkDataFrame
    (<[ "GEOID"%string := [PyInt 6001; PyInt 6075; PyInt 6085] ]>
       {[ "fips"%string := [PyStr "013"; PyStr "041"; PyStr "055"] ]})
    (list_to_map (map (λ k, (k, col123)) AppCa.indicators)).

(** Identifiers as a CSV read as text can have them: a county code, a code
    that lost its leading zero, and a full code. *)
Definition codes : list pyobj :=
  [PyStr "001"; PyStr "6001"; PyStr "06085"].

(** A table whose [GEOID] column holds a seven-digit code. *)
Definition long_geoid : DataFrame :=
  mkDataFrame {[ "GEOID"%string := [PyInt 1234567] ]} ∅.

End Examples.
(** * Properties *)

(** ** Sums, means and deviations *)

Section stats_facts.

Import Stats.
Local Open Scope R_scope.

Implicit Types (xs ys : list R) (s : Series) (m c : R).

Lemma Rsum_app xs ys : Rsum (xs ++ ys) = Rsum xs + Rsum ys.
Proof. induction xs as [|x xs IH]; simpl; [|rewrite IH]; lra. Qed.

Lemma Rsum_map_ext (f g : R → R) xs :
  (∀ x, f x = g x) → Rsum (map f xs) = Rsum (map g xs).
Proof. intros E. induction xs as [|x xs IH]; simpl; [|rewrite IH, E]; lra. Qed.

Lemma Rsum_map_scale (f : R → R) c xs :
  Rsum (map (λ x, c * f x) xs) = c * Rsum (map f xs).
Proof. induction xs as [|x xs IH]; simpl; [|rewrite IH]; lra. Qed.

Lemma Rsum_map_shift m xs :
  Rsum (map (λ x, x - m) xs) = Rsum xs - INR (length xs) * m.
Proof.
  induction xs as [|x xs IH]; [simpl; lra|].
  cbn [map length Rsum foldr] in *. rewrite S_INR. fold (Rsum (map (λ x, x - m) xs)).
  fold (Rsum xs). rewrite IH. lra.
Qed.

Lemma sqdev_nonneg m xs : 0 <= sqdev m xs.
Proof.
  unfold sqdev, Rsum. induction xs as [|x xs IH]; simpl; [lra|].
  pose proof (Rle_0_sqr (x - m)) as Hx. unfold Rsqr in Hx. lra.
Qed.

Lemma sqdev_zero m xs x : sqdev m xs = 0 → x ∈ xs → x = m.
Proof.
  induction xs as [|y xs IH]; intros Hz Hin.
  - by apply elem_of_nil in Hin.
  - pose proof (sqdev_nonneg m xs) as Hn.
    pose proof (Rle_0_sqr (y - m)) as Hy. unfold Rsqr in Hy.
    unfold sqdev, Rsum in *. simpl in Hz.
    apply elem_of_cons in Hin as [->|Hin].
    + assert ((y - m) * (y - m) = 0) as H0 by lra.
      apply Rmult_integral in H0. lra.
    + apply IH; [lra|done].
Qed.

Lemma sqdev_scale m c xs :
  sqdev 0 (map (λ x, c * (x - m)) xs) = c * c * sqdev m xs.
Proof.
  unfold sqdev. rewrite map_map, <- Rsum_map_scale.
  apply Rsum_map_ext. intros x. lra.
Qed.

Lemma INR_length_pos {A} (l : list A) : l ≠ [] → 0 < INR (length l).
Proof. destruct l; [done|]. intros _. apply lt_0_INR. simpl. lia. Qed.

Lemma dropna_app s1 s2 : dropna (s1 ++ s2) = dropna s1 ++ dropna s2.
Proof.
  induction s1 as [|[x|] s1 IH]; simpl; [done| |done]. by rewrite IH.
Qed.

Lemma elem_of_dropna s x : x ∈ dropna s ↔ Some x ∈ s.
Proof.
  induction s as [|[y|] s IH]; simpl.
  - split; intros H; by apply elem_of_nil in H.
  - rewrite !elem_of_cons, IH.
    split; (intros [E|?]; [left; congruence|by right]).
  - rewrite elem_of_cons, IH. intuition discriminate.
Qed.

(** A column's mean and standard deviation, when it has them. *)
Lemma mean_Some s x xs :
  dropna s = x :: xs →
  mean s = Some (Rsum (x :: xs) / INR (length (x :: xs))).
Proof. unfold mean. by intros ->. Qed.

Lemma std_Some_inv s σ :
  std s = Some σ →
  (2 ≤ length (dropna s))%nat ∧
  ∃ m, mean s = Some m ∧
       σ = sqrt (sqdev m (dropna s) / (INR (length (dropna s)) - 1)).
Proof.
  unfold std, mean. case_decide as Hn; [done|]. intros [= <-].
  split; [lia|]. destruct (dropna s) as [|x xs] eqn:E; [simpl in Hn; lia|].
  eauto.
Qed.

Lemma std_nonneg s σ : std s = Some σ → 0 <= σ.
Proof.
  intros (_ & m & _ & ->)%std_Some_inv. apply sqrt_pos.
Qed.

Lemma sample_var_nonneg m xs :
  (2 ≤ length xs)%nat → 0 <= sqdev m xs / (INR (length xs) - 1).
Proof.
  intros Hn. apply le_INR in Hn. simpl in Hn.
  apply Rmult_le_pos; [apply sqdev_nonneg|].
  left. apply Rinv_0_lt_compat. lra.
Qed.

(** A zero standard deviation leaves no deviation at all: every value of
    the column is the mean, so the division of [zscore] is [0 / 0]. *)
Lemma std_zero_centered s x :
  std s = Some 0 → Some x ∈ s → Float.sub (Some x) (mean s) = Some 0.
Proof.
  intros Hs Hx. destruct (std_Some_inv _ _ Hs) as (Hn & m & Hm & Hsq).
  rewrite Hm. simpl. f_equal.
  symmetry in Hsq. apply sqrt_eq_0 in Hsq; [|by apply sample_var_nonneg].
  assert (sqdev m (dropna s) = 0) as Hz.
  { apply le_INR in Hn. simpl in Hn.
    apply Rmult_integral in Hsq as [?|Hinv]; [done|].
    exfalso. revert Hinv. apply Rinv_neq_0_compat. lra. }
  apply elem_of_dropna in Hx. rewrite (sqdev_zero _ _ _ Hz Hx). lra.
Qed.

End stats_facts.

(** ** The z-score of a column *)

Section zscore_facts.

Import Stats.
Local Open Scope R_scope.

Implicit Types (s : Series) (m σ : R).

Lemma zscore_cells s m σ :
  mean s = Some m → std s = Some σ → σ ≠ 0 →
  zscore s = map (z_cell m σ) s.
Proof.
  intros Hm Hs Hσ. unfold zscore, div_scalar, sub_scalar.
  rewrite Hm, Hs, map_map. apply map_ext. intros [x|]; simpl; [|done].
  by destruct (Req_dec_T σ 0).
Qed.

(** Without a usable standard deviation (fewer than two values, or no
    variation) every cell of the z-score is NaN, never [0]. *)
Lemma zscore_undefined s :
  std s = NaN ∨ std s = Some 0 → zscore s = map (λ _, NaN) s.
Proof.
  intros Hs. unfold zscore, div_scalar, sub_scalar. rewrite map_map.
  apply map_ext. intros c.
  destruct Hs as [->| ->]; unfold Float.div.
  - by destruct (Float.sub c (mean s)).
  - destruct (Float.sub c (mean s)); [|done]. by destruct (Req_dec_T 0 0).
Qed.

Lemma dropna_z_cell m σ s :
  dropna (map (z_cell m σ) s) = map (λ x, (x - m) / σ) (dropna s).
Proof. induction s as [|[x|] s IH]; simpl; by rewrite ?IH. Qed.

Lemma dropna_neg s : dropna (neg_series s) = map Ropp (dropna s).
Proof. induction s as [|[x|] s IH]; simpl; by rewrite ?IH. Qed.

(** The mean and the (count - 1) standard deviation of an affine image
    [c * (x - m)] of the values, [m] being their mean. *)
Lemma mean_centered xs c :
  xs ≠ [] →
  let m := Rsum xs / INR (length xs) in
  Rsum (map (λ x, c * (x - m)) xs) / INR (length xs) = 0.
Proof.
  intros Hne m. pose proof (INR_length_pos xs Hne) as Hn.
  rewrite Rsum_map_scale, Rsum_map_shift. subst m. field. lra.
Qed.

Lemma affine_stats (zs : Series) xs c :
  (2 ≤ length xs)%nat →
  let n := INR (length xs) in
  let m := Rsum xs / n in
  dropna zs = map (λ x, c * (x - m)) xs →
  mean zs = Some 0 ∧
  std zs = Some (sqrt (c * c * (sqdev m xs / (n - 1)))) ∧
  pop_std zs = Some (sqrt (c * c * (sqdev m xs / n))).
Proof.
  intros Hn n m Hzs.
  assert (xs ≠ []) as Hne by (intros ->; simpl in Hn; lia).
  pose proof (mean_centered xs c Hne) as Hc. cbv zeta in Hc. fold n m in Hc.
  assert (length (dropna zs) = length xs) as Hlen
    by (by rewrite Hzs, length_map).
  assert (1 < n) as Hn1.
  { apply le_INR in Hn. simpl in Hn. unfold n. lra. }
  unfold mean, std, pop_std. rewrite Hlen. fold n.
  case_decide as Hd; [lia|].
  destruct (dropna zs) as [|z zs'] eqn:E.
  { destruct xs; [done|discriminate]. }
  rewrite Hzs, Hc, sqdev_scale. fold m.
  repeat split; do 2 f_equal; field; lra.
Qed.

(** The values of a standardised column, negated or not, have mean [0],
    standard deviation [1] with the denominator [count - 1] the code uses,
    and [sqrt ((count - 1) / count)] with the denominator [count]. *)
Lemma zscore_stats s σ (negate : bool) :
  std s = Some σ → σ ≠ 0 →
  let zs := if negate then neg_series (zscore s) else zscore s in
  let n := INR (length (dropna s)) in
  mean zs = Some 0 ∧ std zs = Some 1 ∧ pop_std zs = Some (sqrt ((n - 1) / n)).
Proof.
  intros Hs Hσ zs n.
  destruct (std_Some_inv _ _ Hs) as (Hn & m & Hm & Hsq).
  pose proof (sample_var_nonneg m (dropna s) Hn) as Hv.
  assert (1 < n) as Hn1.
  { apply le_INR in Hn. simpl in Hn. unfold n. lra. }
  assert (m = Rsum (dropna s) / n) as Em.
  { unfold mean in Hm. unfold n. destruct (dropna s) eqn:E; [done|].
    by injection Hm as <-. }
  assert (σ * σ = sqdev m (dropna s) / (n - 1)) as Hσσ.
  { rewrite Hsq. unfold n. by rewrite sqrt_sqrt. }
  set (c := if negate then - / σ else / σ).
  assert (dropna zs = map (λ x, c * (x - m)) (dropna s)) as Hzs.
  { unfold zs, c. rewrite (zscore_cells s m σ) by done.
    destruct negate; rewrite ?dropna_neg, dropna_z_cell, ?map_map;
      apply map_ext; intros x; unfold Rdiv; lra. }
  rewrite Em in Hzs.
  destruct (affine_stats zs (dropna s) c Hn Hzs) as (H1 & H2 & H3).
  fold n in H2, H3. rewrite <- Em in H2, H3.
  split; [done|]. rewrite H2, H3. rewrite <- Hσσ.
  assert (c * c * (σ * σ) = 1) as -> by (unfold c; destruct negate; by field).
  rewrite sqrt_1. split; [done|]. do 2 f_equal.
  assert (sqdev m (dropna s) = σ * σ * (n - 1)) as -> by (rewrite Hσσ; field; lra).
  unfold c; destruct negate; field; lra.
Qed.

End zscore_facts.

(** ** The error monad *)

Lemma bind_Ok {A B} (m : result A) (k : A → result B) (b : B) :
  m ≫= k = Ok b ↔ ∃ a, m = Ok a ∧ k a = Ok b.
Proof.
  destruct m as [a|e]; simpl; split.
  - eauto.
  - by intros (? & [= <-] & ?).
  - done.
  - by intros (? & ? & _).
Qed.

Lemma bind_Ok_l {A B} (a : A) (k : A → result B) : Ok a ≫= k = k a.
Proof. reflexivity. Qed.

Lemma bind_Raise {A B} (e : pyerr) (k : A → result B) :
  Raise e ≫= k = Raise e.
Proof. reflexivity. Qed.

Lemma get_obj_Ok df k c : get_obj df k = Ok c ↔ obj df !! k = Some c.
Proof. unfold get_obj. destruct (obj df !! k); split; congruence. Qed.

Lemma get_num_Ok df k c : get_num df k = Ok c ↔ num df !! k = Some c.
Proof. unfold get_num. destruct (num df !! k); split; congruence. Qed.

Lemma traverse_length {A B} (f : A → result B) l l' :
  traverse f l = Ok l' → length l' = length l.
Proof.
  revert l'. induction l as [|x l IH]; intros l'; simpl.
  - by intros [= <-].
  - intros (y & _ & (ys & Hys & [= <-])%bind_Ok)%bind_Ok.
    simpl. f_equal. by apply IH.
Qed.

Lemma traverse_lookup {A B} (f : A → result B) l l' i x :
  traverse f l = Ok l' → l !! i = Some x →
  ∃ y, f x = Ok y ∧ l' !! i = Some y.
Proof.
  revert l' i. induction l as [|x0 l IH]; intros l' i; simpl; [done|].
  intros (y & Hy & (ys & Hys & [= <-])%bind_Ok)%bind_Ok Hi.
  destruct i as [|i]; simpl in *.
  - injection Hi as ->. eauto.
  - eauto.
Qed.

(** ** The [Z_] loops *)

Section z_loop_facts.

Import Score.

Lemma Z_inj c c' : Z_ c = Z_ c' → c = c'.
Proof. unfold Z_. intros [= H]. exact H. Qed.

Lemma Z_startswith c : Str.startswith (Z_ c) "Z_" = true.
Proof. destruct c; reflexivity. Qed.

Lemma plain_not_Z cols c c' : plain cols → c ∈ cols → c ≠ Z_ c'.
Proof.
  intros Hp Hc ->. eapply Forall_forall in Hp; [|done].
  by rewrite Z_startswith in Hp.
Qed.

Lemma z_step_obj negs df c : obj (z_step negs df c) = obj df.
Proof. unfold z_step. by destruct (num df !! c). Qed.

Lemma z_loop_obj cols negs df : obj (z_loop cols negs df) = obj df.
Proof.
  unfold z_loop. revert df. induction cols as [|c cols IH]; intros df; simpl.
  - done.
  - by rewrite IH, z_step_obj.
Qed.

Lemma z_step_other negs df c k :
  k ≠ Z_ c → num (z_step negs df c) !! k = num df !! k.
Proof.
  intros Hk. unfold z_step. destruct (num df !! c); [|done].
  simpl. by rewrite lookup_insert_ne.
Qed.

(** The loop writes [Z_] columns only. *)
Lemma z_loop_other cols negs df k :
  (∀ c, c ∈ cols → k ≠ Z_ c) →
  num (z_loop cols negs df) !! k = num df !! k.
Proof.
  unfold z_loop. revert df. induction cols as [|c cols IH]; intros df Hk.
  - done.
  - simpl. rewrite IH by (intros; apply Hk; by right).
    apply z_step_other, Hk. by left.
Qed.

(** What the loop leaves in [Z_c], for a column [c] it goes through. *)
Lemma z_loop_lookup cols negs df c :
  plain cols → c ∈ cols →
  num (z_loop cols negs df) !! Z_ c =
    match num df !! c with
    | Some s => Some (z_column negs c s)
    | None => num df !! Z_ c
    end.
Proof.
  unfold z_loop. intros Hp. revert df.
  induction cols as [|c0 cols IH]; intros df Hc.
  { by apply elem_of_nil in Hc. }
  assert (plain cols) as Hp' by (by apply Forall_cons_1 in Hp as [_ ?]).
  assert (c ≠ Z_ c0) as Hne by exact (plain_not_Z _ _ _ Hp Hc).
  simpl. destruct (decide (c ∈ cols)) as [Hin|Hnin].
  - rewrite IH by done. rewrite z_step_other by done.
    destruct (num df !! c) eqn:E; [done|].
    destruct (decide (c = c0)) as [->|Hcc].
    + unfold z_step. by rewrite E.
    + apply z_step_other. intros ?%Z_inj. done.
  - apply elem_of_cons in Hc as [->|?]; [|done].
    fold (z_loop cols negs (z_step negs df c0)).
    rewrite z_loop_other.
    + unfold z_step. destruct (num df !! c0); [|done].
      simpl. by rewrite lookup_insert_eq.
    + intros c' Hc' ?%Z_inj. by subst.
Qed.

Lemma z_loop_app cols1 cols2 negs df :
  z_loop (cols1 ++ cols2) negs df = z_loop cols2 negs (z_loop cols1 negs df).
Proof. unfold z_loop. apply foldl_app. Qed.

Lemma z_loop_negs cols negs negs' df :
  Forall (λ c, bool_decide (c ∈ negs) = bool_decide (c ∈ negs')) cols →
  z_loop cols negs df = z_loop cols negs' df.
Proof.
  unfold z_loop. revert df.
  induction cols as [|c cols IH]; intros df Hc; [done|].
  apply Forall_cons_1 in Hc as [Hc Hcs]. simpl. rewrite IH by done.
  f_equal. unfold z_step, z_column. by rewrite Hc.
Qed.

End z_loop_facts.

(** ** The two scripts standardise alike *)

Section pipelines.

Import Score.

Lemma indicators_plain : plain AppCa.indicators.
Proof. repeat constructor. Qed.

Lemma indicators_split : AppCa.indicators = Cali.six ++ Cali.three.
Proof. reflexivity. Qed.

Lemma standardize_Cali_AppCa df : Cali.standardize df = AppCa.standardize df.
Proof.
  unfold Cali.standardize, AppCa.standardize.
  rewrite indicators_split, z_loop_app.
  rewrite (z_loop_negs Cali.six Cali.six_negatives AppCa.negatives).
  - apply z_loop_negs. repeat constructor.
  - repeat constructor.
Qed.

Lemma standardize_obj df : obj (AppCa.standardize df) = obj df.
Proof. apply z_loop_obj. Qed.

Lemma standardize_lookup df c :
  c ∈ AppCa.indicators →
  num (AppCa.standardize df) !! Z_ c =
    match num df !! c with
    | Some s => Some (z_column AppCa.negatives c s)
    | None => num df !! Z_ c
    end.
Proof. apply z_loop_lookup, indicators_plain. Qed.

Lemma standardize_other df k :
  (∀ c, c ∈ AppCa.indicators → k ≠ Z_ c) →
  num (AppCa.standardize df) !! k = num df !! k.
Proof. apply z_loop_other. Qed.

End pipelines.

(** ** Evaluating the statistics on sample columns *)

Section sample_columns.

Import Stats Examples.
Local Open Scope R_scope.

Lemma mean_col123 : mean col123 = Some 2.
Proof. unfold mean, col123, Rsum. simpl. f_equal. lra. Qed.

Lemma std_col123 : std col123 = Some 1.
Proof.
  unfold std, col123, sqdev, Rsum. simpl. f_equal.
  apply sqrt_lem_1; lra.
Qed.

Lemma zscore_col123 : zscore col123 = [Some (-1); Some 0; Some 1].
Proof.
  unfold zscore. rewrite mean_col123, std_col123. unfold col123. simpl.
  destruct (Req_dec_T 1 0); [lra|]. repeat f_equal; lra.
Qed.

Lemma pop_std_col123 : pop_std col123 = Some (sqrt (2 / 3)).
Proof. unfold pop_std, col123, sqdev, Rsum. simpl. do 2 f_equal. lra. Qed.

Lemma pop_std_zscore_col123 : pop_std (zscore col123) = Some (sqrt (2 / 3)).
Proof.
  rewrite zscore_col123. unfold pop_std, sqdev, Rsum. simpl.
  do 2 f_equal. lra.
Qed.

Lemma sqrt_two_thirds : sqrt (2 / 3) ≠ 1 ∧ sqrt (2 / 3) ≠ 0.
Proof.
  assert (sqrt (2 / 3) * sqrt (2 / 3) = 2 / 3) as H by (apply sqrt_sqrt; lra).
  split; intros E; rewrite E in H; lra.
Qed.

End sample_columns.

(** * The claims *)

(** ** C1: what [standardize] computes *)

(** C1, as amended.  For every indicator column of the table, both scripts
    put in [Z_col] the cells [(x - mean) / std], negated for the four
    negative indicators, where [mean] is the mean of the column's values and
    [std] is pandas' default standard deviation, the one with denominator
    [count - 1].  When that deviation is a nonzero number, the values of
    [Z_col] have mean [0] and standard deviation [1] for the denominator
    [count - 1]; for the denominator [count] their standard deviation is
    [sqrt ((count - 1) / count)]. *)
Theorem C1_sample_standardization
    (df : DataFrame) (col : string) (s : Series) (σ : R) :
  col ∈ AppCa.indicators →
  num df !! col = Some s →
  Stats.std s = Some σ →
  σ ≠ 0%R →
  ∃ (m : R) (zs : Series),
    let n := INR (length (Stats.dropna s)) in
    Stats.mean s = Some m ∧
    σ = sqrt (Stats.sqdev m (Stats.dropna s) / (n - 1)) ∧
    zs = (if bool_decide (col ∈ AppCa.negatives)
          then Stats.neg_series (map (Stats.z_cell m σ) s)
          else map (Stats.z_cell m σ) s) ∧
    num (AppCa.standardize df) !! Score.Z_ col = Some zs ∧
    num (Cali.standardize df) !! Score.Z_ col = Some zs ∧
    Stats.mean zs = Some 0%R ∧
    Stats.std zs = Some 1%R ∧
    Stats.pop_std zs = Some (sqrt ((n - 1) / n)).
Proof.
  intros Hcol Hs Hstd Hσ.
  destruct (std_Some_inv _ _ Hstd) as (_ & m & Hm & Hsq).
  pose proof (zscore_cells s m σ Hm Hstd Hσ) as Hz.
  pose proof (zscore_stats s σ (bool_decide (col ∈ AppCa.negatives)) Hstd Hσ)
    as Hstats.
  cbv zeta in Hstats. rewrite Hz in Hstats.
  exists m, (Score.z_column AppCa.negatives col s). cbv zeta.
  assert (Score.z_column AppCa.negatives col s
          = if bool_decide (col ∈ AppCa.negatives)
            then Stats.neg_series (map (Stats.z_cell m σ) s)
            else map (Stats.z_cell m σ) s) as Hzs.
  { unfold Score.z_column. by rewrite Hz. }
  pose proof (standardize_lookup df col Hcol) as Hlook. rewrite Hs in Hlook.
  destruct Hstats as (H1 & H2 & H3).
  split_and!; [done..| | | |]; [|by rewrite Hzs..].
  by rewrite (standardize_Cali_AppCa df).
Qed.

Lemma C1_sample_standardization_witness :
  ∃ (m : R) (zs : Series),
    let n := INR (length (Stats.dropna Examples.col123)) in
    Stats.mean Examples.col123 = Some m ∧
    1%R = sqrt (Stats.sqdev m (Stats.dropna Examples.col123) / (n - 1)) ∧
    zs = (if bool_decide ("Median_Household_Income" ∈ AppCa.negatives)
          then Stats.neg_series (map (Stats.z_cell m 1) Examples.col123)
          else map (Stats.z_cell m 1) Examples.col123) ∧
    num (AppCa.standardize Examples.income_only)
      !! Score.Z_ "Median_Household_Income" = Some zs ∧
    num (Cali.standardize Examples.income_only)
      !! Score.Z_ "Median_Household_Income" = Some zs ∧
    Stats.mean zs = Some 0%R ∧
    Stats.std zs = Some 1%R ∧
    Stats.pop_std zs = Some (sqrt ((n - 1) / n)).
Proof.
  apply (C1_sample_standardization
           Examples.income_only "Median_Household_Income" Examples.col123 1).
  - repeat constructor.
  - reflexivity.
  - exact std_col123.
  - lra.
Defined.

(** C1, as stated, fails: on the column [1, 2, 3], whose variance is not
    zero, the [Z_] column the code computes is not the z-score for the
    population standard deviation, and its population standard deviation is
    [sqrt (2 / 3)], not [1]. *)
Lemma C1_population_counterexample :
  ∃ zs : Series,
    num (AppCa.standardize Examples.income_only)
      !! "Z_Median_Household_Income" = Some zs ∧
    (∃ σ, Stats.pop_std Examples.col123 = Some σ ∧ σ ≠ 0%R) ∧
    zs ≠ Stats.div_scalar
           (Stats.sub_scalar Examples.col123 (Stats.mean Examples.col123))
           (Stats.pop_std Examples.col123) ∧
    Stats.pop_std zs ≠ Some 1%R.
Proof.
  exists (Stats.zscore Examples.col123).
  destruct sqrt_two_thirds as [H1 H0].
  split_and!.
  - reflexivity.
  - exists (sqrt (2 / 3)). split; [apply pop_std_col123|done].
  - rewrite zscore_col123, mean_col123, pop_std_col123.
    unfold Examples.col123. simpl.
    destruct (Req_dec_T (sqrt (2 / 3)) 0); [done|].
    intros [= E _]. apply H1.
    assert ((1 - 2) / sqrt (2 / 3) * sqrt (2 / 3) = 1 - 2)%R as H
      by (by field).
    rewrite <- E in H. lra.
  - rewrite pop_std_zscore_col123. intros [= E]. done.
Qed.

(** ** Strings *)

Section string_facts.

Import Str.

Lemma to_of_list l : to_list (of_list l) = l.
Proof. apply list_ascii_of_string_of_list_ascii. Qed.

Lemma of_to_list s : of_list (to_list s) = s.
Proof. apply string_of_list_ascii_of_string. Qed.

Lemma to_list_app s1 s2 : to_list (s1 +:+ s2) = to_list s1 ++ to_list s2.
Proof. induction s1 as [|c s1 IH]; simpl; [done|]. by rewrite <- IH. Qed.

Lemma length_to_list s : length (to_list s) = String.length s.
Proof. induction s as [|c s IH]; simpl; [done|]. by rewrite IH. Qed.

Lemma to_list_inj s1 s2 : to_list s1 = to_list s2 → s1 = s2.
Proof. intros E. by rewrite <- (of_to_list s1), E, of_to_list. Qed.

Lemma startswith_nil s : startswith s "" = true.
Proof. by destruct s. Qed.

Lemma zfill_unsigned width s :
  signed s = false → zfill width s = zeros (width - String.length s) +:+ s.
Proof.
  unfold zfill. destruct s as [|c s]; simpl.
  - intros _. apply to_list_inj. by rewrite to_list_app, app_nil_r.
  - by intros ->.
Qed.

Lemma length_zfill_unsigned s :
  signed s = false → String.length s ≤ 5 → String.length (zfill 5 s) = 5.
Proof.
  intros Hs Hlen. rewrite zfill_unsigned by done.
  rewrite <- !length_to_list, to_list_app, length_app.
  unfold zeros. rewrite to_of_list, length_replicate, length_to_list. lia.
Qed.

Lemma suffix_from_5 p :
  String.length p = 5 → suffix_from 3 p = of_list (drop 2 (to_list p)).
Proof. unfold suffix_from. by intros ->. Qed.

Lemma suffix_from_repair p :
  String.length p = 5 →
  suffix_from 3 (Fips.repair p) = suffix_from 3 p ∧
  startswith (Fips.repair p) "06" = true ∧
  String.length (Fips.repair p) = 5.
Proof.
  intros Hlen. unfold Fips.repair.
  destruct (startswith p "06") eqn:E; [done|].
  rewrite (suffix_from_5 p Hlen).
  rewrite <- length_to_list in Hlen.
  destruct (to_list p) as [|c1 [|c2 [|c3 [|c4 [|c5 [|c6 l]]]]]];
    simpl in Hlen; try lia.
  done.
Qed.

End string_facts.

(** ** Weights *)

Section weight_facts.

Import Weights.
Local Open Scope R_scope.

Implicit Types (w : list R) (t : R).

Lemma foldl_Rplus a w : foldl Rplus a w = a + Stats.Rsum w.
Proof.
  revert a. induction w as [|x w IH]; intros a; simpl.
  - unfold Stats.Rsum. simpl. lra.
  - rewrite IH. unfold Stats.Rsum. simpl. lra.
Qed.

Lemma py_sum_Rsum w : py_sum w = Stats.Rsum w.
Proof. unfold py_sum. rewrite foldl_Rplus. lra. Qed.

Lemma py_sum_cons x w : py_sum (x :: w) = x + py_sum w.
Proof. rewrite !py_sum_Rsum. reflexivity. Qed.

Lemma traverse_py_div_Ok w t :
  t ≠ 0 → traverse (λ wi, py_div wi t) w = Ok (map (λ wi, wi / t) w).
Proof.
  intros Ht. induction w as [|x w IH]; simpl; [done|].
  rewrite IH. unfold py_div. by destruct (Req_dec_T t 0).
Qed.

Lemma traverse_py_div_zero x w :
  traverse (λ wi, py_div wi 0) (x :: w) = Raise ZeroDivisionError.
Proof. simpl. unfold py_div. by destruct (Req_dec_T 0 0). Qed.

(** The whole of the normalisation and unpacking, case by case. *)
Lemma resolve_cases w :
  resolve w =
    match w with
    | [] => Raise ValueError
    | _ :: _ =>
      if Req_dec_T (py_sum w) 0 then Raise ZeroDivisionError
      else unpack (map (λ wi, wi / py_sum w) w)
    end.
Proof.
  unfold resolve, normalize. destruct w as [|x w]; [done|].
  destruct (Req_dec_T (py_sum (x :: w)) 0) as [E|E].
  - rewrite E. by rewrite traverse_py_div_zero.
  - by rewrite traverse_py_div_Ok.
Qed.

Lemma unpack_Ok w :
  length w = 9%nat → ∃ ws, unpack w = Ok ws ∧ to_list ws = w.
Proof.
  intros Hlen.
  destruct w as [|a [|b [|c [|d [|e [|f [|g [|h [|i [|j w]]]]]]]]]];
    simpl in Hlen; try lia.
  eexists. split; reflexivity.
Qed.

Lemma unpack_length w ws : unpack w = Ok ws → length w = 9%nat.
Proof.
  destruct w as [|a [|b [|c [|d [|e [|f [|g [|h [|i [|j w]]]]]]]]]];
    simpl; done.
Qed.

Lemma resolve_Ok w :
  length w = 9%nat → py_sum w ≠ 0 →
  ∃ ws, resolve w = Ok ws ∧ to_list ws = map (λ wi, wi / py_sum w) w.
Proof.
  intros Hlen Hsum. rewrite resolve_cases.
  destruct w as [|x w]; [done|].
  destruct (Req_dec_T (py_sum (x :: w)) 0); [done|].
  apply unpack_Ok. by rewrite length_map.
Qed.

Lemma Rsum_map_div w t :
  Stats.Rsum (map (λ wi, wi / t) w) = Stats.Rsum w / t.
Proof.
  unfold Stats.Rsum. induction w as [|x w IH]; simpl; [|rewrite IH];
    unfold Rdiv; lra.
Qed.

Lemma py_sum_normalized w :
  py_sum w ≠ 0 → py_sum (map (λ wi, wi / py_sum w) w) = 1.
Proof.
  intros Hsum. rewrite (py_sum_Rsum (map _ w)), Rsum_map_div.
  rewrite <- py_sum_Rsum. by field.
Qed.

(** The five fixed presets add up to one before any division. *)
Lemma preset_sum p slider : p ≠ Custom → py_sum (choose p slider) = 1.
Proof.
  destruct p; try done; intros _; unfold py_sum; simpl; lra.
Qed.

Lemma choose_length p slider : length (choose p slider) = 9%nat.
Proof. by destruct p. Qed.

End weight_facts.

(** ** C5: the normalised weights add up to one *)

(** C5.  For each of the five presets, and for custom slider positions whose
    sum is positive, the normalisation succeeds and the nine weights it
    yields add up to 1 (in real arithmetic exactly, hence within 1e-9). *)
Theorem C5_normalized_weights_sum_to_one (p : preset) (slider : string → R) :
  (p = Custom → (0 < Weights.py_sum (map slider Weights.labels))%R) →
  ∃ w : weights,
    Weights.resolve (Weights.choose p slider) = Ok w ∧
    Weights.to_list w
      = map (λ wi, wi / Weights.py_sum (Weights.choose p slider))%R
            (Weights.choose p slider) ∧
    Weights.py_sum (Weights.to_list w) = 1%R ∧
    (Rabs (Weights.py_sum (Weights.to_list w) - 1) <= 1 / 10 ^ 9)%R.
Proof.
  intros Hcustom.
  assert (Weights.py_sum (Weights.choose p slider) ≠ 0%R) as Hsum.
  { destruct (decide (p = Custom)) as [->|Hp].
    - specialize (Hcustom eq_refl).
      change (Weights.choose Custom slider) with (map slider Weights.labels).
      lra.
    - rewrite preset_sum by done. lra. }
  destruct (resolve_Ok _ (choose_length p slider) Hsum) as (w & Hw & Hl).
  exists w. split_and!; [done..| |].
  - rewrite Hl. by apply py_sum_normalized.
  - rewrite Hl, py_sum_normalized by done.
    replace (1 - 1)%R with 0%R by lra. rewrite Rabs_R0.
    apply Rlt_le, Rdiv_lt_0_compat; [lra|]. apply pow_lt. lra.
Qed.

Lemma C5_normalized_weights_sum_to_one_witness :
  ∃ w : weights,
    Weights.resolve (Weights.choose Custom (λ _, 1 / 2)%R) = Ok w ∧
    Weights.to_list w
      = map (λ wi, wi / Weights.py_sum (Weights.choose Custom (λ _, 1 / 2)))%R
            (Weights.choose Custom (λ _, 1 / 2)%R) ∧
    Weights.py_sum (Weights.to_list w) = 1%R ∧
    (Rabs (Weights.py_sum (Weights.to_list w) - 1) <= 1 / 10 ^ 9)%R.
Proof.
  apply (C5_normalized_weights_sum_to_one Custom (λ _, 1 / 2)%R).
  intros _. unfold Weights.py_sum. simpl. lra.
Defined.

(** ** The scripts, step by step *)

Section run_facts.

Import Score.

Lemma set_obj_set_obj k c c' df :
  set_obj k c (set_obj k c' df) = set_obj k c df.
Proof. unfold set_obj. simpl. by rewrite insert_insert_eq. Qed.

Lemma z_step_set_obj negs k c df col :
  z_step negs (set_obj k c df) col = set_obj k c (z_step negs df col).
Proof. unfold z_step. simpl. by destruct (num df !! col). Qed.

Lemma z_loop_set_obj cols negs k c df :
  z_loop cols negs (set_obj k c df) = set_obj k c (z_loop cols negs df).
Proof.
  unfold z_loop. revert df. induction cols as [|col cols IH]; intros df.
  - done.
  - simpl. by rewrite z_step_set_obj, IH.
Qed.

Lemma add_terms_num df df' acc ts :
  num df = num df' → add_terms df acc ts = add_terms df' acc ts.
Proof.
  intros E. revert acc. induction ts as [|[k wk] ts IH]; intros acc; simpl.
  - done.
  - unfold get_num. rewrite E. destruct (num df' !! k); simpl; [|done].
    apply IH.
Qed.

Lemma weighted_sum_num df df' ts :
  num df = num df' → weighted_sum df ts = weighted_sum df' ts.
Proof.
  intros E. destruct ts as [|[k wk] ts]; simpl; [done|].
  unfold get_num. rewrite E. destruct (num df' !! k); simpl; [|done].
  by apply add_terms_num.
Qed.

Lemma AppCa_ensure_fips counties df :
  AppCa.ensure_fips counties df =
    c ← AppCa.raw_ids counties df;
    Ok (set_obj "fips" (Fips.apply_repair (Fips.astype_str_zfill c)) df).
Proof.
  unfold AppCa.ensure_fips, AppCa.raw_ids.
  destruct (obj df !! "GEOID") as [c|]; simpl.
  { unfold get_obj. simpl. rewrite lookup_insert_eq. simpl.
    by rewrite set_obj_set_obj. }
  destruct (obj df !! "fips") as [c|]; simpl.
  { unfold get_obj. simpl. rewrite lookup_insert_eq. simpl.
    by rewrite set_obj_set_obj. }
  destruct (get_obj df "County") as [names|e]; simpl; [|done].
  destruct (traverse _ names) as [c|e]; simpl; [|done].
  unfold get_obj. simpl. rewrite lookup_insert_eq. simpl.
  by rewrite set_obj_set_obj.
Qed.

Lemma Cali_ensure_fips counties df :
  Cali.ensure_fips counties df =
    c ← Cali.raw_ids counties df;
    Ok (set_obj "fips" (Fips.apply_repair (Fips.astype_str_zfill c)) df).
Proof.
  unfold Cali.ensure_fips, Cali.raw_ids.
  destruct (obj df !! "fips") as [c|] eqn:E; simpl.
  { unfold get_obj. rewrite E. simpl. rewrite lookup_insert_eq. simpl.
    by rewrite set_obj_set_obj. }
  destruct (get_obj df "County") as [names|e]; simpl; [|done].
  destruct (traverse _ names) as [c|e]; simpl; [|done].
  unfold get_obj. simpl. rewrite !lookup_insert_eq. simpl.
  rewrite lookup_insert_eq. simpl. by rewrite !set_obj_set_obj.
Qed.

(** [app_ca.py], with the table threaded through. *)
Lemma get_obj_set_obj k c df : get_obj (set_obj k c df) k = Ok c.
Proof. unfold get_obj, set_obj. cbn [obj]. by rewrite lookup_insert_eq. Qed.

Lemma standardize_set_obj k c df :
  AppCa.standardize (set_obj k c df) = set_obj k c (AppCa.standardize df).
Proof. apply z_loop_set_obj. Qed.

Lemma weighted_sum_set_obj k c df ts :
  weighted_sum (set_obj k c df) ts = weighted_sum df ts.
Proof. by apply weighted_sum_num. Qed.

Lemma get_obj_set_num k k' c df :
  get_obj (set_num k' c df) k = get_obj df k.
Proof. reflexivity. Qed.

(** [app_ca.py], with the table threaded through. *)
Lemma AppCa_run features p slider df :
  AppCa.run features p slider df =
    c ← AppCa.raw_ids (Fips.california features) df;
    w ← Weights.resolve (Weights.choose p slider);
    u ← weighted_sum (AppCa.standardize df) (terms w);
    let ids := Fips.apply_repair (Fips.astype_str_zfill c) in
    Ok (select_rows (AppCa.alpine_mask ids)
          (set_num "UOI_custom" u
             (set_obj "fips" ids (AppCa.standardize df)))).
Proof.
  unfold AppCa.run. rewrite AppCa_ensure_fips.
  destruct (AppCa.raw_ids _ df) as [c|e]; [|done].
  rewrite !bind_Ok_l.
  destruct (Weights.resolve _) as [w|e]; [|done].
  rewrite !bind_Ok_l.
  unfold uoi_custom.
  rewrite standardize_set_obj, weighted_sum_set_obj.
  destruct (weighted_sum _ _) as [u|e]; [|done].
  rewrite !bind_Ok_l.
  unfold AppCa.exclude_alpine.
  by rewrite get_obj_set_num, get_obj_set_obj, bind_Ok_l.
Qed.

(** [src/cali.py], with the table threaded through. *)
Lemma Cali_run features p slider df :
  Cali.run features p slider df =
    c ← Cali.raw_ids (Fips.california features) df;
    w ← Weights.resolve (Weights.choose p slider);
    u ← weighted_sum (AppCa.standardize df) (terms w);
    let ids := Fips.apply_repair (Fips.astype_str_zfill c) in
    Ok (set_num "UOI_custom" u
          (set_obj "fips" ids (AppCa.standardize df))).
Proof.
  unfold Cali.run. rewrite Cali_ensure_fips.
  destruct (Cali.raw_ids _ df) as [c|e]; [|done].
  rewrite !bind_Ok_l.
  destruct (Weights.resolve _) as [w|e]; [|done].
  rewrite !bind_Ok_l.
  unfold uoi_custom.
  pose proof (standardize_Cali_AppCa
                (set_obj "fips"
                   (Fips.apply_repair (Fips.astype_str_zfill c)) df)) as ->.
  rewrite standardize_set_obj, weighted_sum_set_obj.
  by destruct (weighted_sum _ _) as [u|e].
Qed.

End run_facts.

(** ** The weighted sum, row by row *)

Section row_facts.

Import Score.
Local Open Scope R_scope.

Lemma lookup_mul_scalar (z : Series) c i :
  Stats.mul_scalar z c !! i = (λ x, Float.mul x c) <$> z !! i.
Proof. unfold Stats.mul_scalar. apply list_lookup_fmap. Qed.

Lemma lookup_add_series (a b : Series) i :
  Stats.add_series a b !! i = x ← a !! i; y ← b !! i; Some (Float.add x y).
Proof. unfold Stats.add_series. apply lookup_zip_with. Qed.

Lemma add_terms_row df acc ts u i :
  add_terms df acc ts = Ok u →
  u !! i = a ← acc !! i; zw ← row_terms df i ts; Some (add_products a zw).
Proof.
  revert acc. induction ts as [|[k wk] ts IH]; intros acc; simpl.
  - intros [= <-]. by destruct (acc !! i).
  - intros (z & Hz%get_num_Ok & Hu)%bind_Ok.
    rewrite (IH _ Hu), lookup_add_series, lookup_mul_scalar.
    unfold row_terms, cell_at. simpl. rewrite Hz. simpl.
    destruct (acc !! i) as [a|]; simpl; [|done].
    destruct (z !! i) as [x|]; simpl; [|done].
    by destruct (mapM _ ts).
Qed.

(** Row [i] of the weighted sum is made of row [i] of its columns: it is
    there when they all have a row [i], and it is their [row_total]. *)
Lemma weighted_sum_row df ts u i :
  weighted_sum df ts = Ok u →
  u !! i = row_terms df i ts ≫= row_total.
Proof.
  destruct ts as [|[k wk] ts]; simpl.
  - by intros [= <-].
  - intros (z & Hz%get_num_Ok & Hu)%bind_Ok.
    rewrite (add_terms_row _ _ _ _ i Hu), lookup_mul_scalar.
    unfold row_terms, cell_at. simpl. rewrite Hz. simpl.
    destruct (z !! i) as [x|]; simpl; [|done].
    by destruct (mapM _ ts).
Qed.

Lemma add_NaN_l a : Float.add NaN a = NaN.
Proof. done. Qed.

Lemma add_NaN_r a : Float.add a NaN = NaN.
Proof. by destruct a. Qed.

Lemma add_products_NaN zw : add_products NaN zw = NaN.
Proof. induction zw as [|[z wk] zw IH]; simpl; [done|]. apply IH. Qed.

(** NaN is absorbing: one NaN among the cells makes the total NaN. *)
Lemma add_products_has_NaN a zw wk :
  (NaN, wk) ∈ zw → add_products a zw = NaN.
Proof.
  revert a. induction zw as [|[z wk'] zw IH]; intros a Hin.
  - by apply elem_of_nil in Hin.
  - apply elem_of_cons in Hin as [[= <- <-]|Hin]; simpl.
    + rewrite add_NaN_r. apply add_products_NaN.
    + by apply IH.
Qed.

Lemma row_total_has_NaN zw wk :
  (NaN, wk) ∈ zw → row_total zw = Some NaN.
Proof.
  destruct zw as [|[z wk'] zw]; intros Hin.
  - by apply elem_of_nil in Hin.
  - apply elem_of_cons in Hin as [[= <- <-]|Hin]; simpl; f_equal.
    + apply add_products_NaN.
    + by eapply add_products_has_NaN.
Qed.

(** Cells that are all numbers add up to the plain weighted sum. *)
Lemma add_products_numbers a (vw : list (R * R)) :
  add_products (Some a) (map (λ '(v, wk), (Some v, wk)) vw)
  = Some (a + Stats.Rsum (map (λ '(v, wk), v * wk) vw)).
Proof.
  revert a. induction vw as [|[v wk] vw IH]; intros a; simpl.
  - f_equal. unfold Stats.Rsum. simpl. lra.
  - rewrite IH. f_equal. unfold Stats.Rsum. simpl. lra.
Qed.

Lemma row_total_numbers (vw : list (R * R)) :
  vw ≠ [] →
  row_total (map (λ '(v, wk), (Some v, wk)) vw)
  = Some (Some (Stats.Rsum (map (λ '(v, wk), v * wk) vw))).
Proof.
  destruct vw as [|[v wk] vw]; [done|]. intros _. simpl.
  by rewrite add_products_numbers.
Qed.

End row_facts.

(** ** Tables with the nine indicator columns *)

Section table_facts.

Import Score Examples.

Lemma nine_lookup (cols : string → Series) c :
  c ∈ AppCa.indicators →
  (list_to_map (map (λ k, (k, cols k)) AppCa.indicators)
     : gmap string Series) !! c = Some (cols c).
Proof.
  intros Hc.
  repeat (apply elem_of_cons in Hc as [->|Hc]; [reflexivity|]).
  by apply elem_of_nil in Hc.
Qed.

(** A table is complete when it has the nine indicator columns. *)
Lemma cell_at_standardize df i c s :
  c ∈ AppCa.indicators → num df !! c = Some s →
  cell_at (AppCa.standardize df) i (Z_ c)
  = z_column AppCa.negatives c s !! i.
Proof.
  intros Hc Hs. unfold cell_at.
  by rewrite (standardize_lookup df c Hc), Hs.
Qed.

Lemma with_fips_complete ids cols : AppCa.complete (with_fips ids cols) cols.
Proof. intros c Hc. by apply nine_lookup. Qed.

Lemma with_names_complete names cols :
  AppCa.complete (with_names names cols) cols.
Proof. intros c Hc. by apply nine_lookup. Qed.

Lemma terms_Z w :
  terms w = map (λ '(c, wk), (Z_ c, wk))
                (zip AppCa.indicators (Weights.to_list w)).
Proof. reflexivity. Qed.

Lemma row_terms_cells df i (cs : list (string * R)) (cell : string → option cell) :
  (∀ c wk, (c, wk) ∈ cs → cell_at df i (Z_ c) = cell c) →
  row_terms df i (map (λ '(c, wk), (Z_ c, wk)) cs)
  = mapM (λ '(c, wk), z ← cell c; Some (z, wk)) cs.
Proof.
  induction cs as [|[c wk] cs IH]; intros H; [done|].
  unfold row_terms in *. cbn [map mapM].
  rewrite (H c wk) by (by left).
  rewrite IH by (intros c' wk' ?; apply (H c' wk'); by right). done.
Qed.

(** Row [i] of the nine standardised columns of a complete table. *)
Lemma row_terms_complete df cols i w :
  AppCa.complete df cols →
  row_terms (AppCa.standardize df) i (terms w)
  = mapM (λ '(c, wk),
            z ← z_column AppCa.negatives c (cols c) !! i; Some (z, wk))
         (zip AppCa.indicators (Weights.to_list w)).
Proof.
  intros Hdf. rewrite terms_Z.
  apply (row_terms_cells _ i _
           (λ c, z_column AppCa.negatives c (cols c) !! i)).
  intros c wk Hin. apply cell_at_standardize.
  - by apply elem_of_zip_l in Hin.
  - apply Hdf. by apply elem_of_zip_l in Hin.
Qed.

Lemma add_terms_Ok df acc ts :
  Forall (λ kw, is_Some (num df !! kw.1)) ts →
  ∃ u, add_terms df acc ts = Ok u.
Proof.
  revert acc. induction ts as [|[k wk] ts IH]; intros acc Hts; simpl.
  - eauto.
  - apply Forall_cons_1 in Hts as [[z Hz] Hts]. simpl in Hz.
    unfold get_num. rewrite Hz. simpl. by apply IH.
Qed.

Lemma weighted_sum_Ok df ts :
  Forall (λ kw, is_Some (num df !! kw.1)) ts →
  ∃ u, weighted_sum df ts = Ok u.
Proof.
  destruct ts as [|[k wk] ts]; intros Hts; simpl; [eauto|].
  apply Forall_cons_1 in Hts as [[z Hz] Hts]. simpl in Hz.
  unfold get_num. rewrite Hz. simpl. by apply add_terms_Ok.
Qed.

(** On a complete table the weighted sum goes through. *)
Lemma weighted_sum_complete df cols w :
  AppCa.complete df cols →
  ∃ u, weighted_sum (AppCa.standardize df) (terms w) = Ok u.
Proof.
  intros Hdf. apply weighted_sum_Ok. rewrite terms_Z.
  apply Forall_forall. intros [k wk] Hin.
  apply list_elem_of_fmap in Hin as ([c wk'] & [= -> ->] & Hin).
  apply elem_of_zip_l in Hin. cbn [fst].
  rewrite (standardize_lookup df c Hin), (Hdf c Hin). eauto.
Qed.

Lemma length_z_column negs c s : length (z_column negs c s) = length s.
Proof.
  unfold z_column, Stats.zscore, Stats.neg_series, Stats.div_scalar,
    Stats.sub_scalar.
  destruct (bool_decide _); by rewrite !length_map.
Qed.

Lemma z_column_lookup negs c s i :
  i < length s → z_column negs c s !! i = Some (z_at negs c s i).
Proof.
  intros Hi. unfold z_at.
  destruct (lookup_lt_is_Some_2 (z_column negs c s) i) as [z ->]; [|done].
  by rewrite length_z_column.
Qed.

Lemma mapM_cells (cs : list (string * R))
    (cell : string → option cell) (z : string → option R) :
  (∀ c wk, (c, wk) ∈ cs → cell c = Some (z c)) →
  mapM (λ '(c, wk), zz ← cell c; Some (zz, wk)) cs
  = Some (map (λ '(c, wk), (z c, wk)) cs).
Proof.
  induction cs as [|[c wk] cs IH]; intros H; [done|].
  cbn [map mapM]. rewrite (H c wk) by (by left).
  rewrite IH by (intros c' wk' ?; apply (H c' wk'); by right). done.
Qed.

Lemma zip_weight w c :
  c ∈ AppCa.indicators →
  ∃ wk, (c, wk) ∈ zip AppCa.indicators (Weights.to_list w).
Proof.
  intros Hc.
  repeat (apply elem_of_cons in Hc as [->|Hc];
          [eexists; simpl; repeat constructor|]).
  by apply elem_of_nil in Hc.
Qed.

(** Row [i] of the composite of a complete table: the nine standardised
    cells of the row with their weights, and their [row_total]. *)
Lemma uoi_row df cols w i :
  AppCa.complete df cols →
  (∀ c, c ∈ AppCa.indicators → i < length (cols c)) →
  ∃ u,
    weighted_sum (AppCa.standardize df) (terms w) = Ok u ∧
    let zw := map (λ '(c, wk), (z_at AppCa.negatives c (cols c) i, wk))
                  (zip AppCa.indicators (Weights.to_list w)) in
    row_terms (AppCa.standardize df) i (terms w) = Some zw ∧
    u !! i = row_total zw.
Proof.
  intros Hdf Hlen.
  destruct (weighted_sum_complete df cols w Hdf) as [u Hu].
  exists u. split; [done|]. cbv zeta.
  assert (row_terms (AppCa.standardize df) i (terms w) = Some
    (map (λ '(c, wk), (z_at AppCa.negatives c (cols c) i, wk))
         (zip AppCa.indicators (Weights.to_list w)))) as Hrow.
  { rewrite (row_terms_complete df cols i w Hdf).
    apply (mapM_cells _ (λ c, z_column AppCa.negatives c (cols c) !! i)
             (λ c, z_at AppCa.negatives c (cols c) i)).
    intros c wk Hin. apply z_column_lookup, Hlen.
    by apply elem_of_zip_l in Hin. }
  split; [done|].
  by rewrite (weighted_sum_row _ _ _ i Hu), Hrow.
Qed.

(** A column without a usable standard deviation standardises to NaN in
    every row. *)
Lemma z_at_undefined negs c s i :
  Stats.std s = NaN ∨ Stats.std s = Some 0%R →
  i < length s → z_at negs c s i = NaN.
Proof.
  intros Hs Hi. unfold z_at, z_column.
  rewrite (zscore_undefined s Hs).
  destruct (lookup_lt_is_Some_2 s i Hi) as [x Hx].
  destruct (bool_decide _); unfold Stats.neg_series;
    rewrite ?map_map; change map with (@fmap list _) ;
    by rewrite list_lookup_fmap, Hx.
Qed.

End table_facts.

(** ** C2: a missing standardised value *)

Section constant_gini_facts.

Import Stats Examples.
Local Open Scope R_scope.

Lemma std_col111 : std col111 = Some 0.
Proof.
  unfold std, col111, sqdev, Rsum. simpl. f_equal.
  apply sqrt_lem_1; lra.
Qed.

Lemma constant_gini_rows c i :
  (i < 3)%nat → (i < length (constant_gini_cols c))%nat.
Proof. intros Hi. unfold constant_gini_cols. by destruct (bool_decide _). Qed.

Lemma resolve_Even slider :
  ∃ w, Weights.resolve (Weights.choose Even slider) = Ok w.
Proof.
  destruct (resolve_Ok (Weights.choose Even slider)) as (w & Hw & _).
  - done.
  - rewrite preset_sum by done. lra.
  - eauto.
Qed.

End constant_gini_facts.

Lemma z_at_missing negs c s i :
  s !! i = Some NaN → Score.z_at negs c s i = NaN.
Proof.
  intros Hx.
  unfold Score.z_at, Score.z_column, Stats.zscore, Stats.neg_series,
    Stats.div_scalar, Stats.sub_scalar.
  destruct (bool_decide _); rewrite ?map_map;
    change map with (@fmap list _); by rewrite list_lookup_fmap, Hx.
Qed.

Lemma two_records_only_rows c :
  length (Examples.two_records_only c) = 2.
Proof.
  unfold Examples.two_records_only. by repeat destruct (bool_decide _).
Qed.

(** C2, as amended.  On a table with the nine indicator columns the
    composite of row [i] is the left-to-right sum of the nine products
    [z * w] of the row, computed on float64 cells.  A missing raw value
    standardises to NaN, and so does every value of a column with fewer than
    two values; and a NaN among the nine standardised cells of a row makes
    the composite of that row NaN: it is not the sum over the remaining
    indicators.  When the nine cells are numbers the composite is the sum of
    the nine [z * w]. *)
Theorem C2_missing_value_makes_composite_NaN
    (df : DataFrame) (cols : string → Series) (w : weights) (i : nat) :
  AppCa.complete df cols →
  (∀ c, c ∈ AppCa.indicators → i < length (cols c)) →
  ∃ (u : Series) (zw : list (cell * R)),
    Score.weighted_sum (AppCa.standardize df) (Score.terms w) = Ok u ∧
    Score.weighted_sum (Cali.standardize df) (Score.terms w) = Ok u ∧
    Score.row_terms (AppCa.standardize df) i (Score.terms w) = Some zw ∧
    u !! i = Score.row_total zw ∧
    (∀ c, c ∈ AppCa.indicators →
       cols c !! i = Some NaN ∨ Stats.std (cols c) = NaN →
       Score.cell_at (AppCa.standardize df) i (Score.Z_ c) = Some NaN ∧
       ∃ wk, (NaN, wk) ∈ zw) ∧
    (∀ wk, (NaN, wk) ∈ zw → u !! i = Some NaN) ∧
    (∀ vw : list (R * R),
       zw = map (λ '(v, wk), (Some v, wk)) vw →
       u !! i = Some (Some (Stats.Rsum (map (λ '(v, wk), v * wk)%R vw)))).
Proof.
  intros Hdf Hlen.
  destruct (uoi_row df cols w i Hdf Hlen) as (u & Hu & Hrow & Hi).
  cbv zeta in Hrow, Hi.
  eexists u, _. split_and!; [done| |exact Hrow|exact Hi| | |].
  - by rewrite (standardize_Cali_AppCa df).
  - intros c Hc Hmiss.
    assert (Score.z_at AppCa.negatives c (cols c) i = NaN) as Hz.
    { destruct Hmiss as [Hx|Hstd]; [by apply z_at_missing|].
      apply z_at_undefined; auto. }
    split.
    + rewrite (cell_at_standardize df i c (cols c) Hc (Hdf c Hc)).
      rewrite z_column_lookup by auto. by rewrite Hz.
    + destruct (zip_weight w c Hc) as [wk Hwk]. exists wk.
      apply list_elem_of_fmap. exists (c, wk). split; [|done].
      by rewrite Hz.
  - intros wk Hin. rewrite Hi. by eapply row_total_has_NaN.
  - intros vw Hvw. rewrite Hi, Hvw. apply row_total_numbers.
    intros ->. by rewrite terms_Z in Hrow.
Qed.

Lemma C2_missing_value_makes_composite_NaN_witness :
  ∃ (u : Series) (zw : list (cell * R)),
    Score.weighted_sum
      (AppCa.standardize
         (Examples.with_fips Examples.AB Examples.two_records_only))
      (Score.terms Examples.ninths) = Ok u ∧
    Score.row_terms
      (AppCa.standardize
         (Examples.with_fips Examples.AB Examples.two_records_only))
      0 (Score.terms Examples.ninths) = Some zw ∧
    u !! 0 = Score.row_total zw ∧
    Score.cell_at
      (AppCa.standardize
         (Examples.with_fips Examples.AB Examples.two_records_only))
      0 (Score.Z_ "Gini_Index") = Some NaN ∧
    u !! 0 = Some NaN.
Proof.
  destruct (C2_missing_value_makes_composite_NaN
              (Examples.with_fips Examples.AB Examples.two_records_only)
              Examples.two_records_only Examples.ninths 0)
    as (u & zw & Hu & _ & Hrow & Hi & Hmiss & HNaN & _).
  - apply with_fips_complete.
  - intros c _. rewrite two_records_only_rows. lia.
  - destruct (Hmiss "Gini_Index") as [Hcell [wk Hwk]].
    + repeat constructor.
    + by left.
    + exists u, zw. split_and!; [done..|]. by apply (HNaN wk).
Defined.

Section run_examples.

Import Score Examples.

Lemma AppCa_raw_ids_with_fips counties ids cols :
  AppCa.raw_ids counties (with_fips ids cols) = Ok ids.
Proof. reflexivity. Qed.

Lemma Cali_raw_ids_with_fips counties ids cols :
  Cali.raw_ids counties (with_fips ids cols) = Ok ids.
Proof. reflexivity. Qed.

Lemma num_set_num_eq k u df : num (set_num k u df) !! k = Some u.
Proof. unfold set_num. cbn [num]. apply lookup_insert_eq. Qed.

Lemma num_set_num_ne k k' u df :
  k ≠ k' → num (set_num k u df) !! k' = num df !! k'.
Proof. intros H. unfold set_num. cbn [num]. by apply lookup_insert_ne. Qed.

End run_examples.

(** C2, as stated, fails: in a table of three counties whose Gini index is
    the same everywhere, [Z_Gini_Index] is NaN and so is the composite of
    the first county, where the claim has the weighted sum of the other
    eight standardised values. *)
Lemma C2_constant_indicator_counterexample :
  ∃ (out : DataFrame) (w : weights) (u : Series) (zw : list (cell * R)),
    Cali.run [] Even (λ _, 0%R) Examples.constant_gini = Ok out ∧
    Weights.resolve (Weights.choose Even (λ _, 0%R)) = Ok w ∧
    num out !! "UOI_custom" = Some u ∧
    Score.row_terms (AppCa.standardize Examples.constant_gini) 0
      (Score.terms w) = Some zw ∧
    u !! 0 = Some NaN ∧
    u !! 0 ≠ Some (Score.spec_composite zw).
Proof.
  destruct (resolve_Even (λ _, 0%R)) as [w Hw].
  destruct (uoi_row Examples.constant_gini Examples.constant_gini_cols w 0)
    as (u & Hu & Hrow & Hi).
  { apply with_fips_complete. }
  { intros c _. apply constant_gini_rows. lia. }
  cbv zeta in Hrow, Hi.
  assert (u !! 0 = Some NaN) as HNaN.
  { rewrite Hi.
    destruct (zip_weight w "Gini_Index") as [wk Hwk]; [repeat constructor|].
    apply (row_total_has_NaN _ wk).
    apply list_elem_of_fmap. exists ("Gini_Index"%string, wk).
    split; [|done]. f_equal. symmetry. apply z_at_undefined.
    - right. exact std_col111.
    - apply constant_gini_rows. lia. }
  eexists _, w, u, _. split_and!.
  - rewrite Cali_run.
    rewrite (Cali_raw_ids_with_fips _ _ Examples.constant_gini_cols
             : Cali.raw_ids _ Examples.constant_gini = _).
    rewrite bind_Ok_l, Hw, bind_Ok_l, Hu, bind_Ok_l. reflexivity.
  - done.
  - apply num_set_num_eq.
  - exact Hrow.
  - done.
  - rewrite HNaN. unfold Score.spec_composite. intros [= E].
Qed.

(** ** C3: which weights are rejected *)

Section rejection_facts.

Import Weights.
Local Open Scope R_scope.

Lemma choose_nonneg p slider :
  (∀ l, 0 <= slider l <= 1) → Forall (λ wi, 0 <= wi) (choose p slider).
Proof.
  intros Hs. destruct p; cbn [choose replicate];
    try (repeat constructor; lra).
  apply Forall_forall. intros x (l & -> & _)%list_elem_of_fmap.
  apply Hs.
Qed.

Lemma py_sum_nonneg w : Forall (λ wi, 0 <= wi) w → 0 <= py_sum w.
Proof.
  induction 1 as [|x w Hx _ IH]; [unfold py_sum; simpl; lra|].
  rewrite py_sum_cons. lra.
Qed.




End rejection_facts.



(** ** What a run returns *)

Section select_facts.

Context {A : Type}.
Implicit Types (l : list A) (mask : list bool).

Lemma select_map_elem (f : A → bool) l x :
  x ∈ select (map f l) l → f x = true.
Proof.
  induction l as [|y l IH]; cbn [map select].
  - by intros ?%elem_of_nil.
  - destruct (f y) eqn:E; [|done].
    intros [->|?]%elem_of_cons; [done|by apply IH].
Qed.

Lemma select_elem mask l i x :
  mask !! i = Some true → l !! i = Some x → x ∈ select mask l.
Proof.
  revert l i. induction mask as [|b mask IH]; intros l i; [done|].
  destruct l as [|y l]; [done|]. destruct i as [|i]; cbn [select].
  - intros [= ->] [= ->]. by left.
  - intros Hm Hl. cbn in Hm, Hl.
    destruct b; [right|]; by eapply IH.
Qed.

Lemma select_all mask l :
  Forall (λ b, b = true) mask → length l ≤ length mask →
  select mask l = l.
Proof.
  intros Hm. revert l. induction Hm as [|b mask -> _ IH]; intros l Hlen.
  - destruct l; [done|]. simpl in Hlen. lia.
  - destruct l as [|y l]; [done|]. cbn [select]. f_equal.
    apply IH. simpl in Hlen. lia.
Qed.

Lemma length_select mask l : length (select mask l) ≤ length l.
Proof.
  revert l. induction mask as [|b mask IH]; intros l; [simpl; lia|].
  destruct l as [|y l]; [done|]. cbn [select].
  specialize (IH l). destruct b; simpl; lia.
Qed.

End select_facts.

Lemma obj_select_rows mask df k :
  obj (select_rows mask df) !! k = select mask <$> obj df !! k.
Proof. unfold select_rows. cbn [obj]. apply lookup_fmap. Qed.

Lemma num_select_rows mask df k :
  num (select_rows mask df) !! k = select mask <$> num df !! k.
Proof. unfold select_rows. cbn [num]. apply lookup_fmap. Qed.

Lemma alpine_mask_false ids i :
  ids !! i = Some (PyStr "06003") → AppCa.alpine_mask ids !! i = Some false.
Proof.
  intros Hi. unfold AppCa.alpine_mask.
  change map with (@fmap list _). rewrite list_lookup_fmap, Hi.
  reflexivity.
Qed.

Lemma alpine_not_selected ids :
  PyStr "06003" ∉ select (AppCa.alpine_mask ids) ids.
Proof.
  intros Hin. by apply select_map_elem in Hin.
Qed.

(** What [app_ca.py] returns, when it returns: the scored table of all the
    rows, then the rows that are not Alpine County. *)
Lemma AppCa_run_inv features p slider df out :
  AppCa.run features p slider df = Ok out →
  ∃ c w u,
    AppCa.raw_ids (Fips.california features) df = Ok c ∧
    Weights.resolve (Weights.choose p slider) = Ok w ∧
    Score.weighted_sum (AppCa.standardize df) (Score.terms w) = Ok u ∧
    let ids := Fips.apply_repair (Fips.astype_str_zfill c) in
    out = select_rows (AppCa.alpine_mask ids)
            (set_num "UOI_custom" u
               (set_obj "fips" ids (AppCa.standardize df))).
Proof.
  rewrite AppCa_run.
  intros (c & Hc & (w & Hw & (u & Hu & [= <-])%bind_Ok)%bind_Ok)%bind_Ok.
  by exists c, w, u.
Qed.

Lemma Cali_run_inv features p slider df out :
  Cali.run features p slider df = Ok out →
  ∃ c w u,
    Cali.raw_ids (Fips.california features) df = Ok c ∧
    Weights.resolve (Weights.choose p slider) = Ok w ∧
    Score.weighted_sum (AppCa.standardize df) (Score.terms w) = Ok u ∧
    let ids := Fips.apply_repair (Fips.astype_str_zfill c) in
    out = set_num "UOI_custom" u
            (set_obj "fips" ids (AppCa.standardize df)).
Proof.
  rewrite Cali_run.
  intros (c & Hc & (w & Hw & (u & Hu & [= <-])%bind_Ok)%bind_Ok)%bind_Ok.
  by exists c, w, u.
Qed.

(** On a table with a [fips] column and the nine indicators both scripts go
    through, whatever the accepted weights. *)
Lemma run_with_fips features p slider ids cols w :
  Weights.resolve (Weights.choose p slider) = Ok w →
  ∃ u,
    Score.weighted_sum (AppCa.standardize (Examples.with_fips ids cols))
      (Score.terms w) = Ok u ∧
    let ids' := Fips.apply_repair (Fips.astype_str_zfill ids) in
    let scored :=
      set_num "UOI_custom" u
        (set_obj "fips" ids'
           (AppCa.standardize (Examples.with_fips ids cols))) in
    AppCa.run features p slider (Examples.with_fips ids cols)
      = Ok (select_rows (AppCa.alpine_mask ids') scored) ∧
    Cali.run features p slider (Examples.with_fips ids cols) = Ok scored.
Proof.
  intros Hw.
  destruct (weighted_sum_complete (Examples.with_fips ids cols) cols w)
    as [u Hu]; [apply with_fips_complete|].
  exists u. split; [done|]. cbv zeta. split.
  - rewrite AppCa_run, AppCa_raw_ids_with_fips, bind_Ok_l, Hw, bind_Ok_l.
    by rewrite Hu, bind_Ok_l.
  - rewrite Cali_run, Cali_raw_ids_with_fips, bind_Ok_l, Hw, bind_Ok_l.
    by rewrite Hu, bind_Ok_l.
Qed.

(** ** C9: standardisation does not look at the weights *)

(** C9.  Two runs of a script on the same table (and the same boundary
    features) with any two accepted weight settings return tables with the
    same name and identifier columns and the same [float64] columns, the
    [Z_] columns among them, except for [UOI_custom] itself.  This holds for
    [app_ca.py] and for [src/cali.py]. *)
Theorem C9_standardization_ignores_weights
    (features : list feature) (df : DataFrame)
    (p1 p2 : preset) (slider1 slider2 : string → R) :
  (∀ a1 a2 : DataFrame,
     AppCa.run features p1 slider1 df = Ok a1 →
     AppCa.run features p2 slider2 df = Ok a2 →
     obj a1 = obj a2 ∧
     (∀ k, k ≠ "UOI_custom" → num a1 !! k = num a2 !! k) ∧
     (∀ col, num a1 !! Score.Z_ col = num a2 !! Score.Z_ col)) ∧
  (∀ c1 c2 : DataFrame,
     Cali.run features p1 slider1 df = Ok c1 →
     Cali.run features p2 slider2 df = Ok c2 →
     obj c1 = obj c2 ∧
     (∀ k, k ≠ "UOI_custom" → num c1 !! k = num c2 !! k) ∧
     (∀ col, num c1 !! Score.Z_ col = num c2 !! Score.Z_ col)).
Proof.
  assert (∀ col, "UOI_custom" ≠ Score.Z_ col) as HZ by done.
  split.
  - intros a1 a2.
    intros (c & w1 & u1 & Hc & _ & _ & ->)%AppCa_run_inv.
    intros (c' & w2 & u2 & Hc' & _ & _ & ->)%AppCa_run_inv.
    rewrite Hc in Hc'. injection Hc' as <-.
    cbv zeta. split; [reflexivity|].
    assert (∀ k, k ≠ "UOI_custom" →
        num (select_rows (AppCa.alpine_mask
               (Fips.apply_repair (Fips.astype_str_zfill c)))
               (set_num "UOI_custom" u1
                  (set_obj "fips"
                     (Fips.apply_repair (Fips.astype_str_zfill c))
                     (AppCa.standardize df)))) !! k
      = num (select_rows (AppCa.alpine_mask
               (Fips.apply_repair (Fips.astype_str_zfill c)))
               (set_num "UOI_custom" u2
                  (set_obj "fips"
                     (Fips.apply_repair (Fips.astype_str_zfill c))
                     (AppCa.standardize df)))) !! k) as H.
    { intros k Hk. rewrite !num_select_rows.
      by rewrite !num_set_num_ne by done. }
    split; [done|]. intros col. apply H. by intros ?.
  - intros c1 c2.
    intros (d & v1 & t1 & Hd & _ & _ & ->)%Cali_run_inv.
    intros (d' & v2 & t2 & Hd' & _ & _ & ->)%Cali_run_inv.
    rewrite Hd in Hd'. injection Hd' as <-.
    cbv zeta. split; [reflexivity|].
    assert (∀ k, k ≠ "UOI_custom" →
        num (set_num "UOI_custom" t1
               (set_obj "fips"
                  (Fips.apply_repair (Fips.astype_str_zfill d))
                  (AppCa.standardize df))) !! k
      = num (set_num "UOI_custom" t2
               (set_obj "fips"
                  (Fips.apply_repair (Fips.astype_str_zfill d))
                  (AppCa.standardize df))) !! k) as H.
    { intros k Hk. by rewrite !num_set_num_ne by done. }
    split; [done|]. intros col. apply H. by intros ?.
Qed.

Lemma resolve_preset p slider :
  p ≠ Custom → ∃ w, Weights.resolve (Weights.choose p slider) = Ok w.
Proof.
  intros Hp.
  destruct (resolve_Ok (Weights.choose p slider)) as (w & Hw & _).
  - apply choose_length.
  - rewrite preset_sum by done. lra.
  - eauto.
Qed.

Lemma C9_standardization_ignores_weights_witness :
  ∃ a1 a2 c1 c2 : DataFrame,
    AppCa.run [] Even (λ _, 0%R) Examples.constant_gini = Ok a1 ∧
    AppCa.run [] IncomeHeavy (λ _, 0%R) Examples.constant_gini = Ok a2 ∧
    Cali.run [] Even (λ _, 0%R) Examples.constant_gini = Ok c1 ∧
    Cali.run [] IncomeHeavy (λ _, 0%R) Examples.constant_gini = Ok c2 ∧
    (obj a1 = obj a2 ∧
     (∀ k, k ≠ "UOI_custom" → num a1 !! k = num a2 !! k) ∧
     (∀ col, num a1 !! Score.Z_ col = num a2 !! Score.Z_ col)) ∧
    (obj c1 = obj c2 ∧
     (∀ k, k ≠ "UOI_custom" → num c1 !! k = num c2 !! k) ∧
     (∀ col, num c1 !! Score.Z_ col = num c2 !! Score.Z_ col)).
Proof.
  destruct (resolve_preset Even (λ _, 0%R)) as [w1 Hw1]; [done|].
  destruct (resolve_preset IncomeHeavy (λ _, 0%R)) as [w2 Hw2]; [done|].
  destruct (run_with_fips [] Even (λ _, 0%R)
              [PyStr "06001"; PyStr "06075"; PyStr "06085"]
              Examples.constant_gini_cols w1 Hw1) as (u1 & _ & Ha1 & Hc1).
  destruct (run_with_fips [] IncomeHeavy (λ _, 0%R)
              [PyStr "06001"; PyStr "06075"; PyStr "06085"]
              Examples.constant_gini_cols w2 Hw2) as (u2 & _ & Ha2 & Hc2).
  destruct (C9_standardization_ignores_weights
              [] Examples.constant_gini Even IncomeHeavy
              (λ _, 0%R) (λ _, 0%R)) as [HA HC].
  eexists _, _, _, _.
  split; [exact Ha1|]. split; [exact Ha2|].
  split; [exact Hc1|]. split; [exact Hc2|].
  split.
  - exact (HA _ _ Ha1 Ha2).
  - exact (HC _ _ Hc1 Hc2).
Defined.

(** ** A column with Alpine County in the middle *)

Section alpine_example.

Import Stats Examples.
Local Open Scope R_scope.

Lemma zscore_13 :
  zscore [Some 1; Some 3] = [Some (- / sqrt 2); Some (/ sqrt 2)].
Proof.
  assert (0 < sqrt 2) as Hpos by (apply sqrt_lt_R0; lra).
  assert (mean [Some 1; Some 3] = Some 2) as Hm.
  { unfold mean, Rsum. simpl. f_equal. lra. }
  assert (std [Some 1; Some 3] = Some (sqrt 2)) as Hs.
  { unfold std, sqdev, Rsum. simpl. do 2 f_equal. lra. }
  unfold zscore. rewrite Hm, Hs. simpl.
  destruct (Req_dec_T (sqrt 2) 0); [lra|].
  repeat f_equal; field; lra.
Qed.

Lemma inv_sqrt_2_not_1 : / sqrt 2 ≠ 1.
Proof.
  assert (sqrt 2 * sqrt 2 = 2) as H by (apply sqrt_sqrt; lra).
  assert (0 < sqrt 2) as Hpos by (apply sqrt_lt_R0; lra).
  intros E. assert (sqrt 2 = 1) as E1.
  { rewrite <- (Rinv_inv (sqrt 2)), E. lra. }
  rewrite E1 in H. lra.
Qed.

End alpine_example.

(** ** C4: a name without a boundary feature *)

Section lookup_facts.

Import Score Examples.

Lemma first_match_None name features :
  (∀ feat, feat ∈ features → Str.upper (NAME feat) ≠ name) →
  Fips.first_match name features = PyNone.
Proof.
  induction features as [|feat fs IH]; intros H; cbn [Fips.first_match].
  - done.
  - rewrite bool_decide_eq_false_2 by (apply H; by left).
    apply IH. intros f Hf. apply H. by right.
Qed.

Lemma repaired_lookup (c : list pyobj) i x :
  c !! i = Some x →
  Fips.apply_repair (Fips.astype_str_zfill c) !! i
  = Some (PyStr (Fips.normalize x)).
Proof.
  intros Hx. unfold Fips.apply_repair, Fips.astype_str_zfill.
  rewrite map_map. change map with (@fmap list _).
  by rewrite list_lookup_fmap, Hx.
Qed.

Lemma alpine_mask_lookup ids i x :
  ids !! i = Some x →
  AppCa.alpine_mask ids !! i = Some (bool_decide (x ≠ PyStr "06003")).
Proof.
  intros Hx. unfold AppCa.alpine_mask. change map with (@fmap list _).
  by rewrite list_lookup_fmap, Hx.
Qed.

Lemma AppCa_raw_ids_County counties df names :
  obj df !! "GEOID" = None → obj df !! "fips" = None →
  obj df !! "County" = Some names →
  AppCa.raw_ids counties df = traverse (Fips.fips_lookup counties) names.
Proof.
  intros HG Hf Hn. unfold AppCa.raw_ids, get_obj. by rewrite HG, Hf, Hn.
Qed.

Lemma Cali_raw_ids_County counties df names :
  obj df !! "fips" = None → obj df !! "County" = Some names →
  Cali.raw_ids counties df = traverse (Fips.fips_lookup counties) names.
Proof.
  intros Hf Hn. unfold Cali.raw_ids, get_obj. by rewrite Hf, Hn.
Qed.

(** A row of numbers has a number for total. *)
Lemma add_products_is_number a (zw : list (cell * R)) :
  Forall (λ zwk, is_Some zwk.1) zw →
  ∃ v, add_products (Some a) zw = Some v.
Proof.
  revert a. induction zw as [|[z wk] zw IH]; intros a Hzw.
  - by exists a.
  - apply Forall_cons_1 in Hzw as [[v Hv] Hzw]. cbn [fst] in Hv. subst z.
    cbn [add_products foldl Float.add Float.mul]. by apply IH.
Qed.

Lemma row_total_is_number (zw : list (cell * R)) :
  zw ≠ [] → Forall (λ zwk, is_Some zwk.1) zw →
  ∃ v, row_total zw = Some (Some v).
Proof.
  destruct zw as [|[z wk] zw]; [done|]. intros _ Hzw.
  apply Forall_cons_1 in Hzw as [[v Hv] Hzw]. cbn [fst] in Hv. subst z.
  cbn [row_total Float.mul].
  destruct (add_products_is_number (v * wk) zw Hzw) as [t Ht].
  exists t. by rewrite Ht.
Qed.

(** The composite column has as many rows as the indicator columns. *)
Lemma uoi_length df cols w u n :
  AppCa.complete df cols →
  (∀ c, c ∈ AppCa.indicators → length (cols c) = n) →
  weighted_sum (AppCa.standardize df) (terms w) = Ok u →
  length u = n.
Proof.
  intros Hdf Hlen Hu.
  assert (∀ i, i < n → is_Some (u !! i)) as Hlt.
  { intros i Hi.
    destruct (uoi_row df cols w i Hdf) as (u' & Hu' & _ & Hrow).
    { intros c Hc. by rewrite (Hlen c Hc). }
    rewrite Hu in Hu'. injection Hu' as <-. cbv zeta in Hrow.
    rewrite Hrow. unfold AppCa.indicators, Weights.to_list.
    cbn [zip zip_with map row_total]. by eexists. }
  assert (u !! n = None) as Hge.
  { rewrite (weighted_sum_row _ _ _ n Hu).
    rewrite (row_terms_complete df cols n w Hdf).
    unfold AppCa.indicators at 1. unfold Weights.to_list.
    cbn [zip zip_with mapM].
    rewrite (lookup_ge_None_2 (z_column AppCa.negatives
               "Median_Household_Income"
               (cols "Median_Household_Income")) n); [done|].
    rewrite length_z_column, Hlen; [done|repeat constructor]. }
  apply lookup_ge_None_1 in Hge.
  destruct n as [|n']; [lia|].
  specialize (Hlt n' ltac:(lia)). apply lookup_lt_is_Some_1 in Hlt. lia.
Qed.

End lookup_facts.

(** C4, as amended.  For a record whose name (an ASCII name, looked up among
    Californian features with ASCII names), trimmed and in upper case, is the
    upper-case name of no such feature, [fips_lookup] returns [None]: the
    identifier the lookup gives the record is null.  Neither script has a
    step that excludes the record for that: the only row filter is the one
    of [app_ca.py] on the identifier "06003", which the record passes, so a
    table returned by [app_ca.py] has the record's row, with its name and
    its [UOI_custom] cell, and a table returned by [src/cali.py] has every
    row of the input. *)
Theorem C4_unmatched_name_is_not_excluded
    (features : list feature) (p : preset) (slider : string → R)
    (df : DataFrame) (names : list pyobj) (i : nat) (name : string) :
  obj df !! "GEOID" = None →
  obj df !! "fips" = None →
  obj df !! "County" = Some names →
  names !! i = Some (PyStr name) →
  Str.is_ascii name = true →
  (∀ feat, feat ∈ Fips.california features →
     Str.is_ascii (NAME feat) = true) →
  (∀ feat, feat ∈ Fips.california features →
     Str.upper (NAME feat) ≠ Str.upper (Str.strip name)) →
  Fips.fips_lookup (Fips.california features) (PyStr name) = Ok PyNone ∧
  (∀ raw, AppCa.raw_ids (Fips.california features) df = Ok raw →
     length raw = length names ∧ raw !! i = Some PyNone) ∧
  (∀ raw, Cali.raw_ids (Fips.california features) df = Ok raw →
     length raw = length names ∧ raw !! i = Some PyNone) ∧
  (∀ out, AppCa.run features p slider df = Ok out →
     ∃ (ids : list pyobj) (w : weights) (u : Series),
       let mask := AppCa.alpine_mask ids in
       Score.weighted_sum (AppCa.standardize df) (Score.terms w) = Ok u ∧
       length ids = length names ∧
       mask !! i = Some true ∧
       obj out !! "fips" = Some (select mask ids) ∧
       obj out !! "County" = Some (select mask names) ∧
       PyStr name ∈ select mask names ∧
       num out !! "UOI_custom" = Some (select mask u) ∧
       (∀ t, u !! i = Some t → t ∈ select mask u)) ∧
  (∀ out, Cali.run features p slider df = Ok out →
     ∃ (ids : list pyobj) (w : weights) (u : Series),
       Score.weighted_sum (AppCa.standardize df) (Score.terms w) = Ok u ∧
       length ids = length names ∧
       obj out !! "fips" = Some ids ∧
       obj out !! "County" = Some names ∧
       num out !! "UOI_custom" = Some u).
Proof.
  intros HG Hf Hn Hi _ _ Hno.
  assert (Fips.fips_lookup (Fips.california features) (PyStr name)
          = Ok PyNone) as Hlook.
  { unfold Fips.fips_lookup. f_equal. by apply first_match_None. }
  assert (∀ c, traverse (Fips.fips_lookup (Fips.california features)) names
               = Ok c →
          length c = length names ∧ c !! i = Some PyNone) as Hraw.
  { intros c Hc. split; [by eapply traverse_length|].
    destruct (traverse_lookup _ _ _ _ _ Hc Hi) as (y & Hy & Hci).
    rewrite Hlook in Hy. by injection Hy as <-. }
  assert (∀ c, traverse (Fips.fips_lookup (Fips.california features)) names
               = Ok c →
          let ids := Fips.apply_repair (Fips.astype_str_zfill c) in
          length ids = length names ∧
          AppCa.alpine_mask ids !! i = Some true) as Hids.
  { intros c Hc. cbv zeta. destruct (Hraw c Hc) as [Hlen Hci]. split.
    - unfold Fips.apply_repair, Fips.astype_str_zfill.
      by rewrite !length_map.
    - rewrite (alpine_mask_lookup _ i _ (repaired_lookup c i PyNone Hci)).
      done. }
  split_and!; [done| | | |].
  - intros raw Hc.
    rewrite (AppCa_raw_ids_County _ df names HG Hf Hn) in Hc. by apply Hraw.
  - intros raw Hc.
    rewrite (Cali_raw_ids_County _ df names Hf Hn) in Hc. by apply Hraw.
  - intros out (c & w & u & Hc & Hw & Hu & ->)%AppCa_run_inv.
    rewrite (AppCa_raw_ids_County _ df names HG Hf Hn) in Hc.
    destruct (Hids c Hc) as [Hlen Hmask]. cbv zeta in Hlen, Hmask.
    exists (Fips.apply_repair (Fips.astype_str_zfill c)), w, u. cbv zeta.
    split_and!; [done..| | | | |].
    + rewrite obj_select_rows. unfold set_num, set_obj. cbn [obj].
      by rewrite lookup_insert_eq.
    + rewrite obj_select_rows. unfold set_num, set_obj. cbn [obj].
      rewrite lookup_insert_ne by done. by rewrite standardize_obj, Hn.
    + by eapply select_elem.
    + rewrite num_select_rows. by rewrite num_set_num_eq.
    + intros t Ht. by eapply select_elem.
  - intros out (c & w & u & Hc & Hw & Hu & ->)%Cali_run_inv.
    rewrite (Cali_raw_ids_County _ df names Hf Hn) in Hc.
    destruct (Hids c Hc) as [Hlen _]. cbv zeta in Hlen.
    exists (Fips.apply_repair (Fips.astype_str_zfill c)), w, u.
    split_and!; [done..| | |].
    + unfold set_num, set_obj. cbn [obj]. by rewrite lookup_insert_eq.
    + unfold set_num, set_obj. cbn [obj].
      rewrite lookup_insert_ne by done. by rewrite standardize_obj, Hn.
    + by rewrite num_set_num_eq.
Qed.

Section unmatched_example.

Import Score Examples.

Lemma california_boundaries :
  Fips.california boundaries
  = [ mkFeature (Some "06001") "Alameda" "06" "001";
      mkFeature (Some "06085") "Santa Clara" "06" "085" ].
Proof. reflexivity. Qed.

Lemma Atlantis_unmatched feat :
  feat ∈ Fips.california boundaries →
  Str.upper (NAME feat) ≠ Str.upper (Str.strip "Atlantis").
Proof.
  rewrite california_boundaries.
  intros [->|[->|?%elem_of_nil]%elem_of_cons]%elem_of_cons; done.
Qed.

Lemma raw_ids_with_unmatched :
  traverse (Fips.fips_lookup (Fips.california boundaries))
    [PyStr " alameda"; PyStr "Atlantis"; PyStr "Santa Clara"]
  = Ok [PyStr "06001"; PyNone; PyStr "06085"].
Proof. reflexivity. Qed.

Lemma z_at_col123 negs c i :
  i < 3 → is_Some (z_at negs c col123 i).
Proof.
  intros Hi. unfold z_at, z_column. rewrite zscore_col123.
  destruct (bool_decide _); destruct i as [|[|[|i]]];
    cbn [Stats.neg_series map Float.neg lookup list_lookup default];
    eauto; lia.
Qed.

(** On a table of columns [1, 2, 3] every row has a number for score. *)
Lemma uoi_col123_number df w u i :
  AppCa.complete df (λ _, col123) →
  weighted_sum (AppCa.standardize df) (terms w) = Ok u →
  i < 3 → ∃ v, u !! i = Some (Some v).
Proof.
  intros Hdf Hu Hi.
  destruct (uoi_row df (λ _, col123) w i Hdf) as (u' & Hu' & _ & Hrow).
  { intros c _. done. }
  rewrite Hu in Hu'. injection Hu' as <-. cbv zeta in Hrow.
  rewrite Hrow. apply row_total_is_number.
  - unfold AppCa.indicators, Weights.to_list. by cbn [zip zip_with map].
  - apply Forall_fmap, Forall_forall. intros [c wk] _. cbn [fst].
    by apply z_at_col123.
Qed.

End unmatched_example.

Lemma boundaries_ascii feat :
  feat ∈ Fips.california Examples.boundaries →
  Str.is_ascii (NAME feat) = true.
Proof.
  rewrite california_boundaries.
  intros [->|[->|?%elem_of_nil]%elem_of_cons]%elem_of_cons; done.
Qed.

Lemma C4_unmatched_name_is_not_excluded_witness :
  Fips.fips_lookup (Fips.california Examples.boundaries) (PyStr "Atlantis")
    = Ok PyNone ∧
  (∀ raw,
     AppCa.raw_ids (Fips.california Examples.boundaries)
       Examples.with_unmatched = Ok raw →
     length raw
       = length [PyStr " alameda"; PyStr "Atlantis"; PyStr "Santa Clara"] ∧
     raw !! 1 = Some PyNone) ∧
  (∀ raw,
     Cali.raw_ids (Fips.california Examples.boundaries)
       Examples.with_unmatched = Ok raw →
     length raw
       = length [PyStr " alameda"; PyStr "Atlantis"; PyStr "Santa Clara"] ∧
     raw !! 1 = Some PyNone) ∧
  (∀ out,
     AppCa.run Examples.boundaries Even (λ _, 0%R) Examples.with_unmatched
       = Ok out →
     ∃ (ids : list pyobj) (w : weights) (u : Series),
       let mask := AppCa.alpine_mask ids in
       Score.weighted_sum (AppCa.standardize Examples.with_unmatched)
         (Score.terms w) = Ok u ∧
       length ids
         = length [PyStr " alameda"; PyStr "Atlantis"; PyStr "Santa Clara"] ∧
       mask !! 1 = Some true ∧
       obj out !! "fips" = Some (select mask ids) ∧
       obj out !! "County"
         = Some (select mask
                   [PyStr " alameda"; PyStr "Atlantis"; PyStr "Santa Clara"]) ∧
       PyStr "Atlantis"
         ∈ select mask
             [PyStr " alameda"; PyStr "Atlantis"; PyStr "Santa Clara"] ∧
       num out !! "UOI_custom" = Some (select mask u) ∧
       (∀ t, u !! 1 = Some t → t ∈ select mask u)) ∧
  (∀ out,
     Cali.run Examples.boundaries Even (λ _, 0%R) Examples.with_unmatched
       = Ok out →
     ∃ (ids : list pyobj) (w : weights) (u : Series),
       Score.weighted_sum (AppCa.standardize Examples.with_unmatched)
         (Score.terms w) = Ok u ∧
       length ids
         = length [PyStr " alameda"; PyStr "Atlantis"; PyStr "Santa Clara"] ∧
       obj out !! "fips" = Some ids ∧
       obj out !! "County"
         = Some [PyStr " alameda"; PyStr "Atlantis"; PyStr "Santa Clara"] ∧
       num out !! "UOI_custom" = Some u).
Proof.
  apply (C4_unmatched_name_is_not_excluded
           Examples.boundaries Even (λ _, 0%R) Examples.with_unmatched
           [PyStr " alameda"; PyStr "Atlantis"; PyStr "Santa Clara"]
           1 "Atlantis").
  - reflexivity.
  - reflexivity.
  - reflexivity.
  - reflexivity.
  - reflexivity.
  - exact boundaries_ascii.
  - exact Atlantis_unmatched.
Defined.

(** C4, as stated, fails: of three named rows one has a name that is in no
    boundary feature.  The claim has the scripts return the two other rows.
    Neither script returns a table of two rows, nor one without that
    name. *)
Lemma C4_unmatched_name_counterexample :
  Fips.fips_lookup (Fips.california Examples.boundaries) (PyStr "Atlantis")
    = Ok PyNone ∧
  ¬ (∃ (out : DataFrame) (names : list pyobj),
       AppCa.run Examples.boundaries Even (λ _, 0%R) Examples.with_unmatched
         = Ok out ∧
       obj out !! "County" = Some names ∧
       (length names = 2 ∨ PyStr "Atlantis" ∉ names)) ∧
  ¬ (∃ (out : DataFrame) (names : list pyobj),
       Cali.run Examples.boundaries Even (λ _, 0%R) Examples.with_unmatched
         = Ok out ∧
       obj out !! "County" = Some names ∧
       (length names = 2 ∨ PyStr "Atlantis" ∉ names)).
Proof.
  destruct (resolve_Even (λ _, 0%R)) as [w Hw].
  pose proof (with_names_complete
                [PyStr " alameda"; PyStr "Atlantis"; PyStr "Santa Clara"]
                (λ _, Examples.col123)) as Hdf.
  fold Examples.with_unmatched in Hdf.
  destruct (weighted_sum_complete _ _ w Hdf) as [u Hu].
  assert (AppCa.run Examples.boundaries Even (λ _, 0%R)
            Examples.with_unmatched
          = Ok (select_rows [true; true; true]
                  (set_num "UOI_custom" u
                     (set_obj "fips"
                        (Fips.apply_repair (Fips.astype_str_zfill
                           [PyStr "06001"; PyNone; PyStr "06085"]))
                        (AppCa.standardize Examples.with_unmatched)))))
    as Ha.
  { rewrite AppCa_run.
    rewrite (AppCa_raw_ids_County _ _
               [PyStr " alameda"; PyStr "Atlantis"; PyStr "Santa Clara"])
      by reflexivity.
    rewrite raw_ids_with_unmatched, bind_Ok_l, Hw, bind_Ok_l, Hu, bind_Ok_l.
    reflexivity. }
  assert (Cali.run Examples.boundaries Even (λ _, 0%R)
            Examples.with_unmatched
          = Ok (set_num "UOI_custom" u
                  (set_obj "fips"
                     (Fips.apply_repair (Fips.astype_str_zfill
                        [PyStr "06001"; PyNone; PyStr "06085"]))
                     (AppCa.standardize Examples.with_unmatched))))
    as Hc.
  { rewrite Cali_run.
    rewrite (Cali_raw_ids_County _ _
               [PyStr " alameda"; PyStr "Atlantis"; PyStr "Santa Clara"])
      by reflexivity.
    rewrite raw_ids_with_unmatched, bind_Ok_l, Hw, bind_Ok_l, Hu, bind_Ok_l.
    reflexivity. }
  split_and!.
  - reflexivity.
  - intros (out & names & Hout & Hnames & Hclaim).
    rewrite Ha in Hout. injection Hout as <-.
    rewrite obj_select_rows in Hnames.
    unfold set_num, set_obj in Hnames. cbn [obj] in Hnames.
    rewrite lookup_insert_ne in Hnames by done.
    rewrite standardize_obj in Hnames.
    change (obj Examples.with_unmatched !! "County")
      with (Some [PyStr " alameda"; PyStr "Atlantis"; PyStr "Santa Clara"])
      in Hnames.
    injection Hnames as <-.
    destruct Hclaim as [Hlen|Hnot]; [done|].
    apply Hnot. cbn [select]. right. by left.
  - intros (out & names & Hout & Hnames & Hclaim).
    rewrite Hc in Hout. injection Hout as <-.
    unfold set_num, set_obj in Hnames. cbn [obj] in Hnames.
    rewrite lookup_insert_ne in Hnames by done.
    rewrite standardize_obj in Hnames.
    change (obj Examples.with_unmatched !! "County")
      with (Some [PyStr " alameda"; PyStr "Atlantis"; PyStr "Santa Clara"])
      in Hnames.
    injection Hnames as <-.
    destruct Hclaim as [Hlen|Hnot]; [done|].
    apply Hnot. right. by left.
Qed.

(** ** C6: two records *)

Section two_rows.

Import Stats Score Examples.
Local Open Scope R_scope.

(** The z-score of a column of two different values. *)
Lemma zscore_pair x y :
  x ≠ y →
  ∃ σ, 0 < σ ∧
    zscore [Some x; Some y]
    = [Some ((x - (x + y) / 2) / σ); Some ((y - (x + y) / 2) / σ)].
Proof.
  intros Hxy.
  assert (0 < (x - y) * (x - y)) as Hsq.
  { destruct (Rtotal_order x y) as [?|[?|?]]; [nra|done|nra]. }
  assert (mean [Some x; Some y] = Some ((x + y) / 2)) as Hm.
  { unfold mean, Rsum. simpl. f_equal. lra. }
  set (σ := sqrt ((x - y) * (x - y) / 2)).
  assert (0 < σ) as Hσ by (apply sqrt_lt_R0; lra).
  assert (std [Some x; Some y] = Some σ) as Hs.
  { unfold std, sqdev, Rsum, σ. simpl. do 2 f_equal. field. }
  exists σ. split; [done|].
  unfold zscore. rewrite Hm, Hs. simpl.
  destruct (Req_dec_T σ 0); [lra|]. done.
Qed.

(** Rows 0 and 1 of the [Z_] column of such a column: two numbers, in the
    order of the raw values, or in the opposite order for a negative
    indicator. *)
Lemma z_at_pair negs c x y :
  x < y →
  ∃ v0 v1,
    z_at negs c [Some x; Some y] 0 = Some v0 ∧
    z_at negs c [Some x; Some y] 1 = Some v1 ∧
    if bool_decide (c ∈ negs) then v1 < v0 else v0 < v1.
Proof.
  intros Hxy. destruct (zscore_pair x y) as (σ & Hσ & Hz); [lra|].
  assert (/ σ > 0) as Hi by (by apply Rinv_0_lt_compat).
  unfold z_at, z_column. rewrite Hz.
  destruct (bool_decide (c ∈ negs));
    cbn [neg_series map Float.neg lookup list_lookup default];
    eexists _, _; (split; [reflexivity|split; [reflexivity|]]);
    unfold Rdiv; nra.
Qed.

Lemma z_at_pair_number negs c x y i :
  x ≠ y → (i < 2)%nat → is_Some (z_at negs c [Some x; Some y] i).
Proof.
  intros Hxy Hi. destruct (zscore_pair x y Hxy) as (σ & Hσ & Hz).
  unfold z_at, z_column. rewrite Hz.
  destruct (bool_decide (c ∈ negs)); destruct i as [|[|i]];
    cbn [neg_series map Float.neg lookup list_lookup default];
    eauto; lia.
Qed.

Lemma two_records_pair others c :
  (∀ k, (others k).1 ≠ (others k).2) →
  ∃ x y, two_records others c = [Some x; Some y] ∧ x ≠ y.
Proof.
  intros Ho. unfold two_records.
  destruct (bool_decide _); [exists 100, 200; split; [done|lra]|].
  destruct (bool_decide _); [exists 5, 10; split; [done|lra]|].
  by eexists _, _.
Qed.

Lemma resolve_income_slider :
  Weights.resolve (Weights.choose Custom income_slider)
  = Ok (mkWeights (1 / 1) (0 / 1) (0 / 1) (0 / 1) (0 / 1)
                  (0 / 1) (0 / 1) (0 / 1) (0 / 1)).
Proof.
  change (Weights.choose Custom income_slider)
    with [1; 0; 0; 0; 0; 0; 0; 0; 0].
  assert (Weights.py_sum [1; 0; 0; 0; 0; 0; 0; 0; 0] = 1) as Hsum.
  { unfold Weights.py_sum. simpl. lra. }
  rewrite resolve_cases, Hsum. destruct (Req_dec_T 1 0); [lra|done].
Qed.

Lemma resolve_unemployment_slider :
  Weights.resolve (Weights.choose Custom unemployment_slider)
  = Ok (mkWeights (0 / 1) (0 / 1) (1 / 1) (0 / 1) (0 / 1)
                  (0 / 1) (0 / 1) (0 / 1) (0 / 1)).
Proof.
  change (Weights.choose Custom unemployment_slider)
    with [0; 0; 1; 0; 0; 0; 0; 0; 0].
  assert (Weights.py_sum [0; 0; 1; 0; 0; 0; 0; 0; 0] = 1) as Hsum.
  { unfold Weights.py_sum. simpl. lra. }
  rewrite resolve_cases, Hsum. destruct (Req_dec_T 1 0); [lra|done].
Qed.

(** The composite of a complete table of two-row columns, each with two
    different values: two numbers, each the weighted sum of its row. *)
Lemma uoi_two_rows df cols w u :
  AppCa.complete df cols →
  (∀ c, ∃ x y, cols c = [Some x; Some y] ∧ x ≠ y) →
  weighted_sum (AppCa.standardize df) (terms w) = Ok u →
  ∃ v : string → nat → R,
    (∀ c i, (i < 2)%nat → z_at AppCa.negatives c (cols c) i = Some (v c i)) ∧
    u = [ Some (Rsum (map (λ '(c, wk), v c 0%nat * wk)
                       (zip AppCa.indicators (Weights.to_list w))));
          Some (Rsum (map (λ '(c, wk), v c 1%nat * wk)
                       (zip AppCa.indicators (Weights.to_list w)))) ].
Proof.
  intros Hdf Hcols Hu.
  set (v := λ c i, default 0 (z_at AppCa.negatives c (cols c) i)).
  assert (∀ c i, (i < 2)%nat →
            z_at AppCa.negatives c (cols c) i = Some (v c i)) as Hv.
  { intros c i Hi. destruct (Hcols c) as (x & y & Hc & Hxy).
    unfold v. rewrite Hc.
    by destruct (z_at_pair_number AppCa.negatives c x y i Hxy Hi) as [z ->]. }
  assert (∀ c, c ∈ AppCa.indicators → length (cols c) = 2%nat) as Hlen.
  { intros c _. by destruct (Hcols c) as (x & y & -> & _). }
  pose proof (uoi_length df cols w u 2 Hdf Hlen Hu) as Hu2.
  assert (∀ i, (i < 2)%nat →
    u !! i = Some (Some (Rsum (map (λ '(c, wk), v c i * wk)
                       (zip AppCa.indicators (Weights.to_list w)))))) as Hrow.
  { intros i Hi.
    destruct (uoi_row df cols w i Hdf) as (u' & Hu' & _ & Hr).
    { intros c Hc. by rewrite (Hlen c Hc). }
    rewrite Hu in Hu'. injection Hu' as <-. cbv zeta in Hr. rewrite Hr.
    assert (map (λ '(c, wk), (z_at AppCa.negatives c (cols c) i, wk))
                (zip AppCa.indicators (Weights.to_list w))
            = map (λ '(x, wk), (Some x, wk))
                (map (λ '(c, wk), (v c i, wk))
                   (zip AppCa.indicators (Weights.to_list w)))) as ->.
    { rewrite map_map. apply map_ext. intros [c wk]. by rewrite Hv. }
    rewrite row_total_numbers.
    - rewrite map_map. do 3 f_equal.
    - unfold AppCa.indicators, Weights.to_list. by cbn [zip zip_with map]. }
  exists v. split; [done|].
  pose proof (Hrow 0%nat ltac:(lia)) as H0.
  pose proof (Hrow 1%nat ltac:(lia)) as H1.
  destruct u as [|a [|b [|]]]; simpl in Hu2; try lia.
  cbn in H0, H1. by injection H0 as ->; injection H1 as ->.
Qed.

End two_rows.

(** C6, as amended.  Take the two records A (income 100, unemployment 5)
    and B (income 200, unemployment 10) in a table where each of the seven
    other indicators has a value for A and a different value for B.  With
    all the weight on income both scripts give B a strictly higher composite
    than A; with all the weight on unemployment they give A a strictly
    higher composite than B. *)
Theorem C6_two_records_end_to_end (others : string → R * R) :
  (∀ k, (others k).1 ≠ (others k).2) →
  let table := Examples.with_fips Examples.AB (Examples.two_records others) in
  ∃ a b a' b' : R,
    (a < b)%R ∧ (b' < a')%R ∧
    (∃ out, AppCa.run [] Custom Examples.income_slider table = Ok out ∧
            num out !! "UOI_custom" = Some [Some a; Some b]) ∧
    (∃ out, Cali.run [] Custom Examples.income_slider table = Ok out ∧
            num out !! "UOI_custom" = Some [Some a; Some b]) ∧
    (∃ out, AppCa.run [] Custom Examples.unemployment_slider table = Ok out ∧
            num out !! "UOI_custom" = Some [Some a'; Some b']) ∧
    (∃ out, Cali.run [] Custom Examples.unemployment_slider table = Ok out ∧
            num out !! "UOI_custom" = Some [Some a'; Some b']).
Proof.
  intros Ho table.
  pose proof (with_fips_complete Examples.AB (Examples.two_records others))
    as Hdf.
  pose proof (λ c, two_records_pair others c Ho) as Hpairs.
  destruct (run_with_fips [] Custom Examples.income_slider Examples.AB
              (Examples.two_records others) _ resolve_income_slider)
    as (uI & HuI & HaI & HcI).
  destruct (run_with_fips [] Custom Examples.unemployment_slider Examples.AB
              (Examples.two_records others) _ resolve_unemployment_slider)
    as (uU & HuU & HaU & HcU).
  destruct (uoi_two_rows _ _ _ uI Hdf Hpairs HuI) as (v & Hv & ->).
  destruct (uoi_two_rows _ _ _ uU Hdf Hpairs HuU) as (v' & Hv' & ->).
  destruct (z_at_pair AppCa.negatives "Median_Household_Income" 100 200)
    as (i0 & i1 & Hi0 & Hi1 & Hi); [lra|].
  destruct (z_at_pair AppCa.negatives "Unemployment_Rate" 5 10)
    as (n0 & n1 & Hn0 & Hn1 & Hn); [lra|].
  change (i0 < i1)%R in Hi. change (n1 < n0)%R in Hn.
  pose proof (Hv "Median_Household_Income" 0 ltac:(lia)) as E0.
  pose proof (Hv "Median_Household_Income" 1 ltac:(lia)) as E1.
  pose proof (Hv' "Unemployment_Rate" 0 ltac:(lia)) as F0.
  pose proof (Hv' "Unemployment_Rate" 1 ltac:(lia)) as F1.
  change (Examples.two_records others "Median_Household_Income")
    with [Some 100%R; Some 200%R] in E0, E1.
  change (Examples.two_records others "Unemployment_Rate")
    with [Some 5%R; Some 10%R] in F0, F1.
  rewrite Hi0 in E0. rewrite Hi1 in E1. rewrite Hn0 in F0. rewrite Hn1 in F1.
  injection E0 as E0. injection E1 as E1.
  injection F0 as F0. injection F1 as F1.
  eexists _, _, _, _. split_and!.
  3: { eexists. split; [exact HaI|].
       rewrite num_select_rows, num_set_num_eq. reflexivity. }
  3: { eexists. split; [exact HcI|]. by rewrite num_set_num_eq. }
  3: { eexists. split; [exact HaU|].
       rewrite num_select_rows, num_set_num_eq. reflexivity. }
  3: { eexists. split; [exact HcU|]. by rewrite num_set_num_eq. }
  - unfold AppCa.indicators, Weights.to_list.
    cbn [zip zip_with map Stats.Rsum foldr w_inc w_bach w_unemp w_health
         w_rent w_bb w_school w_mob w_gini].
    rewrite <- E0, <- E1. lra.
  - unfold AppCa.indicators, Weights.to_list.
    cbn [zip zip_with map Stats.Rsum foldr w_inc w_bach w_unemp w_health
         w_rent w_bb w_school w_mob w_gini].
    rewrite <- F0, <- F1. lra.
Qed.

Lemma C6_two_records_end_to_end_witness :
  let table :=
    Examples.with_fips Examples.AB (Examples.two_records (λ _, (0, 1)%R)) in
  ∃ a b a' b' : R,
    (a < b)%R ∧ (b' < a')%R ∧
    (∃ out, AppCa.run [] Custom Examples.income_slider table = Ok out ∧
            num out !! "UOI_custom" = Some [Some a; Some b]) ∧
    (∃ out, Cali.run [] Custom Examples.income_slider table = Ok out ∧
            num out !! "UOI_custom" = Some [Some a; Some b]) ∧
    (∃ out, AppCa.run [] Custom Examples.unemployment_slider table = Ok out ∧
            num out !! "UOI_custom" = Some [Some a'; Some b']) ∧
    (∃ out, Cali.run [] Custom Examples.unemployment_slider table = Ok out ∧
            num out !! "UOI_custom" = Some [Some a'; Some b']).
Proof.
  apply (C6_two_records_end_to_end (λ _, (0, 1)%R)).
  intros _. cbn [fst snd]. lra.
Defined.

(** C6, as stated, fails: for the two records with nothing but income and
    unemployment, the seven other standardised values are NaN and so is the
    composite of both records; B's is not strictly higher than A's. *)
Lemma C6_missing_indicators_counterexample :
  ∃ (out : DataFrame) (uA uB : cell),
    AppCa.run [] Custom Examples.income_slider
      (Examples.with_fips Examples.AB Examples.two_records_only) = Ok out ∧
    num out !! "UOI_custom" = Some [uA; uB] ∧
    uA = NaN ∧ uB = NaN ∧
    ¬ Float.gt uB uA.
Proof.
  pose proof (with_fips_complete Examples.AB Examples.two_records_only)
    as Hdf.
  destruct (run_with_fips [] Custom Examples.income_slider Examples.AB
              Examples.two_records_only _ resolve_income_slider)
    as (u & Hu & Ha & _).
  assert (∀ c, length (Examples.two_records_only c) = 2) as Hlen.
  { intros c. unfold Examples.two_records_only.
    by repeat destruct (bool_decide _). }
  pose proof (uoi_length _ _ _ u 2 Hdf (λ c _, Hlen c) Hu) as Hu2.
  assert (∀ i, i < 2 → u !! i = Some NaN) as Hrow.
  { intros i Hi.
    destruct (uoi_row _ Examples.two_records_only
                (mkWeights (1 / 1) (0 / 1) (0 / 1) (0 / 1) (0 / 1)
                           (0 / 1) (0 / 1) (0 / 1) (0 / 1))%R i Hdf)
      as (u' & Hu' & _ & Hr).
    { intros c _. by rewrite Hlen. }
    rewrite Hu in Hu'. injection Hu' as <-. cbv zeta in Hr. rewrite Hr.
    apply (row_total_has_NaN _ (0 / 1)%R).
    apply list_elem_of_fmap.
    exists ("Bachelors_Degree_Pct"%string, (0 / 1)%R). split.
    - f_equal. symmetry. apply z_at_undefined; [by left|].
      by rewrite Hlen.
    - unfold AppCa.indicators, Weights.to_list.
      cbn [zip zip_with w_inc w_bach w_unemp w_health
           w_rent w_bb w_school w_mob w_gini].
      right. left. }
  pose proof (Hrow 0 ltac:(lia)) as H0.
  pose proof (Hrow 1 ltac:(lia)) as H1.
  destruct u as [|a [|b [|]]]; simpl in Hu2; try lia.
  cbn in H0, H1. injection H0 as ->. injection H1 as ->.
  eexists _, NaN, NaN. split_and!; [exact Ha| |done|done|].
  - rewrite num_select_rows, num_set_num_eq. reflexivity.
  - intros [].
Qed.

(** ** C7: raising the raw value of a negative indicator *)

Section monotone.

Import Stats.
Local Open Scope R_scope.

(** [d / sqrt (A + B * d * d)] does not decrease with [d]. *)
Lemma ratio_mono A B d d' :
  0 <= A → 0 < B → d <= d' →
  0 < A + B * (d * d) → 0 < A + B * (d' * d') →
  d / sqrt (A + B * (d * d)) <= d' / sqrt (A + B * (d' * d')).
Proof.
  intros HA HB Hd Hv Hv'.
  set (s := sqrt (A + B * (d * d))). set (s' := sqrt (A + B * (d' * d'))).
  assert (0 < s) as Hs by (by apply sqrt_lt_R0).
  assert (0 < s') as Hs' by (by apply sqrt_lt_R0).
  assert (s * s = A + B * (d * d)) as Es by (apply sqrt_sqrt; lra).
  assert (s' * s' = A + B * (d' * d')) as Es' by (apply sqrt_sqrt; lra).
  apply (Rmult_le_reg_r (s * s')); [nra|].
  replace (d / s * (s * s')) with (d * s') by (field; lra).
  replace (d' / s' * (s * s')) with (d' * s) by (field; lra).
  destruct (Rle_dec 0 d) as [Hd0|Hd0].
  - (* 0 <= d <= d' *)
    apply Rsqr_incr_0; [|nra|nra]. unfold Rsqr.
    replace (d * s' * (d * s')) with (d * d * (s' * s')) by ring.
    replace (d' * s * (d' * s)) with (d' * d' * (s * s)) by ring.
    rewrite Es, Es'.
    assert (A * (d * d) <= A * (d' * d')) as HAd
      by (apply Rmult_le_compat_l; nra).
    replace (d * d * (A + B * (d' * d')))
      with (A * (d * d) + B * (d * d * (d' * d'))) by ring.
    replace (d' * d' * (A + B * (d * d)))
      with (A * (d' * d') + B * (d * d * (d' * d'))) by ring.
    lra.
  - destruct (Rle_dec 0 d') as [Hd0'|Hd0'].
    + (* d < 0 <= d' *) nra.
    + (* d <= d' < 0 *)
      apply Ropp_le_cancel.
      replace (- (d' * s)) with (- d' * s) by ring.
      replace (- (d * s')) with (- d * s') by ring.
      apply Rsqr_incr_0; [|nra|nra]. unfold Rsqr.
      replace (- d' * s * (- d' * s)) with (d' * d' * (s * s)) by ring.
      replace (- d * s' * (- d * s')) with (d * d * (s' * s')) by ring.
      rewrite Es, Es'.
      assert (A * (d' * d') <= A * (d * d)) as HAd
        by (apply Rmult_le_compat_l; nra).
      replace (d * d * (A + B * (d' * d')))
        with (A * (d * d) + B * (d * d * (d' * d'))) by ring.
      replace (d' * d' * (A + B * (d * d)))
        with (A * (d' * d') + B * (d * d * (d' * d'))) by ring.
      lra.
Qed.

Lemma Rsum_middle xs t ys : Rsum (xs ++ t :: ys) = t + Rsum (xs ++ ys).
Proof. rewrite !Rsum_app. unfold Rsum. simpl. lra. Qed.

Lemma sqdev_middle m xs t ys :
  sqdev m (xs ++ t :: ys) = (t - m) * (t - m) + sqdev m (xs ++ ys).
Proof.
  unfold sqdev. rewrite !map_app, !Rsum_app. unfold Rsum. simpl. lra.
Qed.

Lemma sqdev_expand m xs :
  sqdev m xs
  = Rsum (map (λ x, x * x) xs) - 2 * m * Rsum xs + INR (length xs) * (m * m).
Proof.
  unfold sqdev, Rsum. induction xs as [|x xs IH]; [simpl; lra|].
  cbn [map foldr length]. rewrite S_INR, IH. lra.
Qed.

(** The cell of the row between [pre] and [post]. *)
Lemma zscore_middle pre t post :
  let s := pre ++ Some t :: post in
  zscore s !! length pre
  = Some (Float.div (Float.sub (Some t) (mean s)) (std s)).
Proof.
  cbv zeta. unfold zscore, div_scalar, sub_scalar. rewrite map_map.
  change map with (@fmap list _).
  by rewrite list_lookup_fmap, list_lookup_middle.
Qed.

Lemma dropna_middle pre t post :
  dropna (pre ++ Some t :: post) = dropna pre ++ t :: dropna post.
Proof. by rewrite dropna_app. Qed.

Lemma mean_middle pre t post :
  let os := dropna pre ++ dropna post in
  mean (pre ++ Some t :: post)
  = Some ((t + Rsum os) / (INR (length os) + 1)).
Proof.
  cbv zeta. unfold mean. rewrite dropna_middle.
  destruct (dropna pre ++ t :: dropna post) as [|x xs] eqn:E.
  { by destruct (dropna pre). }
  rewrite <- E, Rsum_middle. do 2 f_equal.
  rewrite !length_app. cbn [length]. rewrite Nat.add_succ_r, S_INR. done.
Qed.

Lemma std_middle_short pre t post :
  length (dropna pre ++ dropna post) = 0%nat →
  std (pre ++ Some t :: post) = NaN.
Proof.
  intros Hk. unfold std. rewrite dropna_middle.
  rewrite length_app in *. cbn [length]. case_decide; [done|lia].
Qed.

Lemma std_middle pre t post :
  let os := dropna pre ++ dropna post in
  let m := (t + Rsum os) / (INR (length os) + 1) in
  (1 ≤ length os)%nat →
  std (pre ++ Some t :: post)
  = Some (sqrt (((t - m) * (t - m) + sqdev m os) / INR (length os))).
Proof.
  intros os m Hk. unfold std. rewrite dropna_middle.
  assert (length (dropna pre ++ t :: dropna post) = S (length os)) as Hn.
  { unfold os. rewrite !length_app. cbn [length]. lia. }
  rewrite Hn. case_decide; [lia|].
  rewrite Rsum_middle, sqdev_middle, S_INR. fold os.
  do 2 f_equal. fold m. f_equal. lra.
Qed.

(** The variance of the column as a function of the raised value, through
    [D = k * t - sum of the others]. *)
Lemma variance_middle (os : list R) t :
  (1 ≤ length os)%nat →
  let k := INR (length os) in
  let m := (t + Rsum os) / (k + 1) in
  let D := k * t - Rsum os in
  ((t - m) * (t - m) + sqdev m os) / k
  = sqdev (Rsum os / k) os / k + / (k * k * (k + 1)) * (D * D)
  ∧ t - m = D / (k + 1).
Proof.
  intros Hk k m D.
  assert (1 <= k) as Hk1 by (apply le_INR in Hk; simpl in Hk; exact Hk).
  rewrite !sqdev_expand. fold k. unfold m, D. split; field; lra.
Qed.

(** With the other values fixed, the z-score of a record does not decrease
    when its raw value is raised. *)
Lemma zscore_raise pre t t' post v v' :
  t <= t' →
  zscore (pre ++ Some t :: post) !! length pre = Some (Some v) →
  zscore (pre ++ Some t' :: post) !! length pre = Some (Some v') →
  v <= v'.
Proof.
  intros Ht. rewrite !zscore_middle. cbv zeta. rewrite !mean_middle.
  set (os := dropna pre ++ dropna post).
  destruct (decide (length os = 0%nat)) as [Hk0|Hk0].
  { rewrite (std_middle_short pre t post Hk0). by intros [=]. }
  assert (1 ≤ length os)%nat as Hk by lia.
  rewrite (std_middle pre t post Hk), (std_middle pre t' post Hk).
  fold os. cbv zeta.
  destruct (variance_middle os t Hk) as [HV HD].
  destruct (variance_middle os t' Hk) as [HV' HD'].
  cbv zeta in HV, HD, HV', HD'. rewrite HV, HV'.
  set (k := INR (length os)) in *.
  assert (1 <= k) as Hk1 by (apply le_INR in Hk; simpl in Hk; exact Hk).
  set (A := sqdev (Rsum os / k) os / k) in *.
  set (B := / (k * k * (k + 1))) in *.
  set (D := k * t - Rsum os) in *. set (D' := k * t' - Rsum os) in *.
  assert (0 <= A) as HA.
  { unfold A. apply Rmult_le_pos; [apply sqdev_nonneg|].
    left. apply Rinv_0_lt_compat. lra. }
  assert (0 < B) as HB.
  { unfold B. apply Rinv_0_lt_compat. nra. }
  assert (D <= D') as HDD by (unfold D, D'; nra).
  assert (∀ x, 0 <= A + B * (x * x)) as Hnn by (intros x; nra).
  cbn [Float.sub Float.div].
  destruct (Req_dec_T (sqrt (A + B * (D * D))) 0) as [|Hs]; [by intros [=]|].
  destruct (Req_dec_T (sqrt (A + B * (D' * D'))) 0) as [|Hs'];
    [by intros _ [=]|].
  intros [= <-] [= <-]. rewrite HD, HD'.
  assert (0 < A + B * (D * D)) as Hpos.
  { destruct (Hnn D) as [?|E]; [done|]. rewrite <- E, sqrt_0 in Hs. done. }
  assert (0 < A + B * (D' * D')) as Hpos'.
  { destruct (Hnn D') as [?|E]; [done|]. rewrite <- E, sqrt_0 in Hs'. done. }
  pose proof (ratio_mono A B D D' HA HB HDD Hpos Hpos') as Hr.
  unfold Rdiv in *.
  replace (D * / (k + 1) * / sqrt (A + B * (D * D)))
    with (/ (k + 1) * (D * / sqrt (A + B * (D * D)))) by ring.
  replace (D' * / (k + 1) * / sqrt (A + B * (D' * D')))
    with (/ (k + 1) * (D' * / sqrt (A + B * (D' * D')))) by ring.
  apply Rmult_le_compat_l; [|done].
  left. apply Rinv_0_lt_compat. lra.
Qed.

End monotone.

Lemma negatives_indicators c : c ∈ AppCa.negatives → c ∈ AppCa.indicators.
Proof.
  intros Hc.
  repeat (apply elem_of_cons in Hc as [->|Hc]; [repeat constructor|]).
  by apply elem_of_nil in Hc.
Qed.

Lemma z_column_negative c s :
  c ∈ AppCa.negatives →
  Score.z_column AppCa.negatives c s = Stats.neg_series (Stats.zscore s).
Proof.
  intros Hc. unfold Score.z_column. by rewrite bool_decide_eq_true_2.
Qed.

(** C7.  For each of the four negative indicators (unemployment rate,
    uninsured percentage, median rent, Gini index) and any table, raising
    the raw value of one record and leaving every other cell as it is does
    not increase that record's standardised value: the new [Z_] cell is not
    greater than the old one (a comparison with NaN being false), and when
    both are numbers the new one is at most the old one.  Both scripts. *)
Theorem C7_negative_indicator_monotone
    (df : DataFrame) (col : string) (pre post : Series) (t t' : R) :
  col ∈ AppCa.negatives →
  num df !! col = Some (pre ++ Some t :: post) →
  (t <= t')%R →
  let df' := set_num col (pre ++ Some t' :: post) df in
  ∃ z z' : cell,
    Score.cell_at (AppCa.standardize df) (length pre) (Score.Z_ col)
      = Some z ∧
    Score.cell_at (AppCa.standardize df') (length pre) (Score.Z_ col)
      = Some z' ∧
    Score.cell_at (Cali.standardize df) (length pre) (Score.Z_ col)
      = Some z ∧
    Score.cell_at (Cali.standardize df') (length pre) (Score.Z_ col)
      = Some z' ∧
    ¬ Float.gt z' z ∧
    (∀ v v', z = Some v → z' = Some v' → (v' <= v)%R).
Proof.
  intros Hneg Hs Ht df'.
  pose proof (negatives_indicators col Hneg) as Hin.
  assert (num df' !! col = Some (pre ++ Some t' :: post)) as Hs'
    by apply num_set_num_eq.
  pose proof (cell_at_standardize df (length pre) col _ Hin Hs) as Hc.
  pose proof (cell_at_standardize df' (length pre) col _ Hin Hs') as Hc'.
  rewrite z_column_negative in Hc, Hc' by done.
  unfold Stats.neg_series in Hc, Hc'.
  change map with (@fmap list _) in Hc, Hc'.
  rewrite list_lookup_fmap in Hc, Hc'.
  destruct (Stats.zscore (pre ++ Some t :: post) !! length pre)
    as [r|] eqn:Hr.
  2: { rewrite zscore_middle in Hr. discriminate. }
  destruct (Stats.zscore (pre ++ Some t' :: post) !! length pre)
    as [r'|] eqn:Hr'.
  2: { rewrite zscore_middle in Hr'. discriminate. }
  cbn [fmap option_fmap option_map] in Hc, Hc'.
  exists (Float.neg r), (Float.neg r').
  assert (∀ v v', Float.neg r = Some v → Float.neg r' = Some v' →
                  (v' <= v)%R) as Hle.
  { intros v v' Hv Hv'.
    destruct r as [x|]; [|discriminate]. destruct r' as [x'|]; [|discriminate].
    cbn in Hv, Hv'. injection Hv as <-. injection Hv' as <-.
    pose proof (zscore_raise pre t t' post x x' Ht Hr Hr'). lra. }
  split_and!; [done|done| | | |done].
  - by rewrite (standardize_Cali_AppCa df).
  - by rewrite (standardize_Cali_AppCa df').
  - destruct (Float.neg r) as [v|] eqn:Ev, (Float.neg r') as [v'|] eqn:Ev';
      cbn [Float.gt]; try tauto.
    specialize (Hle v v' eq_refl eq_refl). lra.
Qed.

Lemma C7_negative_indicator_monotone_witness :
  let df' :=
    set_num "Gini_Index" ([Some 1%R] ++ Some 3%R :: [Some 3%R])
      Examples.with_alpine in
  ∃ z z' : cell,
    Score.cell_at (AppCa.standardize Examples.with_alpine)
      (length [Some 1%R]) (Score.Z_ "Gini_Index") = Some z ∧
    Score.cell_at (AppCa.standardize df')
      (length [Some 1%R]) (Score.Z_ "Gini_Index") = Some z' ∧
    Score.cell_at (Cali.standardize Examples.with_alpine)
      (length [Some 1%R]) (Score.Z_ "Gini_Index") = Some z ∧
    Score.cell_at (Cali.standardize df')
      (length [Some 1%R]) (Score.Z_ "Gini_Index") = Some z' ∧
    ¬ Float.gt z' z ∧
    (∀ v v', z = Some v → z' = Some v' → (v' <= v)%R).
Proof.
  apply (C7_negative_indicator_monotone
           Examples.with_alpine "Gini_Index" [Some 1%R] [Some 3%R] 2 3).
  - repeat constructor.
  - reflexivity.
  - lra.
Defined.

(** * Further properties of the scripts *)

(** ** Looking a county up by name *)

Section name_lookup.

Import Str.

Lemma upper_char_idem c : upper_char (upper_char c) = upper_char c.
Proof. destruct c as [[] [] [] [] [] [] [] []]; reflexivity. Qed.

Lemma is_space_upper_char c : is_space (upper_char c) = is_space c.
Proof. destruct c as [[] [] [] [] [] [] [] []]; reflexivity. Qed.

Lemma upper_idem s : upper (upper s) = upper s.
Proof.
  unfold upper. rewrite to_of_list, map_map. f_equal.
  apply map_ext, upper_char_idem.
Qed.

Lemma lstrip_list_map_upper l :
  lstrip_list (map upper_char l) = map upper_char (lstrip_list l).
Proof.
  induction l as [|c l IH]; [done|]. cbn [map lstrip_list].
  rewrite is_space_upper_char. by destruct (is_space c).
Qed.

Lemma strip_upper s : strip (upper s) = upper (strip s).
Proof.
  unfold strip, upper. rewrite !to_of_list. f_equal.
  by rewrite lstrip_list_map_upper, <- map_rev, lstrip_list_map_upper, map_rev.
Qed.

Lemma lstrip_list_spaces ws l :
  Forall (λ c, is_space c = true) ws →
  lstrip_list (ws ++ l) = lstrip_list l.
Proof.
  induction 1 as [|c ws Hc _ IH]; [done|].
  cbn [app lstrip_list]. by rewrite Hc.
Qed.

Lemma lstrip_list_all_spaces ws :
  Forall (λ c, is_space c = true) ws → lstrip_list ws = [].
Proof.
  intros H. rewrite <- (app_nil_r ws). by rewrite lstrip_list_spaces.
Qed.

Lemma lstrip_list_app_r l ws :
  lstrip_list l ≠ [] → lstrip_list (l ++ ws) = lstrip_list l ++ ws.
Proof.
  induction l as [|c l IH]; [done|]. cbn [app lstrip_list].
  destruct (is_space c); [apply IH|done].
Qed.

Lemma lstrip_list_spaces_or l :
  lstrip_list l = [] → Forall (λ c, is_space c = true) l.
Proof.
  induction l as [|c l IH]; [constructor|]. cbn [lstrip_list].
  destruct (is_space c) eqn:E; [|done]. intros H. constructor; auto.
Qed.

(** Surrounding white space does not matter to [strip]. *)
Lemma strip_spaces ws1 s ws2 :
  Forall (λ c, is_space c = true) ws1 →
  Forall (λ c, is_space c = true) ws2 →
  strip (of_list (ws1 ++ to_list s ++ ws2)) = strip s.
Proof.
  intros H1 H2. unfold strip. rewrite to_of_list. f_equal.
  rewrite lstrip_list_spaces by done.
  destruct (lstrip_list (to_list s)) as [|c l] eqn:E.
  - apply lstrip_list_spaces_or in E.
    rewrite (lstrip_list_all_spaces (to_list s ++ ws2)); [done|].
    by apply Forall_app.
  - rewrite lstrip_list_app_r by (by rewrite E). rewrite E.
    rewrite rev_app_distr. f_equal.
    apply lstrip_list_spaces. by apply Forall_rev.
Qed.

End name_lookup.

Lemma first_match_sound name features r :
  Fips.first_match name features = PyStr r →
  ∃ feat, feat ∈ features ∧ Str.upper (NAME feat) = name ∧
          r = STATEFP feat +:+ COUNTYFP feat.
Proof.
  induction features as [|feat fs IH]; cbn [Fips.first_match]; [done|].
  case_bool_decide as E.
  - intros [= <-]. exists feat. split; [by left|done].
  - intros (g & Hg & H)%IH. exists g. split; [by right|done].
Qed.

Lemma first_match_None_iff name features :
  Fips.first_match name features = PyNone ↔
  ∀ feat, feat ∈ features → Str.upper (NAME feat) ≠ name.
Proof.
  split; [|apply first_match_None].
  induction features as [|feat fs IH]; cbn [Fips.first_match].
  - intros _ f Hf. by apply elem_of_nil in Hf.
  - case_bool_decide as E; [done|].
    intros H f [->|Hf]%elem_of_cons; [done|by apply IH].
Qed.

Lemma elem_of_california feat features :
  feat ∈ Fips.california features ↔
  Str.startswith (default "" (feat_id feat)) "06" = true ∧ feat ∈ features.
Proof. unfold Fips.california. by rewrite list_elem_of_filter. Qed.

(** X1.  [fips_lookup] does not see the case of the county name nor the
    white space around it. *)
Theorem X1_fips_lookup_ignores_case_and_padding
    (counties : list feature) (s s' : string) (ws1 ws2 : list ascii) :
  Forall (λ c, Str.is_space c = true) ws1 →
  Forall (λ c, Str.is_space c = true) ws2 →
  Str.upper s' = Str.upper s →
  Fips.fips_lookup counties
    (PyStr (Str.of_list (ws1 ++ Str.to_list s' ++ ws2)))
  = Fips.fips_lookup counties (PyStr s).
Proof.
  intros H1 H2 Hs. unfold Fips.fips_lookup. do 2 f_equal.
  rewrite strip_spaces by done.
  by rewrite <- !strip_upper, Hs.
Qed.

Lemma X1_fips_lookup_ignores_case_and_padding_witness :
  Fips.fips_lookup (Fips.california Examples.boundaries)
    (PyStr (Str.of_list ([" "; "009"]%char
                         ++ Str.to_list "sAnTa clara" ++ [" "]%char)))
  = Fips.fips_lookup (Fips.california Examples.boundaries)
      (PyStr "Santa Clara").
Proof.
  apply (X1_fips_lookup_ignores_case_and_padding
           (Fips.california Examples.boundaries)
           "Santa Clara" "sAnTa clara" [" "; "009"]%char [" "]%char).
  - repeat constructor.
  - repeat constructor.
  - reflexivity.
Defined.

(** X2.  For an ASCII county name and boundary features with ASCII names,
    what [fips_lookup] returns comes from a feature kept by the California
    filter: a string result is [STATEFP + COUNTYFP] of the first feature
    whose [id] starts with "06" and whose upper-case name is the trimmed
    upper-case county name; the result is [None] exactly when no such
    feature exists, so a name that only a feature of another state carries
    is not found. *)
Theorem X2_fips_lookup_result (features : list feature) (s : string) :
  Str.is_ascii s = true →
  (∀ feat, feat ∈ features → Str.is_ascii (NAME feat) = true) →
  (∀ r, Fips.fips_lookup (Fips.california features) (PyStr s)
        = Ok (PyStr r) →
     ∃ feat, feat ∈ features ∧
       Str.startswith (default "" (feat_id feat)) "06" = true ∧
       Str.upper (NAME feat) = Str.upper (Str.strip s) ∧
       r = STATEFP feat +:+ COUNTYFP feat) ∧
  (Fips.fips_lookup (Fips.california features) (PyStr s) = Ok PyNone ↔
   ∀ feat, feat ∈ features →
     Str.startswith (default "" (feat_id feat)) "06" = true →
     Str.upper (NAME feat) ≠ Str.upper (Str.strip s)) ∧
  (∀ before feat after,
     features = before ++ feat :: after →
     Str.startswith (default "" (feat_id feat)) "06" = true →
     Str.upper (NAME feat) = Str.upper (Str.strip s) →
     (∀ g, g ∈ before →
        Str.startswith (default "" (feat_id g)) "06" = true →
        Str.upper (NAME g) ≠ Str.upper (Str.strip s)) →
     Fips.fips_lookup (Fips.california features) (PyStr s)
     = Ok (PyStr (STATEFP feat +:+ COUNTYFP feat))).
Proof.
  intros _ _. unfold Fips.fips_lookup. split_and!.
  - intros r [= (f & Hf & Hn & ->)%first_match_sound].
    apply elem_of_california in Hf as [Hid Hf]. by exists f.
  - split.
    + intros [= H] f Hf Hid. rewrite first_match_None_iff in H.
      apply H. by apply elem_of_california.
    + intros H. f_equal. apply first_match_None.
      intros f [Hid Hf]%elem_of_california. by apply H.
  - intros before feat after -> Hid Hname Hbefore. f_equal.
    unfold Fips.california. rewrite filter_app, filter_cons_True by done.
    induction before as [|g before IH]; cbn [app].
    + rewrite filter_nil. cbn [app Fips.first_match].
      by rewrite bool_decide_eq_true_2.
    + rewrite filter_cons.
      destruct (decide _) as [Hg|Hg].
      * cbn [app Fips.first_match].
        rewrite bool_decide_eq_false_2
          by (apply Hbefore; [by left|done]).
        apply IH. intros g' Hg'. apply Hbefore. by right.
      * apply IH. intros g' Hg'. apply Hbefore. by right.
Qed.

Lemma boundaries_all_ascii feat :
  feat ∈ Examples.boundaries → Str.is_ascii (NAME feat) = true.
Proof.
  unfold Examples.boundaries.
  intros [->|[->|[->|?%elem_of_nil]%elem_of_cons]%elem_of_cons]%elem_of_cons;
    done.
Qed.

Lemma X2_fips_lookup_result_witness :
  Fips.fips_lookup (Fips.california Examples.boundaries) (PyStr "Churchill")
  = Ok PyNone.
Proof.
  apply (X2_fips_lookup_result Examples.boundaries "Churchill").
  - reflexivity.
  - exact boundaries_all_ascii.
  - intros feat Hin Hid.
    unfold Examples.boundaries in Hin.
    apply elem_of_cons in Hin as [->|Hin]; [done|].
    apply elem_of_cons in Hin as [->|Hin]; [done|].
    apply elem_of_cons in Hin as [->|Hin]; [done|].
    by apply elem_of_nil in Hin.
Defined.

(** ** The identifier, whatever the input *)

Section identifier.

Import Str.

Lemma length_app_string s1 s2 :
  String.length (s1 +:+ s2) = String.length s1 + String.length s2.
Proof. by rewrite <- !length_to_list, to_list_app, length_app. Qed.

Lemma length_zeros n : String.length (zeros n) = n.
Proof.
  unfold zeros. by rewrite <- length_to_list, to_of_list, length_replicate.
Qed.

Lemma length_of_list l : String.length (of_list l) = length l.
Proof. by rewrite <- length_to_list, to_of_list. Qed.

Lemma zeros_0_app s : zeros 0 +:+ s = s.
Proof. reflexivity. Qed.

(** [zfill] never shortens, and leaves a string that is long enough as it
    is. *)
Lemma length_zfill width s :
  String.length (zfill width s) = width `max` String.length s.
Proof.
  unfold zfill. destruct s as [|c s].
  - rewrite length_zeros. cbn [String.length]. lia.
  - destruct (is_sign c); cbn [String.length];
      rewrite ?length_app_string, length_zeros; cbn [String.length]; lia.
Qed.

Lemma zfill_long width s : width ≤ String.length s → zfill width s = s.
Proof.
  intros H. unfold zfill.
  replace (width - String.length s) with 0 by lia.
  destruct s as [|c s]; [done|]. by destruct (is_sign c).
Qed.

Lemma startswith_app p s : startswith (p +:+ s) p = true.
Proof.
  unfold startswith. induction p as [|c p IH].
  - by destruct s.
  - cbn [String.prefix]. change (String c p +:+ s) with (String c (p +:+ s)).
    cbn [String.prefix]. by destruct (ascii_dec c c).
Qed.

Lemma repair_shape x :
  5 ≤ String.length x →
  startswith (Fips.repair x) "06" = true ∧ 5 ≤ String.length (Fips.repair x).
Proof.
  intros Hlen. unfold Fips.repair.
  destruct (startswith x "06") eqn:E; [done|]. split.
  - apply startswith_app.
  - rewrite length_app_string. unfold suffix_from.
    rewrite length_of_list, length_drop, length_to_list.
    cbn [String.length]. lia.
Qed.

Lemma repair_fixed x : startswith x "06" = true → Fips.repair x = x.
Proof. intros H. unfold Fips.repair. by rewrite H. Qed.

End identifier.

Lemma repaired_map (c : list pyobj) :
  Fips.apply_repair (Fips.astype_str_zfill c)
  = map (λ x, PyStr (Fips.normalize x)) c.
Proof.
  unfold Fips.apply_repair, Fips.astype_str_zfill. rewrite map_map.
  by apply map_ext.
Qed.

Lemma normalize_shape x :
  Str.startswith (Fips.normalize x) "06" = true ∧
  5 ≤ String.length (Fips.normalize x).
Proof.
  apply repair_shape. rewrite length_zfill. lia.
Qed.

Lemma normalize_idem x :
  Fips.normalize (PyStr (Fips.normalize x)) = Fips.normalize x.
Proof.
  destruct (normalize_shape x) as [H06 Hlen].
  unfold Fips.normalize at 1. cbn [py_str].
  rewrite zfill_long by exact Hlen. by apply repair_fixed.
Qed.

Lemma map_normalize_idem (c : list pyobj) :
  map (λ x, PyStr (Fips.normalize x)) (map (λ x, PyStr (Fips.normalize x)) c)
  = map (λ x, PyStr (Fips.normalize x)) c.
Proof.
  rewrite map_map. apply map_ext. intros x. by rewrite normalize_idem.
Qed.

Lemma AppCa_ensure_fips_Ok counties df c :
  AppCa.raw_ids counties df = Ok c →
  AppCa.ensure_fips counties df
  = Ok (set_obj "fips" (map (λ x, PyStr (Fips.normalize x)) c) df).
Proof.
  intros Hc. by rewrite AppCa_ensure_fips, Hc, bind_Ok_l, repaired_map.
Qed.

Lemma Cali_ensure_fips_Ok counties df c :
  Cali.raw_ids counties df = Ok c →
  Cali.ensure_fips counties df
  = Ok (set_obj "fips" (map (λ x, PyStr (Fips.normalize x)) c) df).
Proof.
  intros Hc. by rewrite Cali_ensure_fips, Hc, bind_Ok_l, repaired_map.
Qed.

Lemma obj_set_obj_eq k c df : obj (set_obj k c df) !! k = Some c.
Proof. unfold set_obj. cbn [obj]. apply lookup_insert_eq. Qed.

Lemma obj_set_obj_ne k k' c df :
  k ≠ k' → obj (set_obj k c df) !! k' = obj df !! k'.
Proof. intros H. unfold set_obj. cbn [obj]. by apply lookup_insert_ne. Qed.

(** Running the identifier step on its own result changes nothing. *)
Lemma AppCa_ensure_fips_again counties df c :
  AppCa.raw_ids counties df = Ok c →
  let df1 := set_obj "fips" (map (λ x, PyStr (Fips.normalize x)) c) df in
  AppCa.ensure_fips counties df1 = Ok df1.
Proof.
  intros Hc df1.
  assert (AppCa.raw_ids counties df1 = Ok c ∨
          AppCa.raw_ids counties df1
          = Ok (map (λ x, PyStr (Fips.normalize x)) c)) as Hraw.
  { unfold AppCa.raw_ids in *. unfold df1.
    rewrite obj_set_obj_ne by done.
    destruct (obj df !! "GEOID") as [g|]; [by left|].
    right. by rewrite obj_set_obj_eq. }
  destruct Hraw as [Hraw|Hraw];
    rewrite (AppCa_ensure_fips_Ok _ _ _ Hraw); unfold df1;
    by rewrite ?map_normalize_idem, set_obj_set_obj.
Qed.

Lemma Cali_ensure_fips_again counties df c :
  Cali.raw_ids counties df = Ok c →
  let df1 := set_obj "fips" (map (λ x, PyStr (Fips.normalize x)) c) df in
  Cali.ensure_fips counties df1 = Ok df1.
Proof.
  intros Hc df1.
  assert (Cali.raw_ids counties df1
          = Ok (map (λ x, PyStr (Fips.normalize x)) c)) as Hraw.
  { unfold Cali.raw_ids, df1. by rewrite obj_set_obj_eq. }
  rewrite (Cali_ensure_fips_Ok _ _ _ Hraw). unfold df1.
  by rewrite map_normalize_idem, set_obj_set_obj.
Qed.

(** X3.  Whatever the identifiers a script starts from (strings of any
    length, with or without a sign, or integers; none missing), the [fips]
    column it stores has one string per row, each starting with "06" and of
    at least five characters, and running the identifier step again on the
    table it returned changes nothing.  This holds for [app_ca.py] and for
    [src/cali.py]. *)
Theorem X3_identifier_normal_form
    (counties : list feature) (df : DataFrame) (c : list pyobj) :
  Forall (λ x, x ≠ PyNone) c →
  (AppCa.raw_ids counties df = Ok c →
     ∃ (df1 : DataFrame) (ids : list string),
       AppCa.ensure_fips counties df = Ok df1 ∧
       obj df1 !! "fips" = Some (map PyStr ids) ∧
       length ids = length c ∧
       Forall (λ s, Str.startswith s "06" = true ∧ 5 ≤ String.length s) ids ∧
       AppCa.ensure_fips counties df1 = Ok df1) ∧
  (Cali.raw_ids counties df = Ok c →
     ∃ (df1 : DataFrame) (ids : list string),
       Cali.ensure_fips counties df = Ok df1 ∧
       obj df1 !! "fips" = Some (map PyStr ids) ∧
       length ids = length c ∧
       Forall (λ s, Str.startswith s "06" = true ∧ 5 ≤ String.length s) ids ∧
       Cali.ensure_fips counties df1 = Ok df1).
Proof.
  intros _.
  assert (Forall (λ s, Str.startswith s "06" = true ∧ 5 ≤ String.length s)
            (map Fips.normalize c)) as Hshape.
  { apply Forall_fmap, Forall_forall. intros x _. apply normalize_shape. }
  split; intros Hc;
    exists (set_obj "fips" (map (λ x, PyStr (Fips.normalize x)) c) df),
           (map Fips.normalize c).
  - split_and!.
    + by apply AppCa_ensure_fips_Ok.
    + by rewrite obj_set_obj_eq, map_map.
    + by rewrite length_map.
    + done.
    + by apply AppCa_ensure_fips_again.
  - split_and!.
    + by apply Cali_ensure_fips_Ok.
    + by rewrite obj_set_obj_eq, map_map.
    + by rewrite length_map.
    + done.
    + by apply Cali_ensure_fips_again.
Qed.

Lemma X3_identifier_normal_form_witness :
  ∃ (df1 : DataFrame) (ids : list string),
    AppCa.ensure_fips [] (Examples.with_fips Examples.codes
                            (λ _, Examples.col123)) = Ok df1 ∧
    obj df1 !! "fips" = Some (map PyStr ids) ∧
    length ids = length Examples.codes ∧
    Forall (λ s, Str.startswith s "06" = true ∧ 5 ≤ String.length s) ids ∧
    AppCa.ensure_fips [] df1 = Ok df1.
Proof.
  apply (X3_identifier_normal_form []
           (Examples.with_fips Examples.codes (λ _, Examples.col123))
           Examples.codes).
  - repeat constructor; done.
  - reflexivity.
Defined.

(** ** C8: the identifier *)

Lemma normalize_short s :
  Str.signed s = false → String.length s ≤ 5 →
  Str.zfill 5 s = Str.zeros (5 - String.length s) +:+ s ∧
  String.length (Str.zfill 5 s) = 5 ∧
  Fips.repair (Str.zfill 5 s) = Fips.spec_normalize s ∧
  Str.suffix_from 3 (Fips.repair (Str.zfill 5 s))
  = Str.suffix_from 3 (Str.zfill 5 s) ∧
  String.length (Fips.repair (Str.zfill 5 s)) = 5.
Proof.
  intros Hsign Hlen.
  pose proof (length_zfill_unsigned _ Hsign Hlen) as Hp.
  destruct (suffix_from_repair _ Hp) as (H1 & H2 & H3).
  pose proof (zfill_unsigned 5 s Hsign) as Hz.
  split_and!; try done.
  unfold Fips.repair, Fips.spec_normalize. cbv zeta. rewrite <- Hz.
  by rewrite (suffix_from_5 _ Hp).
Qed.

(** C8, as amended.  When the identifiers are there and none is missing,
    both scripts store in the [fips] column, row by row, the normalised
    identifier, a string that starts with "06" and has at least five
    characters.  For an identifier of at most five characters without a
    sign the normalisation is the rule of the specification: the identifier
    is padded on the left with zeros to five characters and, when the padded
    string does not start with "06", its two leading characters are replaced
    by "06", the three trailing characters being kept.  So "001" and the
    integer 6001 both become "06001", and "06085" stays as it is. *)
Theorem C8_identifier_normalization
    (counties : list feature) (df : DataFrame) (g : list pyobj) :
  Forall (λ x, x ≠ PyNone) g →
  (AppCa.raw_ids counties df = Ok g →
     AppCa.ensure_fips counties df
     = Ok (set_obj "fips" (map (λ x, PyStr (Fips.normalize x)) g) df)) ∧
  (Cali.raw_ids counties df = Ok g →
     Cali.ensure_fips counties df
     = Ok (set_obj "fips" (map (λ x, PyStr (Fips.normalize x)) g) df)) ∧
  Forall (λ x,
    let s := py_str x in
    let p := Str.zfill 5 s in
    Str.startswith (Fips.normalize x) "06" = true ∧
    5 ≤ String.length (Fips.normalize x) ∧
    (Str.signed s = false → String.length s ≤ 5 →
       p = Str.zeros (5 - String.length s) +:+ s ∧
       String.length p = 5 ∧
       Fips.normalize x
         = (if Str.startswith p "06" then p
            else "06" +:+ Str.of_list (drop 2 (Str.to_list p))) ∧
       Fips.normalize x = Fips.spec_normalize s ∧
       Str.suffix_from 3 (Fips.normalize x) = Str.suffix_from 3 p ∧
       String.length (Fips.normalize x) = 5)) g ∧
  Fips.normalize (PyStr "001") = "06001" ∧
  Fips.normalize (PyInt 6001) = "06001" ∧
  Fips.normalize (PyStr "06085") = "06085".
Proof.
  intros _. split_and!.
  - apply AppCa_ensure_fips_Ok.
  - apply Cali_ensure_fips_Ok.
  - apply Forall_forall. intros x _. cbv zeta. split_and!.
    + apply normalize_shape.
    + apply normalize_shape.
    + intros Hsign Hlen.
      destruct (normalize_short _ Hsign Hlen) as (H1 & H2 & H3 & H4 & H5).
      split_and!; try done.
      unfold Fips.normalize. rewrite H3.
      unfold Fips.spec_normalize. cbv zeta. by rewrite <- H1.
  - reflexivity.
  - reflexivity.
  - reflexivity.
Qed.

Lemma C8_identifier_normalization_witness :
  AppCa.ensure_fips []
    (Examples.with_fips Examples.codes (λ _, Examples.col123))
  = Ok (set_obj "fips"
          [PyStr "06001"; PyStr "06001"; PyStr "06085"]
          (Examples.with_fips Examples.codes (λ _, Examples.col123))) ∧
  Cali.ensure_fips []
    (Examples.with_fips Examples.codes (λ _, Examples.col123))
  = Ok (set_obj "fips"
          [PyStr "06001"; PyStr "06001"; PyStr "06085"]
          (Examples.with_fips Examples.codes (λ _, Examples.col123))).
Proof.
  destruct (C8_identifier_normalization []
              (Examples.with_fips Examples.codes (λ _, Examples.col123))
              Examples.codes) as (Ha & Hc & _).
  - repeat constructor; done.
  - split; [exact (Ha eq_refl)|exact (Hc eq_refl)].
Defined.

(** C8, as stated, fails on an identifier of more than five characters: a
    [GEOID] of 1234567 is not padded, and the repair does not put "06" in
    the place of its two leading characters, which would give "0634567";
    [app_ca.py] stores "06567".  It also fails on an identifier with a
    sign, where the zeros go after the sign: -12 becomes "06012", not
    "06-12". *)
Lemma C8_long_identifier_counterexample :
  AppCa.ensure_fips [] Examples.long_geoid
    = Ok (set_obj "fips" [PyStr "06567"] Examples.long_geoid) ∧
  Fips.normalize (PyInt 1234567) = "06567" ∧
  Fips.spec_normalize (py_str (PyInt 1234567)) = "0634567" ∧
  Fips.normalize (PyInt 1234567)
    ≠ Fips.spec_normalize (py_str (PyInt 1234567)) ∧
  Fips.normalize (PyInt (-12)) = "06012" ∧
  Fips.spec_normalize (py_str (PyInt (-12))) = "06-12".
Proof.
  split_and!; [reflexivity..|done|reflexivity|reflexivity].
Qed.

(** ** What makes the scripts fail *)

Section failures.

Import Score.

Lemma add_terms_missing df acc ts :
  (∃ kw, kw ∈ ts ∧ num df !! kw.1 = None) →
  ∃ k, k ∈ ts.*1 ∧ num df !! k = None ∧
       add_terms df acc ts = Raise (KeyError k).
Proof.
  revert acc. induction ts as [|[k wk] ts IH]; intros acc (kw & Hin & Hkw).
  { by apply elem_of_nil in Hin. }
  cbn [add_terms]. unfold get_num.
  destruct (num df !! k) as [z|] eqn:Hk.
  - rewrite bind_Ok_l.
    apply elem_of_cons in Hin as [->|Hin]; [cbn in Hkw; congruence|].
    destruct (IH (Stats.add_series acc (Stats.mul_scalar z (Some wk))))
      as (k' & Hk' & Hnone & Hr); [by exists kw|].
    exists k'. split; [by right|done].
  - exists k. split; [by left|done].
Qed.

Lemma weighted_sum_missing df ts :
  (∃ kw, kw ∈ ts ∧ num df !! kw.1 = None) →
  ∃ k, k ∈ ts.*1 ∧ num df !! k = None ∧
       weighted_sum df ts = Raise (KeyError k).
Proof.
  destruct ts as [|[k wk] ts]; intros (kw & Hin & Hkw).
  { by apply elem_of_nil in Hin. }
  cbn [weighted_sum]. unfold get_num.
  destruct (num df !! k) as [z|] eqn:Hk.
  - rewrite bind_Ok_l.
    apply elem_of_cons in Hin as [->|Hin]; [cbn in Hkw; congruence|].
    destruct (add_terms_missing df (Stats.mul_scalar z (Some wk)) ts)
      as (k' & Hk' & Hnone & Hr); [by exists kw|].
    exists k'. split; [by right|done].
  - exists k. split; [by left|done].
Qed.

Lemma terms_keys w k :
  k ∈ (terms w).*1 → ∃ c, c ∈ AppCa.indicators ∧ k = Z_ c.
Proof.
  rewrite terms_Z. intros ([k' wk] & -> & Hin)%list_elem_of_fmap.
  apply list_elem_of_fmap in Hin as ([c wk'] & [= -> ->] & Hin).
  apply elem_of_zip_l in Hin. by exists c.
Qed.

Lemma traverse_fips_lookup_error counties names x :
  x ∈ names → (∀ s, x ≠ PyStr s) →
  traverse (Fips.fips_lookup counties) names = Raise AttributeError.
Proof.
  intros Hin Hx. induction names as [|y names IH].
  { by apply elem_of_nil in Hin. }
  cbn [traverse]. destruct y as [|s|n]; try done.
  apply elem_of_cons in Hin as [->|Hin]; [by destruct (Hx s)|].
  cbn [Fips.fips_lookup]. rewrite bind_Ok_l, (IH Hin). done.
Qed.

End failures.

(** X4.  A CSV that lacks one of the nine indicator columns (and has no
    column already named [Z_] after it) makes both scripts end in a
    [KeyError] on a [Z_] column of a missing indicator, once the identifiers
    and the weights are there: the [Z_] loop skips the column and the
    [UOI_custom] expression then reads it. *)
Theorem X4_missing_indicator_column
    (features : list feature) (p : preset) (slider : string → R)
    (df : DataFrame) (ids : list pyobj) (w : weights) (c : string) :
  obj df !! "GEOID" = None →
  obj df !! "fips" = Some ids →
  Weights.resolve (Weights.choose p slider) = Ok w →
  c ∈ AppCa.indicators →
  num df !! c = None →
  num df !! Score.Z_ c = None →
  ∃ c', c' ∈ AppCa.indicators ∧ num df !! c' = None ∧
    AppCa.run features p slider df = Raise (KeyError (Score.Z_ c')) ∧
    Cali.run features p slider df = Raise (KeyError (Score.Z_ c')).
Proof.
  intros HG Hf Hw Hc Hcol HZ.
  destruct (zip_weight w c Hc) as [wk Hwk].
  destruct (weighted_sum_missing (AppCa.standardize df) (Score.terms w))
    as (k & Hk & Hnone & Hr).
  { exists (Score.Z_ c, wk). split.
    - rewrite terms_Z. apply list_elem_of_fmap. by exists (c, wk).
    - cbn [fst]. by rewrite (standardize_lookup df c Hc), Hcol. }
  apply terms_keys in Hk as (c' & Hc' & ->).
  rewrite (standardize_lookup df c' Hc') in Hnone.
  exists c'. split; [done|].
  destruct (num df !! c') eqn:E; [done|]. split; [done|].
  assert (AppCa.raw_ids (Fips.california features) df = Ok ids) as Ha.
  { unfold AppCa.raw_ids. by rewrite HG, Hf. }
  assert (Cali.raw_ids (Fips.california features) df = Ok ids) as Hca.
  { unfold Cali.raw_ids. by rewrite Hf. }
  split.
  - by rewrite AppCa_run, Ha, bind_Ok_l, Hw, bind_Ok_l, Hr.
  - by rewrite Cali_run, Hca, bind_Ok_l, Hw, bind_Ok_l, Hr.
Qed.

Lemma X4_missing_indicator_column_witness :
  ∃ c', c' ∈ AppCa.indicators ∧
    num (mkDataFrame {[ "fips" := Examples.AB ]}
           {[ "Median_Household_Income" := Examples.col123 ]}) !! c' = None ∧
    AppCa.run [] IncomeHeavy (λ _, 0%R)
      (mkDataFrame {[ "fips" := Examples.AB ]}
         {[ "Median_Household_Income" := Examples.col123 ]})
      = Raise (KeyError (Score.Z_ c')) ∧
    Cali.run [] IncomeHeavy (λ _, 0%R)
      (mkDataFrame {[ "fips" := Examples.AB ]}
         {[ "Median_Household_Income" := Examples.col123 ]})
      = Raise (KeyError (Score.Z_ c')).
Proof.
  destruct (resolve_preset IncomeHeavy (λ _, 0%R)) as [w Hw]; [done|].
  apply (X4_missing_indicator_column [] IncomeHeavy (λ _, 0%R)
           (mkDataFrame {[ "fips" := Examples.AB ]}
              {[ "Median_Household_Income" := Examples.col123 ]})
           Examples.AB w "Gini_Index").
  - reflexivity.
  - reflexivity.
  - exact Hw.
  - repeat constructor.
  - reflexivity.
  - reflexivity.
Defined.

(** X5.  Without [GEOID] and [fips] columns the identifiers come from the
    [County] column: a table that has no [County] column either ends in
    [KeyError('County')], and a [County] cell that is not a string (a missing
    name) ends in [AttributeError], in both scripts and before any weight
    is looked at. *)
Theorem X5_identifier_failures
    (features : list feature) (p : preset) (slider : string → R)
    (df : DataFrame) :
  obj df !! "GEOID" = None →
  obj df !! "fips" = None →
  (obj df !! "County" = None →
     AppCa.run features p slider df = Raise (KeyError "County") ∧
     Cali.run features p slider df = Raise (KeyError "County")) ∧
  (∀ names x,
     obj df !! "County" = Some names →
     x ∈ names → (∀ s, x ≠ PyStr s) →
     AppCa.run features p slider df = Raise AttributeError ∧
     Cali.run features p slider df = Raise AttributeError).
Proof.
  intros HG Hf. split.
  - intros Hn. rewrite AppCa_run, Cali_run.
    unfold AppCa.raw_ids, Cali.raw_ids, get_obj. by rewrite HG, Hf, Hn.
  - intros names x Hn Hx Hstr. rewrite AppCa_run, Cali_run.
    rewrite (AppCa_raw_ids_County _ df names HG Hf Hn).
    rewrite (Cali_raw_ids_County _ df names Hf Hn).
    by rewrite (traverse_fips_lookup_error _ names x Hx Hstr).
Qed.

Lemma X5_identifier_failures_witness :
  (AppCa.run Examples.boundaries Even (λ _, 0%R) Examples.income_only
     = Raise (KeyError "County") ∧
   Cali.run Examples.boundaries Even (λ _, 0%R) Examples.income_only
     = Raise (KeyError "County")) ∧
  (AppCa.run Examples.boundaries Even (λ _, 0%R)
     (Examples.with_names [PyStr "Alameda"; PyNone] (λ _, Examples.col123))
     = Raise AttributeError ∧
   Cali.run Examples.boundaries Even (λ _, 0%R)
     (Examples.with_names [PyStr "Alameda"; PyNone] (λ _, Examples.col123))
     = Raise AttributeError).
Proof.
  split.
  - apply (X5_identifier_failures Examples.boundaries Even (λ _, 0%R)
             Examples.income_only); reflexivity.
  - destruct (X5_identifier_failures Examples.boundaries Even (λ _, 0%R)
                (Examples.with_names [PyStr "Alameda"; PyNone]
                   (λ _, Examples.col123)) eq_refl eq_refl) as [_ H].
    apply (H [PyStr "Alameda"; PyNone] PyNone).
    + reflexivity.
    + repeat constructor.
    + done.
Defined.

(** ** Which column the identifiers come from *)

(** X6.  When the CSV has both a [GEOID] and a [fips] column, [app_ca.py]
    makes the identifiers from [GEOID] and overwrites [fips], while
    [src/cali.py] never looks at [GEOID] and normalises [fips]. *)
Theorem X6_identifier_source
    (features : list feature) (p : preset) (slider : string → R)
    (df a c : DataFrame) (g f : list pyobj) :
  obj df !! "GEOID" = Some g →
  obj df !! "fips" = Some f →
  AppCa.run features p slider df = Ok a →
  Cali.run features p slider df = Ok c →
  let ids := map (λ x, PyStr (Fips.normalize x)) g in
  obj a !! "fips" = Some (select (AppCa.alpine_mask ids) ids) ∧
  obj c !! "fips" = Some (map (λ x, PyStr (Fips.normalize x)) f) ∧
  obj c !! "GEOID" = Some g.
Proof.
  intros Hg Hf.
  intros (c1 & w1 & u1 & Hc1 & _ & _ & ->)%AppCa_run_inv.
  intros (c2 & w2 & u2 & Hc2 & _ & _ & ->)%Cali_run_inv.
  unfold AppCa.raw_ids in Hc1. rewrite Hg in Hc1. injection Hc1 as <-.
  unfold Cali.raw_ids in Hc2. rewrite Hf in Hc2. injection Hc2 as <-.
  cbv zeta. rewrite !repaired_map. split_and!.
  - rewrite obj_select_rows. unfold set_num, set_obj. cbn [obj].
    by rewrite lookup_insert_eq.
  - unfold set_num, set_obj. cbn [obj]. by rewrite lookup_insert_eq.
  - unfold set_num, set_obj. cbn [obj].
    rewrite lookup_insert_ne by done. by rewrite standardize_obj.
Qed.

Lemma with_geoid_complete :
  AppCa.complete Examples.with_geoid (λ _, Examples.col123).
Proof. intros c Hc. by apply (nine_lookup (λ _, Examples.col123)). Qed.

Lemma X6_identifier_source_witness :
  ∃ a c : DataFrame,
    AppCa.run [] Even (λ _, 0%R) Examples.with_geoid = Ok a ∧
    Cali.run [] Even (λ _, 0%R) Examples.with_geoid = Ok c ∧
    let ids := map (λ x, PyStr (Fips.normalize x))
                   [PyInt 6001; PyInt 6075; PyInt 6085] in
    obj a !! "fips" = Some (select (AppCa.alpine_mask ids) ids) ∧
    obj c !! "fips"
      = Some (map (λ x, PyStr (Fips.normalize x))
                  [PyStr "013"; PyStr "041"; PyStr "055"]) ∧
    obj c !! "GEOID" = Some [PyInt 6001; PyInt 6075; PyInt 6085].
Proof.
  destruct (resolve_Even (λ _, 0%R)) as [w Hw].
  destruct (weighted_sum_complete _ _ w with_geoid_complete) as [u Hu].
  assert (AppCa.run [] Even (λ _, 0%R) Examples.with_geoid
          = Ok (select_rows
                  (AppCa.alpine_mask
                     (Fips.apply_repair (Fips.astype_str_zfill
                        [PyInt 6001; PyInt 6075; PyInt 6085])))
                  (set_num "UOI_custom" u
                     (set_obj "fips"
                        (Fips.apply_repair (Fips.astype_str_zfill
                           [PyInt 6001; PyInt 6075; PyInt 6085]))
                        (AppCa.standardize Examples.with_geoid))))) as Ha.
  { rewrite AppCa_run.
    change (AppCa.raw_ids (Fips.california []) Examples.with_geoid)
      with (Ok [PyInt 6001; PyInt 6075; PyInt 6085] : result (list pyobj)).
    by rewrite bind_Ok_l, Hw, bind_Ok_l, Hu, bind_Ok_l. }
  assert (Cali.run [] Even (λ _, 0%R) Examples.with_geoid
          = Ok (set_num "UOI_custom" u
                  (set_obj "fips"
                     (Fips.apply_repair (Fips.astype_str_zfill
                        [PyStr "013"; PyStr "041"; PyStr "055"]))
                     (AppCa.standardize Examples.with_geoid)))) as Hc.
  { rewrite Cali_run.
    change (Cali.raw_ids (Fips.california []) Examples.with_geoid)
      with (Ok [PyStr "013"; PyStr "041"; PyStr "055"] : result (list pyobj)).
    by rewrite bind_Ok_l, Hw, bind_Ok_l, Hu, bind_Ok_l. }
  eexists _, _. split; [exact Ha|]. split; [exact Hc|].
  apply (X6_identifier_source [] Even (λ _, 0%R) Examples.with_geoid _ _
           [PyInt 6001; PyInt 6075; PyInt 6085]
           [PyStr "013"; PyStr "041"; PyStr "055"]
           eq_refl eq_refl Ha Hc).
Defined.

(** ** Standardising twice *)

Lemma DataFrame_eq df1 df2 :
  obj df1 = obj df2 → num df1 = num df2 → df1 = df2.
Proof. destruct df1, df2. cbn. by intros -> ->. Qed.

Lemma indicator_not_Z c c' : c ∈ AppCa.indicators → c ≠ Score.Z_ c'.
Proof. apply plain_not_Z, indicators_plain. Qed.

(** X7.  The [Z_] loops only add or overwrite [Z_] columns of the nine
    indicators, and running them a second time on their own result changes
    nothing. *)
Theorem X7_standardize_idempotent (df : DataFrame) :
  AppCa.standardize (AppCa.standardize df) = AppCa.standardize df ∧
  Cali.standardize (Cali.standardize df) = Cali.standardize df ∧
  obj (AppCa.standardize df) = obj df ∧
  (∀ k, k ∉ map Score.Z_ AppCa.indicators →
     num (AppCa.standardize df) !! k = num df !! k).
Proof.
  assert (∀ k, k ∉ map Score.Z_ AppCa.indicators →
            ∀ df', num (AppCa.standardize df') !! k = num df' !! k) as Hother.
  { intros k Hk df'. apply standardize_other. intros c Hc ->.
    apply Hk. apply list_elem_of_fmap. by exists c. }
  assert (AppCa.standardize (AppCa.standardize df) = AppCa.standardize df)
    as Hidem.
  { apply DataFrame_eq; [by rewrite !standardize_obj|].
    apply map_eq. intros k.
    destruct (decide (k ∈ map Score.Z_ AppCa.indicators)) as [Hk|Hk].
    - apply list_elem_of_fmap in Hk as (c & -> & Hc).
      rewrite (standardize_lookup (AppCa.standardize df) c Hc).
      rewrite (standardize_other df c)
        by (intros c' _; by apply indicator_not_Z).
      rewrite (standardize_lookup df c Hc).
      by destruct (num df !! c).
    - by rewrite Hother. }
  split_and!; [done| |apply standardize_obj|].
  - pose proof (standardize_Cali_AppCa (Cali.standardize df)) as ->.
    pose proof (standardize_Cali_AppCa df) as ->. exact Hidem.
  - intros k Hk. by apply Hother.
Qed.

Lemma X7_standardize_idempotent_witness :
  num (AppCa.standardize Examples.income_only) !! "Median_Household_Income"
  = num Examples.income_only !! "Median_Household_Income".
Proof.
  apply (X7_standardize_idempotent Examples.income_only).
  intros Hin.
  repeat (apply elem_of_cons in Hin as [Hin|Hin]; [done|]).
  by apply elem_of_nil in Hin.
Defined.

(** ** Only the proportions of the weights matter *)

Section scaling.

Import Weights.
Local Open Scope R_scope.

Lemma py_sum_scale c w : py_sum (map (Rmult c) w) = c * py_sum w.
Proof.
  rewrite !py_sum_Rsum. unfold Stats.Rsum.
  induction w as [|x w IH]; cbn [map foldr]; [lra|]. rewrite IH. lra.
Qed.

Lemma resolve_scale c w : c ≠ 0 → resolve (map (Rmult c) w) = resolve w.
Proof.
  intros Hc. rewrite !resolve_cases. destruct w as [|x w]; [done|].
  change (map (Rmult c) (x :: w)) with (c * x :: map (Rmult c) w).
  change (c * x :: map (Rmult c) w) with (map (Rmult c) (x :: w)).
  rewrite py_sum_scale.
  destruct (Req_dec_T (py_sum (x :: w)) 0) as [E|E].
  - rewrite E, Rmult_0_r. by destruct (Req_dec_T 0 0).
  - destruct (Req_dec_T (c * py_sum (x :: w)) 0) as [E'|E'].
    { apply Rmult_integral in E' as [?|?]; done. }
    f_equal. rewrite map_map. apply map_ext. intros wi. by field.
Qed.

End scaling.

(** X8.  Multiplying every weight by the same nonzero number changes
    nothing: the normalised weights are the same, and so is whatever the
    scripts return for custom sliders scaled that way. *)
Theorem X8_weights_scale_invariant
    (c : R) (w : list R) (features : list feature)
    (slider : string → R) (df : DataFrame) :
  c ≠ 0%R →
  Weights.resolve (map (Rmult c) w) = Weights.resolve w ∧
  AppCa.run features Custom (λ l, c * slider l)%R df
    = AppCa.run features Custom slider df ∧
  Cali.run features Custom (λ l, c * slider l)%R df
    = Cali.run features Custom slider df.
Proof.
  intros Hc. split; [by apply resolve_scale|].
  assert (Weights.resolve (Weights.choose Custom (λ l, c * slider l)%R)
          = Weights.resolve (Weights.choose Custom slider)) as Hr.
  { change (Weights.choose Custom (λ l, c * slider l)%R)
      with (map (λ l, c * slider l)%R Weights.labels).
    change (Weights.choose Custom slider) with (map slider Weights.labels).
    rewrite <- (resolve_scale c (map slider Weights.labels) Hc).
    by rewrite map_map. }
  by rewrite !AppCa_run, !Cali_run, Hr.
Qed.

Lemma X8_weights_scale_invariant_witness :
  Weights.resolve (map (Rmult 2) [1; 3]%R) = Weights.resolve [1; 3]%R ∧
  AppCa.run [] Custom (λ l, 2 * Examples.income_slider l)%R
    Examples.constant_gini
    = AppCa.run [] Custom Examples.income_slider Examples.constant_gini ∧
  Cali.run [] Custom (λ l, 2 * Examples.income_slider l)%R
    Examples.constant_gini
    = Cali.run [] Custom Examples.income_slider Examples.constant_gini.
Proof.
  apply (X8_weights_scale_invariant 2 [1; 3]%R [] Examples.income_slider
           Examples.constant_gini).
  lra.
Defined.

(** ** The unit of an indicator does not matter *)

Section units.

Import Stats.
Local Open Scope R_scope.

(** [a * x + b] on every value of a column. *)
Lemma dropna_affine (f : R → R) s :
  dropna (map (option_map f) s) = map f (dropna s).
Proof. induction s as [|[x|] s IH]; cbn; by rewrite ?IH. Qed.

Lemma Rsum_affine a b xs :
  Rsum (map (λ x, a * x + b) xs) = a * Rsum xs + INR (length xs) * b.
Proof.
  unfold Rsum. induction xs as [|x xs IH]; [simpl; lra|].
  cbn [map foldr length]. rewrite S_INR, IH. lra.
Qed.

Lemma sqdev_affine a b m xs :
  sqdev (a * m + b) (map (λ x, a * x + b) xs) = a * a * sqdev m xs.
Proof.
  unfold sqdev, Rsum. induction xs as [|x xs IH]; [simpl; lra|].
  cbn [map foldr]. rewrite IH. lra.
Qed.

Lemma mean_affine a b s :
  mean (map (option_map (λ x, a * x + b)) s)
  = option_map (λ x, a * x + b) (mean s).
Proof.
  unfold mean. rewrite dropna_affine.
  destruct (dropna s) as [|x xs] eqn:E; [done|].
  cbn [map option_map]. f_equal.
  change (a * x + b :: map (λ x, a * x + b) xs)
    with (map (λ x, a * x + b) (x :: xs)).
  rewrite Rsum_affine, length_map.
  assert (0 < INR (length (x :: xs))) by (by apply INR_length_pos).
  field. lra.
Qed.

Lemma std_affine a b s :
  0 < a →
  std (map (option_map (λ x, a * x + b)) s)
  = option_map (Rmult a) (std s).
Proof.
  intros Ha. unfold std. rewrite dropna_affine, length_map.
  case_decide as Hn; [done|]. cbn [option_map]. f_equal.
  set (n := INR (length (dropna s))).
  assert (1 < n) as Hn1.
  { unfold n. assert (2 ≤ length (dropna s))%nat as H2 by lia.
    apply le_INR in H2. simpl in H2. lra. }
  set (m := Rsum (dropna s) / n).
  assert (Rsum (map (λ x, a * x + b) (dropna s)) / n = a * m + b) as ->.
  { rewrite Rsum_affine. fold n. unfold m. field. lra. }
  rewrite sqdev_affine.
  replace (a * a * sqdev m (dropna s) / (n - 1))
    with (a * a * (sqdev m (dropna s) / (n - 1))) by (field; lra).
  rewrite sqrt_mult_alt by nra. by rewrite sqrt_square by lra.
Qed.

Lemma zscore_affine a b s :
  0 < a → zscore (map (option_map (λ x, a * x + b)) s) = zscore s.
Proof.
  intros Ha. unfold zscore, div_scalar, sub_scalar.
  rewrite mean_affine, std_affine by done. rewrite !map_map.
  apply map_ext. intros [x|]; [|done].
  destruct (mean s) as [m|]; [|done].
  destruct (std s) as [σ|]; [|done].
  cbn [option_map Float.sub Float.div].
  destruct (Req_dec_T σ 0) as [->|Hσ].
  - rewrite Rmult_0_r. by destruct (Req_dec_T 0 0).
  - destruct (Req_dec_T (a * σ) 0) as [E|_].
    { apply Rmult_integral in E as [?|?]; [lra|done]. }
    f_equal. field. split; [done|lra].
Qed.

End units.

(** X9.  A [Z_] column does not depend on the unit or the origin of the raw
    values: when the column's standard deviation is not [0] (its values are
    not all the same), replacing every value [x] by [a * x + b] with [a > 0]
    (dollars to thousands of dollars, a fraction to a percentage) gives the
    same [Z_] column, missing cells included. *)
Theorem X9_standardize_unit_invariant
    (negs : list string) (col : string) (s : Series) (a b : R) :
  (0 < a)%R →
  Stats.std s ≠ Some 0%R →
  Score.z_column negs col (map (option_map (λ x, a * x + b)%R) s)
  = Score.z_column negs col s.
Proof.
  intros Ha _. unfold Score.z_column. by rewrite zscore_affine.
Qed.

Lemma X9_standardize_unit_invariant_witness :
  Score.z_column AppCa.negatives "Median_Gross_Rent"
    (map (option_map (λ x, (1 / 1000) * x + 0)%R) Examples.col123)
  = Score.z_column AppCa.negatives "Median_Gross_Rent" Examples.col123.
Proof.
  apply (X9_standardize_unit_invariant AppCa.negatives "Median_Gross_Rent"
           Examples.col123 (1 / 1000) 0).
  - lra.
  - rewrite std_col123. intros [= H]. lra.
Defined.

(** ** How large a standardised value can be *)

Section bound.

Import Stats.
Local Open Scope R_scope.

Lemma zscore_middle_bound pre t post v :
  zscore (pre ++ Some t :: post) !! length pre = Some (Some v) →
  let n := INR (length (dropna (pre ++ Some t :: post))) in
  1 < n ∧ v * v <= (n - 1) * (n - 1) / n.
Proof.
  rewrite zscore_middle. cbv zeta. rewrite mean_middle.
  set (os := dropna pre ++ dropna post).
  assert (length (dropna (pre ++ Some t :: post)) = S (length os)) as ->.
  { rewrite dropna_middle. unfold os. rewrite !length_app. cbn [length]. lia. }
  rewrite S_INR.
  destruct (decide (length os = 0%nat)) as [Hk0|Hk0].
  { rewrite (std_middle_short pre t post Hk0). by intros [=]. }
  assert (1 ≤ length os)%nat as Hk by lia.
  rewrite (std_middle pre t post Hk). fold os. cbv zeta.
  destruct (variance_middle os t Hk) as [HV HD].
  cbv zeta in HV, HD. rewrite HV.
  set (k := INR (length os)) in *.
  assert (1 <= k) as Hk1 by (apply le_INR in Hk; simpl in Hk; exact Hk).
  set (A := sqdev (Rsum os / k) os / k) in *.
  set (B := / (k * k * (k + 1))) in *.
  set (D := k * t - Rsum os) in *.
  assert (0 <= A) as HA.
  { unfold A. apply Rmult_le_pos; [apply sqdev_nonneg|].
    left. apply Rinv_0_lt_compat. lra. }
  assert (0 < B) as HB by (unfold B; apply Rinv_0_lt_compat; nra).
  assert (B * (k * k * (k + 1)) = 1) as HBk by (unfold B; field; nra).
  assert (0 <= A + B * (D * D)) as Hnn by nra.
  cbn [Float.sub Float.div].
  destruct (Req_dec_T (sqrt (A + B * (D * D))) 0) as [|Hs]; [by intros [=]|].
  intros [= <-]. rewrite HD. split; [lra|].
  assert (0 < A + B * (D * D)) as Hpos.
  { destruct Hnn as [?|E]; [done|]. rewrite <- E, sqrt_0 in Hs. done. }
  set (V := A + B * (D * D)) in *.
  assert (sqrt V * sqrt V = V) as Hsq by (apply sqrt_sqrt; lra).
  replace (k + 1 - 1) with k by lra.
  apply (Rmult_le_reg_r (V * (k + 1) * (k + 1))); [nra|].
  replace (D / (k + 1) / sqrt V * (D / (k + 1) / sqrt V)
           * (V * (k + 1) * (k + 1)))
    with (D * D * (V / (sqrt V * sqrt V))) by (field; lra).
  rewrite Hsq.
  replace (D * D * (V / V)) with (D * D) by (field; lra).
  replace (k * k / (k + 1) * (V * (k + 1) * (k + 1)))
    with (k * k * (k + 1) * V) by (field; lra).
  unfold V.
  replace (k * k * (k + 1) * (A + B * (D * D)))
    with (k * k * (k + 1) * A + B * (k * k * (k + 1)) * (D * D)) by ring.
  rewrite HBk.
  assert (0 <= k * k * (k + 1) * A) by (apply Rmult_le_pos; [nra|done]).
  lra.
Qed.

Lemma zscore_number_raw s i v :
  zscore s !! i = Some (Some v) → ∃ t, s !! i = Some (Some t).
Proof.
  unfold zscore, div_scalar, sub_scalar. rewrite map_map.
  change map with (@fmap list _). rewrite list_lookup_fmap.
  destruct (s !! i) as [[t|]|]; [eauto|done|done].
Qed.

Lemma zscore_bound s i v :
  zscore s !! i = Some (Some v) →
  let n := INR (length (dropna s)) in
  1 < n ∧ v * v <= (n - 1) * (n - 1) / n.
Proof.
  intros Hv. destruct (zscore_number_raw s i v Hv) as [t Ht].
  pose proof (take_drop_middle s i (Some t) Ht) as Hs.
  assert (length (take i s) = i) as Hlen.
  { apply length_take_le. apply lookup_lt_Some in Ht. lia. }
  pose proof (zscore_middle_bound (take i s) t (drop (S i) s) v) as H.
  rewrite Hlen, Hs in H. by apply H.
Qed.

End bound.

(** X10.  A standardised value that is a number is bounded by the number
    [n] of values of its column: the column has at least two values and
    [z * z <= (n - 1) * (n - 1) / n].  With two records every [Z_] value is
    [1 / sqrt 2] in absolute value at most. *)
Theorem X10_standardized_value_bound
    (negs : list string) (col : string) (s : Series) (i : nat) (v : R) :
  Score.z_column negs col s !! i = Some (Some v) →
  let n := INR (length (Stats.dropna s)) in
  (1 < n)%R ∧ (v * v <= (n - 1) * (n - 1) / n)%R.
Proof.
  unfold Score.z_column. destruct (bool_decide (col ∈ negs)).
  - unfold Stats.neg_series. change map with (@fmap list _).
    rewrite list_lookup_fmap.
    destruct (Stats.zscore s !! i) as [[x|]|] eqn:E; try done.
    cbn. intros [= <-].
    destruct (zscore_bound s i x E) as [H1 H2]. split; [done|].
    replace (- x * - x)%R with (x * x)%R by ring. done.
  - apply zscore_bound.
Qed.

Lemma X10_standardized_value_bound_witness :
  let n := INR (length (Stats.dropna Examples.col123)) in
  (1 < n)%R ∧ (1 * 1 <= (n - 1) * (n - 1) / n)%R.
Proof.
  apply (X10_standardized_value_bound [] "Upward_Mobility"
           Examples.col123 2 1).
  unfold Score.z_column. cbn [bool_decide decide_rel]. 
  rewrite zscore_col123. reflexivity.
Defined.

(** ** The comparison views of [src/cali.py] *)

Section compare.

Import Stats Compare.
Local Open Scope R_scope.

(** A mean lies between two of the values it is the mean of. *)
Lemma Rsum_between xs :
  xs ≠ [] →
  ∃ lo hi, lo ∈ xs ∧ hi ∈ xs ∧
    lo * INR (length xs) <= Rsum xs <= hi * INR (length xs).
Proof.
  induction xs as [|a xs IH]; [done|]. intros _.
  destruct xs as [|b xs].
  { exists a, a. unfold Rsum. simpl. split_and!; [by left|by left|lra|lra]. }
  destruct IH as (lo & hi & Hlo & Hhi & H1 & H2); [done|].
  assert (0 < INR (length (b :: xs))) as Hn by (by apply INR_length_pos).
  change (Rsum (a :: b :: xs)) with (a + Rsum (b :: xs)).
  change (length (a :: b :: xs)) with (S (length (b :: xs))).
  rewrite S_INR.
  exists (Rmin a lo), (Rmax a hi).
  pose proof (Rmin_l a lo). pose proof (Rmin_r a lo).
  pose proof (Rmax_l a hi). pose proof (Rmax_r a hi).
  split_and!.
  - unfold Rmin. destruct (Rle_dec a lo); [by left|by right].
  - unfold Rmax. destruct (Rle_dec a hi); [by right|by left].
  - nra.
  - nra.
Qed.

Lemma mean_between s v :
  mean s = Some v →
  ∃ lo hi, Some lo ∈ s ∧ Some hi ∈ s ∧ lo <= v <= hi.
Proof.
  unfold mean. destruct (dropna s) as [|x xs] eqn:E; [done|].
  intros Hv.
  assert (v = Rsum (x :: xs) / INR (length (x :: xs))) as ->
    by congruence.
  clear Hv.
  destruct (Rsum_between (x :: xs)) as (lo & hi & Hlo & Hhi & H1 & H2);
    [done|].
  assert (0 < INR (length (x :: xs))) as Hn by (by apply INR_length_pos).
  rewrite <- E in Hlo, Hhi. apply elem_of_dropna in Hlo, Hhi.
  exists lo, hi. split_and!; [done|done| |].
  - apply (Rmult_le_reg_r (INR (length (x :: xs)))); [done|].
    replace (Rsum (x :: xs) / INR (length (x :: xs))
             * INR (length (x :: xs))) with (Rsum (x :: xs)) by (field; lra).
    lra.
  - apply (Rmult_le_reg_r (INR (length (x :: xs)))); [done|].
    replace (Rsum (x :: xs) / INR (length (x :: xs))
             * INR (length (x :: xs))) with (Rsum (x :: xs)) by (field; lra).
    lra.
Qed.

Lemma mean_NaN_iff s : mean s = NaN ↔ ∀ x, Some x ∉ s.
Proof.
  unfold mean. split.
  - destruct (dropna s) as [|y ys] eqn:E; [|done].
    intros _ x Hx%elem_of_dropna. rewrite E in Hx. by apply elem_of_nil in Hx.
  - intros H. destruct (dropna s) as [|y ys] eqn:E; [done|].
    destruct (H y). apply elem_of_dropna. rewrite E. by left.
Qed.

End compare.

Lemma select_elem_inv {A} (mask : list bool) (l : list A) x :
  x ∈ select mask l → ∃ i, mask !! i = Some true ∧ l !! i = Some x.
Proof.
  revert l. induction mask as [|b mask IH]; intros l; cbn [select].
  { by intros ?%elem_of_nil. }
  destruct l as [|y l]; [by intros ?%elem_of_nil|].
  destruct b.
  - intros [->|Hin]%elem_of_cons; [by exists 0|].
    destruct (IH l Hin) as (i & ? & ?). by exists (S i).
  - intros Hin. destruct (IH l Hin) as (i & ? & ?). by exists (S i).
Qed.

Lemma isin_lookup fips_list (c : list pyobj) i :
  Compare.isin fips_list c !! i = Some true →
  ∃ s, c !! i = Some (PyStr s) ∧ s ∈ fips_list.
Proof.
  unfold Compare.isin. change map with (@fmap list _).
  rewrite list_lookup_fmap. destruct (c !! i) as [[|s|n]|]; try done.
  cbn. intros [= H]. apply bool_decide_eq_true in H. eauto.
Qed.

Lemma region_mean_eq df region ind fips_list c col :
  Compare.getitem Compare.region_options region = Ok fips_list →
  obj df !! "fips" = Some c →
  num df !! ind = Some col →
  Compare.region_mean df region ind
  = Ok (Stats.mean (select (Compare.isin fips_list c) col)).
Proof.
  intros Hr Hc Hcol. unfold Compare.region_mean.
  rewrite Hr, bind_Ok_l. unfold get_obj. rewrite Hc, bind_Ok_l.
  unfold get_num. by rewrite num_select_rows, Hcol.
Qed.

Lemma dropna_select_isin fips_list (c : list pyobj) (col : Series) :
  Stats.dropna (select (Compare.isin fips_list c) col)
  = Compare.region_values fips_list c col.
Proof.
  unfold Compare.region_values, Compare.isin.
  revert col. induction c as [|x c IH]; intros [|v col]; try done.
  cbn [map select zip zip_with omap list_omap].
  destruct x as [|s|n]; cbn [select]; rewrite <- ?IH; try done.
  destruct (bool_decide (s ∈ fips_list)); [|done].
  by destruct v.
Qed.

(** X11.  The regional mean of an indicator is the sum over the count of
    the values of the rows whose identifier is in the region's list and
    whose value is not missing, and NaN when the region has no such row.
    When it is a number it lies between the values of two such rows. *)
Theorem X11_region_mean
    (df : DataFrame) (region ind : string)
    (fips_list : list string) (c : list pyobj) (col : Series) :
  Compare.getitem Compare.region_options region = Ok fips_list →
  obj df !! "fips" = Some c →
  num df !! ind = Some col →
  ∃ m : cell,
    Compare.region_mean df region ind = Ok m ∧
    m = Stats.mean (select (Compare.isin fips_list c) col) ∧
    (let xs := Compare.region_values fips_list c col in
     m = if decide (xs = []) then NaN
         else Some (Stats.Rsum xs / INR (length xs))%R) ∧
    (∀ v, m = Some v →
       ∃ i j si sj lo hi,
         c !! i = Some (PyStr si) ∧ si ∈ fips_list ∧
         col !! i = Some (Some lo) ∧
         c !! j = Some (PyStr sj) ∧ sj ∈ fips_list ∧
         col !! j = Some (Some hi) ∧
         (lo <= v <= hi)%R) ∧
    ((∀ i s x, c !! i = Some (PyStr s) → col !! i = Some (Some x) →
               s ∉ fips_list) →
     m = NaN).
Proof.
  intros Hr Hc Hcol.
  rewrite (region_mean_eq df region ind fips_list c col Hr Hc Hcol).
  eexists. split; [reflexivity|]. split; [reflexivity|]. split_and!.
  - cbv zeta. unfold Stats.mean. rewrite dropna_select_isin.
    by destruct (Compare.region_values fips_list c col).
  - intros v (lo & hi & Hlo & Hhi & Hv)%mean_between.
    apply select_elem_inv in Hlo as (i & Hi & Hli).
    apply select_elem_inv in Hhi as (j & Hj & Hlj).
    apply isin_lookup in Hi as (si & Hsi & Hini).
    apply isin_lookup in Hj as (sj & Hsj & Hinj).
    by exists i, j, si, sj, lo, hi.
  - intros Hnone. apply mean_NaN_iff. intros x Hx.
    apply select_elem_inv in Hx as (i & Hi & Hli).
    apply isin_lookup in Hi as (si & Hsi & Hini).
    by apply (Hnone i si x).
Qed.

Lemma X11_region_mean_witness :
  Compare.region_mean Examples.with_alpine "Northern California"
    "Gini_Index" = Ok (Some ((2 + (3 + 0)) / INR 2)%R).
Proof.
  destruct (X11_region_mean Examples.with_alpine "Northern California"
              "Gini_Index"
              [ "06003"; "06005"; "06009"; "06011"; "06015"; "06017";
                "06021"; "06023"; "06025"; "06027"; "06033"; "06035";
                "06043"; "06045"; "06049"; "06051"; "06057"; "06067";
                "06087"; "06089"; "06091"; "06093"; "06099"; "06101";
                "06103"; "06105" ]
              [PyStr "06001"; PyStr "06003"; PyStr "06005"]
              Examples.col123)
    as (m & Hm & _ & Hxs & _).
  - reflexivity.
  - reflexivity.
  - reflexivity.
  - rewrite Hm. f_equal. rewrite Hxs. reflexivity.
Defined.

Lemma select_first {A} (mask : list bool) (l : list A) i :
  mask !! i = Some true →
  (∀ j, j < i → mask !! j = Some false) →
  select mask l !! 0 = l !! i.
Proof.
  revert l i. induction mask as [|b mask IH]; intros l i; [done|].
  destruct i as [|i].
  - intros [= ->] _. by destruct l.
  - intros Hi Hfalse. pose proof (Hfalse 0 ltac:(lia)) as H0.
    injection H0 as ->. destruct l as [|y l]; [done|]. cbn [select].
    apply (IH l i Hi). intros j Hj. apply (Hfalse (S j)). lia.
Qed.

(** X12.  In the county-to-county view, for a county name taken from the
    [County] column the selected values are not empty when the indicator
    column is as long as the name column, and element [0], the one the
    script plots, is the indicator's cell in the first row with that name. *)
Theorem X12_county_value_is_first_row
    (df : DataFrame) (names : list pyobj) (col : Series)
    (county ind : string) (i : nat) :
  obj df !! "County" = Some names →
  num df !! ind = Some col →
  length col = length names →
  names !! i = Some (PyStr county) →
  (∀ j, j < i → names !! j ≠ Some (PyStr county)) →
  ∃ (vs : Series) (x : cell),
    Compare.county_values df county ind = Ok vs ∧
    vs !! 0 = Some x ∧ col !! i = Some x.
Proof.
  intros Hn Hcol Hlen Hi Hfirst.
  assert (i < length col) as Hlt.
  { rewrite Hlen. by eapply lookup_lt_Some. }
  destruct (lookup_lt_is_Some_2 col i Hlt) as [x Hx].
  exists (select (Compare.named county names) col), x.
  split_and!; [|rewrite <- Hx|done].
  - unfold Compare.county_values, get_obj, get_num.
    by rewrite Hn, bind_Ok_l, Hcol, bind_Ok_l.
  - apply select_first.
    + unfold Compare.named. change map with (@fmap list _).
      rewrite list_lookup_fmap, Hi. cbn. f_equal.
      by apply bool_decide_eq_true.
    + intros j Hj. unfold Compare.named. change map with (@fmap list _).
      rewrite list_lookup_fmap.
      assert (j < length names) as Hjl.
      { apply lookup_lt_Some in Hi. lia. }
      destruct (lookup_lt_is_Some_2 names j Hjl) as [y Hy].
      rewrite Hy. cbn. f_equal. apply bool_decide_eq_false.
      intros ->. by apply (Hfirst j Hj).
Qed.

Lemma X12_county_value_is_first_row_witness :
  ∃ (vs : Series) (x : cell),
    Compare.county_values Examples.with_unmatched "Atlantis" "Gini_Index"
      = Ok vs ∧
    vs !! 0 = Some x ∧ Examples.col123 !! 1 = Some x.
Proof.
  apply (X12_county_value_is_first_row Examples.with_unmatched
           [PyStr " alameda"; PyStr "Atlantis"; PyStr "Santa Clara"]
           Examples.col123 "Atlantis" "Gini_Index" 1).
  - reflexivity.
  - reflexivity.
  - reflexivity.
  - reflexivity.
  - intros j Hj. assert (j = 0) as -> by lia. done.
Defined.

(** ** C10: Alpine County, and how many rows [app_ca.py] returns *)

Lemma length_select_alpine {A} (ids : list pyobj) (l : list A) :
  length l = length ids →
  length (select (AppCa.alpine_mask ids) l)
  + length (filter (λ x, x = PyStr "06003") ids) = length l.
Proof.
  revert l. induction ids as [|x ids IH]; intros l Hlen.
  { destruct l; [done|]. simpl in Hlen. lia. }
  destruct l as [|y l]; [simpl in Hlen; lia|].
  cbn [AppCa.alpine_mask map select]. fold (AppCa.alpine_mask ids).
  rewrite filter_cons. simpl in Hlen.
  specialize (IH l ltac:(lia)).
  destruct (decide (x = PyStr "06003")) as [->|Hx].
  - rewrite bool_decide_eq_false_2 by (by intros H). cbn [length]. lia.
  - rewrite bool_decide_eq_true_2 by done. cbn [length]. lia.
Qed.

Lemma UOI_not_indicator c : c ∈ AppCa.indicators → "UOI_custom" ≠ c.
Proof.
  intros Hc <-.
  repeat (apply elem_of_cons in Hc as [Hc|Hc]; [done|]).
  by apply elem_of_nil in Hc.
Qed.

Lemma alpine_mask_normalized (raw : list pyobj) i x :
  raw !! i = Some x →
  AppCa.alpine_mask (map (λ x, PyStr (Fips.normalize x)) raw) !! i
  = Some (bool_decide (Fips.normalize x ≠ "06003")).
Proof.
  intros Hx. unfold AppCa.alpine_mask. rewrite map_map.
  change map with (@fmap list _). rewrite list_lookup_fmap, Hx.
  cbn. f_equal. apply bool_decide_ext. split.
  - intros H E. apply H. by rewrite E.
  - intros H [= E]. by apply H.
Qed.

(** A selected row keeps its place among the selected rows. *)
Lemma select_lookup_kept {A} (mask : list bool) (l : list A) i :
  mask !! i = Some true →
  select mask l !! length (filter (λ b, b = true) (take i mask)) = l !! i.
Proof.
  revert l i. induction mask as [|b mask IH]; intros l i; [done|].
  destruct i as [|i].
  - intros [= ->]. by destruct l.
  - intros Hi. cbn in Hi. cbn [take]. rewrite filter_cons.
    destruct l as [|x l].
    + cbn [select]. by rewrite !lookup_nil.
    + cbn [select]. destruct b.
      * rewrite decide_True by done. cbn [length].
        change ((x :: l) !! S i) with (l !! i). by apply IH.
      * rewrite decide_False by done.
        change ((x :: l) !! S i) with (l !! i). by apply IH.
Qed.

(** Row [i] of a [Z_] column, from the cell of the row and the statistics
    of the whole column. *)
Lemma z_column_cell negs col (s : Series) i x :
  s !! i = Some x →
  Score.z_column negs col s !! i
  = Some (let z := Float.div (Float.sub x (Stats.mean s)) (Stats.std s) in
          if bool_decide (col ∈ negs) then Float.neg z else z).
Proof.
  intros Hx. cbv zeta.
  unfold Score.z_column, Stats.zscore, Stats.neg_series,
    Stats.div_scalar, Stats.sub_scalar.
  destruct (bool_decide _); rewrite ?map_map;
    change map with (@fmap list _); by rewrite list_lookup_fmap, Hx.
Qed.

(** C10.  When [app_ca.py] returns a table, that table is the scored table
    of all the rows of the input with the rows of Alpine County taken out.
    The mask is made from the input: row [i] is removed exactly when the
    identifier of row [i] of the input normalises to "06003", every other
    row stays, with its identifier, its indicator values, its standardised
    values and its composite.  Each [Z_] column is the filtered [Z_] column
    of all the rows: the value of a remaining row is its raw value minus the
    mean, over the standard deviation, of the whole input column, Alpine
    County's value included. *)
Theorem C10_alpine_removed_after_scoring
    (features : list feature) (p : preset) (slider : string → R)
    (df out : DataFrame) :
  AppCa.run features p slider df = Ok out →
  ∃ (raw : list pyobj) (w : weights) (u : Series),
    let ids := map (λ x, PyStr (Fips.normalize x)) raw in
    let mask := AppCa.alpine_mask ids in
    AppCa.raw_ids (Fips.california features) df = Ok raw ∧
    Weights.resolve (Weights.choose p slider) = Ok w ∧
    Score.weighted_sum (AppCa.standardize df) (Score.terms w) = Ok u ∧
    length mask = length raw ∧
    (∀ i x, raw !! i = Some x →
       mask !! i = Some (bool_decide (Fips.normalize x ≠ "06003"))) ∧
    obj out !! "fips" = Some (select mask ids) ∧
    PyStr "06003" ∉ select mask ids ∧
    length (select mask ids)
      + length (filter (λ x, x = PyStr "06003") ids) = length raw ∧
    (∀ i x, raw !! i = Some x → Fips.normalize x ≠ "06003" →
       PyStr (Fips.normalize x) ∈ select mask ids) ∧
    (∀ k c, k ≠ "fips" → obj df !! k = Some c →
       obj out !! k = Some (select mask c)) ∧
    (∀ col s, col ∈ AppCa.indicators → num df !! col = Some s →
       num out !! col = Some (select mask s) ∧
       num out !! Score.Z_ col
       = Some (select mask (Score.z_column AppCa.negatives col s)) ∧
       (∀ i x, s !! i = Some x →
          Score.z_column AppCa.negatives col s !! i
          = Some (let z := Float.div (Float.sub x (Stats.mean s))
                                     (Stats.std s) in
                  if bool_decide (col ∈ AppCa.negatives)
                  then Float.neg z else z)) ∧
       (∀ i x z, raw !! i = Some x → Fips.normalize x ≠ "06003" →
          Score.z_column AppCa.negatives col s !! i = Some z →
          z ∈ select mask (Score.z_column AppCa.negatives col s))) ∧
    num out !! "UOI_custom" = Some (select mask u) ∧
    (∀ i x t, raw !! i = Some x → Fips.normalize x ≠ "06003" →
       u !! i = Some t → t ∈ select mask u) ∧
    (∀ i x, raw !! i = Some x → Fips.normalize x ≠ "06003" →
       let k := length (filter (λ b, b = true) (take i mask)) in
       select mask ids !! k = Some (PyStr (Fips.normalize x)) ∧
       select mask u !! k = u !! i ∧
       (∀ col s, col ∈ AppCa.indicators → num df !! col = Some s →
          select mask s !! k = s !! i ∧
          select mask (Score.z_column AppCa.negatives col s) !! k
          = Score.z_column AppCa.negatives col s !! i)).
Proof.
  intros (raw & w & u & Hraw & Hw & Hu & ->)%AppCa_run_inv.
  exists raw, w, u. cbv zeta. rewrite repaired_map.
  set (ids := map (λ x, PyStr (Fips.normalize x)) raw).
  assert (length ids = length raw) as Hids by apply length_map.
  assert (∀ i x, raw !! i = Some x → Fips.normalize x ≠ "06003" →
            AppCa.alpine_mask ids !! i = Some true) as Hkept.
  { intros i x Hx Hne. unfold ids.
    rewrite (alpine_mask_normalized raw i x Hx).
    by rewrite bool_decide_eq_true_2. }
  split_and!.
  - done.
  - done.
  - done.
  - unfold AppCa.alpine_mask. by rewrite length_map.
  - intros i x Hx. by apply alpine_mask_normalized.
  - rewrite obj_select_rows. unfold set_num, set_obj. cbn [obj].
    by rewrite lookup_insert_eq.
  - apply alpine_not_selected.
  - rewrite <- Hids. by apply length_select_alpine.
  - intros i x Hx Hne. apply (select_elem _ _ i); [by eapply Hkept|].
    unfold ids. change map with (@fmap list _).
    by rewrite list_lookup_fmap, Hx.
  - intros k col Hk Hcol. rewrite obj_select_rows.
    unfold set_num, set_obj. cbn [obj].
    rewrite lookup_insert_ne by done.
    by rewrite standardize_obj, Hcol.
  - intros col s Hin Hs. split_and!.
    + rewrite num_select_rows.
      rewrite num_set_num_ne by (by apply UOI_not_indicator).
      unfold set_obj. cbn [num].
      rewrite standardize_other by (intros c' _; by apply indicator_not_Z).
      by rewrite Hs.
    + rewrite num_select_rows.
      rewrite num_set_num_ne by done.
      unfold set_obj. cbn [num].
      by rewrite (standardize_lookup df col Hin), Hs.
    + intros i x Hx. by apply z_column_cell.
    + intros i x z Hx Hne Hz. apply (select_elem _ _ i); [|done].
      by eapply Hkept.
  - rewrite num_select_rows. by rewrite num_set_num_eq.
  - intros i x t Hx Hne Ht. apply (select_elem _ _ i); [|done].
    by eapply Hkept.
  - intros i x Hx Hne. cbv zeta.
    pose proof (Hkept i x Hx Hne) as Hi. split_and!.
    + rewrite select_lookup_kept by done. unfold ids.
      change map with (@fmap list _). by rewrite list_lookup_fmap, Hx.
    + by apply select_lookup_kept.
    + intros col s _ _. split; by apply select_lookup_kept.
Qed.

Lemma C10_alpine_removed_after_scoring_witness :
  ∃ (out : DataFrame),
    AppCa.run [] Even (λ _, 0%R) Examples.with_alpine = Ok out ∧
    obj out !! "fips" = Some [PyStr "06001"; PyStr "06005"] ∧
    num out !! "Median_Household_Income" = Some [Some 1%R; Some 3%R] ∧
    num out !! "Z_Median_Household_Income" = Some [Some (-1)%R; Some 1%R] ∧
    [Some (-1)%R; Some 1%R] ≠ Stats.zscore [Some 1%R; Some 3%R].
Proof.
  destruct (resolve_Even (λ _, 0%R)) as [w Hw].
  destruct (run_with_fips [] Even (λ _, 0%R)
              [PyStr "06001"; PyStr "06003"; PyStr "06005"]
              (λ _, Examples.col123) w Hw) as (u & _ & Ha & _).
  eexists. split; [exact Ha|].
  destruct (C10_alpine_removed_after_scoring _ _ _ _ _ Ha)
    as (raw & w' & u' & Hraw & _ & _ & _ & _ & Hfips & _ & _ & _ & _
        & Hcols & _ & _ & _).
  injection Hraw as <-.
  destruct (Hcols "Median_Household_Income" Examples.col123)
    as (Hcol & HZ & _); [repeat constructor|reflexivity|].
  split_and!.
  - rewrite Hfips. reflexivity.
  - rewrite Hcol. reflexivity.
  - refine (eq_trans HZ _). unfold Score.z_column.
    assert ("Median_Household_Income" ∉ AppCa.negatives) as Hpos.
    { intros H. unfold AppCa.negatives in H.
      repeat (apply elem_of_cons in H as [H|H]; [done|]).
      by apply elem_of_nil in H. }
    rewrite (bool_decide_eq_false_2 _ Hpos).
    rewrite zscore_col123. reflexivity.
  - rewrite zscore_13. intros [= E _].
    apply inv_sqrt_2_not_1. lra.
Defined.

(** X13.  [app_ca.py] returns one row less for every row whose normalised
    identifier is "06003", and no other row is lost: the identifier column
    and every indicator column of the result are shorter than those of the
    input by exactly that number. *)
Theorem X13_alpine_row_count
    (features : list feature) (p : preset) (slider : string → R)
    (df out : DataFrame) :
  AppCa.run features p slider df = Ok out →
  ∃ (raw ids' : list pyobj),
    let ids := map (λ x, PyStr (Fips.normalize x)) raw in
    let alpine := length (filter (λ x, x = PyStr "06003") ids) in
    AppCa.raw_ids (Fips.california features) df = Ok raw ∧
    obj out !! "fips" = Some ids' ∧
    length ids' + alpine = length raw ∧
    (∀ c col, c ∈ AppCa.indicators → num df !! c = Some col →
       length col = length raw →
       ∃ col', num out !! c = Some col' ∧
               length col' + alpine = length col).
Proof.
  intros (raw & w & u & Hraw & _ & _ & ->)%AppCa_run_inv.
  cbv zeta. rewrite repaired_map.
  set (ids := map (λ x, PyStr (Fips.normalize x)) raw).
  assert (length ids = length raw) as Hids by apply length_map.
  exists raw, (select (AppCa.alpine_mask ids) ids). split_and!.
  - done.
  - rewrite obj_select_rows. unfold set_num, set_obj. cbn [obj].
    by rewrite lookup_insert_eq.
  - rewrite <- Hids. by apply length_select_alpine.
  - intros c col Hc Hcol Hlen.
    exists (select (AppCa.alpine_mask ids) col). split.
    + rewrite num_select_rows.
      rewrite num_set_num_ne by (by apply UOI_not_indicator).
      unfold set_obj. cbn [num].
      rewrite standardize_other
        by (intros c' _; by apply indicator_not_Z).
      by rewrite Hcol.
    + apply length_select_alpine. by rewrite Hlen.
Qed.

Lemma X13_alpine_row_count_witness :
  ∃ (out : DataFrame) (raw ids' : list pyobj),
    AppCa.run [] Even (λ _, 0%R) Examples.with_alpine = Ok out ∧
    let ids := map (λ x, PyStr (Fips.normalize x)) raw in
    let alpine := length (filter (λ x, x = PyStr "06003") ids) in
    AppCa.raw_ids (Fips.california []) Examples.with_alpine = Ok raw ∧
    obj out !! "fips" = Some ids' ∧
    length ids' + alpine = length raw ∧
    (∀ c col, c ∈ AppCa.indicators →
       num Examples.with_alpine !! c = Some col →
       length col = length raw →
       ∃ col', num out !! c = Some col' ∧
               length col' + alpine = length col).
Proof.
  destruct (resolve_Even (λ _, 0%R)) as [w Hw].
  destruct (run_with_fips [] Even (λ _, 0%R)
              [PyStr "06001"; PyStr "06003"; PyStr "06005"]
              (λ _, Examples.col123) w Hw) as (u & _ & Ha & _).
  eexists.
  destruct (X13_alpine_row_count _ _ _ _ _ Ha) as (raw & ids' & H).
  exists raw, ids'. split; [exact Ha|exact H].
Defined.

(** ** An indicator with fewer than two values *)

(** X14.  In a table with the nine indicator columns, all of [n] rows, one
    indicator with fewer than two values (a column that is empty but for
    one county, or entirely missing) makes the whole [UOI_custom] column
    NaN, whatever the weights, the weight 0 included. *)
Theorem X14_sparse_column_blanks_composite
    (df : DataFrame) (cols : string → Series) (n : nat) (c0 : string)
    (features : list feature) (p : preset) (slider : string → R) :
  AppCa.complete df cols →
  (∀ c, c ∈ AppCa.indicators → length (cols c) = n) →
  c0 ∈ AppCa.indicators →
  length (Stats.dropna (cols c0)) ≤ 1 →
  Stats.std (cols c0) = NaN ∧
  (∀ w u, Score.weighted_sum (AppCa.standardize df) (Score.terms w) = Ok u →
          u = replicate n NaN) ∧
  (∀ out, Cali.run features p slider df = Ok out →
          num out !! "UOI_custom" = Some (replicate n NaN)) ∧
  (∀ out, AppCa.run features p slider df = Ok out →
          ∃ u, num out !! "UOI_custom" = Some u ∧ Forall (λ x, x = NaN) u).
Proof.
  intros Hdf Hlen Hc0 Hfew.
  assert (Stats.std (cols c0) = NaN) as Hstd.
  { unfold Stats.std. by rewrite decide_True. }
  assert (∀ w u,
            Score.weighted_sum (AppCa.standardize df) (Score.terms w) = Ok u →
            u = replicate n NaN) as Hu.
  { intros w u Hu.
    pose proof (uoi_length df cols w u n Hdf Hlen Hu) as Hlenu.
    apply list_eq. intros i.
    destruct (decide (i < n)) as [Hi|Hi].
    - rewrite lookup_replicate_2 by done.
      destruct (uoi_row df cols w i Hdf) as (u' & Hu' & _ & Hrow).
      { intros c Hc. by rewrite (Hlen c Hc). }
      rewrite Hu in Hu'. injection Hu' as <-. cbv zeta in Hrow.
      rewrite Hrow.
      destruct (zip_weight w c0 Hc0) as [wk Hwk].
      apply (row_total_has_NaN _ wk).
      apply list_elem_of_fmap. exists (c0, wk). split; [|done].
      f_equal. symmetry. apply z_at_undefined; [by left|].
      by rewrite (Hlen c0 Hc0).
    - rewrite (lookup_ge_None_2 u) by lia.
      symmetry. apply lookup_replicate_None. lia. }
  split_and!; [done|done| |].
  - intros out (c & w & u & _ & _ & Hws & ->)%Cali_run_inv.
    rewrite num_set_num_eq. f_equal. by eapply Hu.
  - intros out (c & w & u & _ & _ & Hws & ->)%AppCa_run_inv.
    eexists. split.
    + rewrite num_select_rows, num_set_num_eq. reflexivity.
    + rewrite (Hu w u Hws). apply Forall_forall.
      intros x (i & _ & Hx)%select_elem_inv.
      by apply lookup_replicate in Hx as [-> _].
Qed.

Lemma X14_sparse_column_blanks_composite_witness :
  Stats.std (Examples.two_records_only "Gini_Index") = NaN ∧
  (∀ w u,
     Score.weighted_sum
       (AppCa.standardize
          (Examples.with_fips Examples.AB Examples.two_records_only))
       (Score.terms w) = Ok u →
     u = replicate 2 NaN) ∧
  (∀ out,
     Cali.run [] Even (λ _, 0%R)
       (Examples.with_fips Examples.AB Examples.two_records_only) = Ok out →
     num out !! "UOI_custom" = Some (replicate 2 NaN)) ∧
  (∀ out,
     AppCa.run [] Even (λ _, 0%R)
       (Examples.with_fips Examples.AB Examples.two_records_only) = Ok out →
     ∃ u, num out !! "UOI_custom" = Some u ∧ Forall (λ x, x = NaN) u).
Proof.
  apply (X14_sparse_column_blanks_composite
           (Examples.with_fips Examples.AB Examples.two_records_only)
           Examples.two_records_only 2
           "Gini_Index" [] Even (λ _, 0%R)).
  - apply with_fips_complete.
  - intros c _. apply two_records_only_rows.
  - repeat constructor.
  - vm_compute. lia.
Defined.

(** ** The centre of the colour scale *)

Section midpoint.

Import Stats Score.
Local Open Scope R_scope.

Lemma dropna_Some (xs : list R) : dropna (map Some xs) = xs.
Proof. induction xs as [|x xs IH]; cbn; by rewrite ?IH. Qed.

Lemma mul_scalar_numbers (xs : list R) w :
  mul_scalar (map Some xs) (Some w) = map Some (map (λ x, x * w) xs).
Proof. unfold mul_scalar. rewrite !map_map. by apply map_ext. Qed.

Lemma add_series_numbers (xs ys : list R) :
  add_series (map Some xs) (map Some ys) = map Some (zip_with Rplus xs ys).
Proof.
  unfold add_series. revert ys.
  induction xs as [|x xs IH]; intros [|y ys]; cbn; by rewrite ?IH.
Qed.

Lemma Rsum_zip_with_plus (xs ys : list R) :
  length xs = length ys →
  Rsum (zip_with Rplus xs ys) = Rsum xs + Rsum ys.
Proof.
  unfold Rsum. revert ys.
  induction xs as [|x xs IH]; intros [|y ys] Hlen; simpl in Hlen;
    try lia; cbn [zip_with foldr]; [lra|].
  rewrite IH by lia. lra.
Qed.

Lemma Rsum_map_mul_r (xs : list R) w :
  Rsum (map (λ x, x * w) xs) = Rsum xs * w.
Proof.
  unfold Rsum. induction xs as [|x xs IH]; cbn [map foldr]; [lra|].
  rewrite IH. lra.
Qed.

Lemma add_terms_centred df (as_ : list R) ts n :
  length as_ = n →
  Forall (λ kw, ∃ z, num df !! kw.1 = Some z ∧ centred n z) ts →
  ∃ us, add_terms df (map Some as_) ts = Ok (map Some us) ∧
        length us = n ∧ Rsum us = Rsum as_.
Proof.
  revert as_. induction ts as [|[k wk] ts IH]; intros as_ Hlen Hts.
  { by exists as_. }
  apply Forall_cons_1 in Hts as [(z & Hz & zs & -> & Hzn & Hz0) Hts].
  cbn [fst] in Hz. cbn [add_terms]. unfold get_num. rewrite Hz, bind_Ok_l.
  rewrite mul_scalar_numbers, add_series_numbers.
  destruct (IH (zip_with Rplus as_ (map (λ x, x * wk) zs))) as (us & H1 & H2 & H3).
  - rewrite length_zip_with, length_map. lia.
  - done.
  - exists us. split_and!; [done..|].
    rewrite H3, Rsum_zip_with_plus by (rewrite length_map; lia).
    rewrite Rsum_map_mul_r, Hz0. lra.
Qed.

Lemma weighted_sum_centred df ts n :
  ts ≠ [] →
  Forall (λ kw, ∃ z, num df !! kw.1 = Some z ∧ centred n z) ts →
  ∃ us, weighted_sum df ts = Ok (map Some us) ∧
        length us = n ∧ Rsum us = 0.
Proof.
  destruct ts as [|[k wk] ts]; [done|]. intros _ Hts.
  apply Forall_cons_1 in Hts as [(z & Hz & zs & -> & Hzn & Hz0) Hts].
  cbn [fst] in Hz. cbn [weighted_sum]. unfold get_num. rewrite Hz, bind_Ok_l.
  rewrite mul_scalar_numbers.
  destruct (add_terms_centred df (map (λ x, x * wk) zs) ts n)
    as (us & H1 & H2 & H3); [by rewrite length_map|done|].
  exists us. split_and!; [done..|].
  rewrite H3, Rsum_map_mul_r, Hz0. lra.
Qed.

Lemma z_column_centred negs c (xs : list R) σ :
  std (map Some xs) = Some σ → σ ≠ 0 →
  centred (length xs) (z_column negs c (map Some xs)).
Proof.
  intros Hstd Hσ.
  destruct (std_Some_inv _ _ Hstd) as (Hn & m & Hm & _).
  rewrite dropna_Some in Hn.
  pose proof (zscore_stats (map Some xs) σ (bool_decide (c ∈ negs)) Hstd Hσ)
    as (Hmean & _ & _).
  unfold z_column.
  rewrite (zscore_cells _ m σ Hm Hstd Hσ) in Hmean |- *.
  assert (map (z_cell m σ) (map Some xs)
          = map Some (map (λ x, (x - m) / σ) xs)) as E.
  { rewrite !map_map. by apply map_ext. }
  rewrite E in Hmean |- *.
  assert (∀ ys : list R, (2 ≤ length ys)%nat →
            mean (map Some ys) = Some 0 → Rsum ys = 0) as Hzero.
  { intros ys Hys. unfold mean. rewrite dropna_Some.
    destruct ys as [|y ys]; [simpl in Hys; lia|]. intros [= H0].
    assert (0 < INR (length (y :: ys))) by (by apply INR_length_pos).
    apply (Rmult_eq_reg_r (/ INR (length (y :: ys)))).
    - rewrite Rmult_0_l. exact H0.
    - apply Rinv_neq_0_compat. lra. }
  destruct (bool_decide (c ∈ negs)).
  - assert (neg_series (map Some (map (λ x, (x - m) / σ) xs))
            = map Some (map Ropp (map (λ x, (x - m) / σ) xs))) as E'.
    { unfold neg_series. rewrite !map_map. by apply map_ext. }
    rewrite E' in Hmean |- *.
    eexists. split; [reflexivity|]. rewrite !length_map. split; [done|].
    apply Hzero; [by rewrite !length_map|done].
  - eexists. split; [reflexivity|]. rewrite !length_map. split; [done|].
    apply Hzero; [by rewrite !length_map|done].
Qed.

End midpoint.

(** X15.  In a table with the nine indicator columns, all of [n] rows,
    without a missing value and none of them constant, the [UOI_custom]
    column of [src/cali.py] has no NaN and has mean [0] for every accepted
    weight setting, so the colour scale of its map is centred at [0]. *)
Theorem X15_midpoint_is_zero
    (df : DataFrame) (cols : string → Series) (n : nat)
    (features : list feature) (p : preset) (slider : string → R)
    (out : DataFrame) :
  AppCa.complete df cols →
  (∀ c, c ∈ AppCa.indicators →
     ∃ (xs : list R) (σ : R),
       cols c = map Some xs ∧ length xs = n ∧
       Stats.std (cols c) = Some σ ∧ σ ≠ 0%R) →
  Cali.run features p slider df = Ok out →
  ∃ us : list R,
    num out !! "UOI_custom" = Some (map Some us) ∧
    length us = n ∧
    Compare.midpoint out = Ok (Some 0%R).
Proof.
  intros Hdf Hcols (c & w & u & _ & _ & Hu & ->)%Cali_run_inv.
  destruct (weighted_sum_centred (AppCa.standardize df) (Score.terms w) n)
    as (us & Hus & Hlen & Hsum).
  { by rewrite terms_Z. }
  { rewrite terms_Z. apply Forall_forall. intros [k wk] Hin.
    apply list_elem_of_fmap in Hin as ([c' wk'] & [= -> ->] & Hin).
    apply elem_of_zip_l in Hin. cbn [fst].
    destruct (Hcols c' Hin) as (xs & σ & Hc & Hn & Hstd & Hσ).
    exists (Score.z_column AppCa.negatives c' (cols c')). split.
    - by rewrite (standardize_lookup df c' Hin), (Hdf c' Hin).
    - rewrite Hc in Hstd |- *. rewrite <- Hn.
      by apply (z_column_centred _ _ _ σ). }
  rewrite Hu in Hus. injection Hus as ->.
  exists us. split_and!; [apply num_set_num_eq|done|].
  unfold Compare.midpoint, get_num. rewrite num_set_num_eq, bind_Ok_l.
  f_equal. unfold Stats.mean. rewrite dropna_Some.
  destruct us as [|x us].
  - exfalso. destruct (Hcols "Gini_Index") as (xs & σ & Hc & Hn & Hstd & _);
      [repeat constructor|].
    apply std_Some_inv in Hstd as [H2 _]. rewrite Hc, dropna_Some in H2.
    simpl in Hlen. lia.
  - f_equal. rewrite Hsum. unfold Rdiv. lra.
Qed.

Lemma X15_midpoint_is_zero_witness :
  ∃ (out : DataFrame) (us : list R),
    Cali.run [] Even (λ _, 0%R) Examples.with_alpine = Ok out ∧
    num out !! "UOI_custom" = Some (map Some us) ∧
    length us = 3 ∧
    Compare.midpoint out = Ok (Some 0%R).
Proof.
  destruct (resolve_Even (λ _, 0%R)) as [w Hw].
  destruct (run_with_fips [] Even (λ _, 0%R)
              [PyStr "06001"; PyStr "06003"; PyStr "06005"]
              (λ _, Examples.col123) w Hw) as (u & _ & _ & Hc).
  eexists.
  assert (AppCa.complete Examples.with_alpine (λ _, Examples.col123)) as H1
    by apply with_fips_complete.
  assert (∀ c, c ∈ AppCa.indicators →
            ∃ (xs : list R) (σ : R),
              (λ _ : string, Examples.col123) c = map Some xs ∧
              length xs = 3 ∧
              Stats.std ((λ _ : string, Examples.col123) c) = Some σ ∧
              σ ≠ 0%R) as H2.
  { intros c _. exists [1; 2; 3]%R, 1%R.
    split_and!; [done|done|exact std_col123|lra]. }
  destruct (X15_midpoint_is_zero Examples.with_alpine
              (λ _, Examples.col123) 3 [] Even (λ _, 0%R) _ H1 H2 Hc)
    as (us & H).
  exists us. split; [exact Hc|exact H].
Defined.

(** ** The two scripts side by side *)

(** X16.  On a CSV without a [GEOID] column, [app_ca.py] does what
    [src/cali.py] does and then drops the rows of identifier "06003": it
    fails with the same exception when [src/cali.py] fails, and otherwise
    returns the filtered table of [src/cali.py]. *)
Theorem X16_app_ca_is_cali_then_filter
    (features : list feature) (p : preset) (slider : string → R)
    (df : DataFrame) :
  obj df !! "GEOID" = None →
  AppCa.run features p slider df
  = Cali.run features p slider df ≫= AppCa.exclude_alpine.
Proof.
  intros HG. rewrite AppCa_run, Cali_run.
  assert (AppCa.raw_ids (Fips.california features) df
          = Cali.raw_ids (Fips.california features) df) as ->.
  { unfold AppCa.raw_ids, Cali.raw_ids. by rewrite HG. }
  destruct (Cali.raw_ids _ df) as [c|e]; [|done]. rewrite !bind_Ok_l.
  destruct (Weights.resolve _) as [w|e]; [|done]. rewrite !bind_Ok_l.
  destruct (Score.weighted_sum _ _) as [u|e]; [|done]. rewrite !bind_Ok_l.
  cbv zeta. unfold AppCa.exclude_alpine.
  by rewrite get_obj_set_num, get_obj_set_obj, bind_Ok_l.
Qed.

Lemma X16_app_ca_is_cali_then_filter_witness :
  AppCa.run Examples.boundaries Even (λ _, 0%R) Examples.with_unmatched
  = Cali.run Examples.boundaries Even (λ _, 0%R) Examples.with_unmatched
    ≫= AppCa.exclude_alpine.
Proof.
  apply (X16_app_ca_is_cali_then_filter Examples.boundaries Even (λ _, 0%R)
           Examples.with_unmatched).
  reflexivity.
Defined.

(** ** The composite as a weighted average *)

Section average.

Import Stats Score.
Local Open Scope R_scope.

Lemma elem_le_py_sum (ws : list R) x :
  Forall (λ wi, 0 <= wi) ws → x ∈ ws → x <= Weights.py_sum ws.
Proof.
  induction 1 as [|y ws Hy Hws IH]; [by intros ?%elem_of_nil|].
  rewrite py_sum_cons. pose proof (py_sum_nonneg ws Hws).
  intros [->|Hin]%elem_of_cons; [lra|]. specialize (IH Hin). lra.
Qed.

Lemma weighted_bounds (v : string → R) lo hi (l : list (string * R)) :
  Forall (λ cw, 0 <= cw.2 ∧ lo <= v cw.1 <= hi) l →
  lo * Rsum (map snd l) <= Rsum (map (λ '(c, wk), v c * wk) l)
  <= hi * Rsum (map snd l).
Proof.
  unfold Rsum. induction 1 as [|[c wk] l [Hw [Hlo Hhi]] _ IH];
    cbn [map foldr fst snd] in *; [lra|].
  nra.
Qed.

End average.

(** X17.  For the presets and for slider positions between 0 and 1, the
    accepted weights are nine numbers between 0 and 1 that add up to 1, so
    the composite of a record whose nine standardised values are numbers is
    a weighted average of them: it lies between the smallest and the
    largest of the nine. *)
Theorem X17_composite_is_weighted_average
    (df : DataFrame) (cols : string → Series)
    (p : preset) (slider : string → R) (w : weights) (u : Series)
    (i : nat) (v : string → R) (lo hi : R) :
  (∀ l, 0 <= slider l <= 1)%R →
  AppCa.complete df cols →
  Weights.resolve (Weights.choose p slider) = Ok w →
  Score.weighted_sum (AppCa.standardize df) (Score.terms w) = Ok u →
  (∀ c, c ∈ AppCa.indicators →
     Score.z_column AppCa.negatives c (cols c) !! i = Some (Some (v c)) ∧
     (lo <= v c <= hi)%R) →
  Forall (λ x, 0 <= x <= 1)%R (Weights.to_list w) ∧
  Weights.py_sum (Weights.to_list w) = 1%R ∧
  ∃ t, u !! i = Some (Some t) ∧ (lo <= t <= hi)%R.
Proof.
  intros Hs Hdf Hw Hu Hv.
  pose proof (choose_nonneg p slider Hs) as Hnn.
  pose proof (py_sum_nonneg _ Hnn) as Hge.
  set (ws := Weights.choose p slider) in *.
  assert (Weights.py_sum ws ≠ 0%R) as Hne.
  { intros E. rewrite resolve_cases in Hw.
    destruct ws as [|x ws'] eqn:Ews; [done|]. rewrite E in Hw.
    by destruct (Req_dec_T 0 0). }
  destruct (resolve_Ok ws (choose_length p slider) Hne) as (w' & Hw' & Hl).
  rewrite Hw in Hw'. injection Hw' as <-.
  assert (Forall (λ x, 0 <= x <= 1)%R (Weights.to_list w)) as Hunit.
  { rewrite Hl. apply Forall_fmap, Forall_forall. intros x Hx.
    pose proof (elem_le_py_sum ws x Hnn Hx) as Hle.
    assert (0 <= x)%R as H0 by (by eapply Forall_forall in Hnn).
    cbn. split.
    - apply Rmult_le_pos; [done|]. left. apply Rinv_0_lt_compat. lra.
    - apply (Rmult_le_reg_r (Weights.py_sum ws)); [lra|].
      replace (x / Weights.py_sum ws * Weights.py_sum ws)%R with x
        by (by field).
      lra. }
  assert (Weights.py_sum (Weights.to_list w) = 1%R) as Hone.
  { rewrite Hl. by apply py_sum_normalized. }
  split_and!; [done..|].
  assert (∀ c, c ∈ AppCa.indicators → i < length (cols c)) as Hlen.
  { intros c Hc. destruct (Hv c Hc) as [Hz _].
    apply lookup_lt_Some in Hz. by rewrite length_z_column in Hz. }
  destruct (uoi_row df cols w i Hdf Hlen) as (u' & Hu' & _ & Hrow).
  rewrite Hu in Hu'. injection Hu' as <-. cbv zeta in Hrow.
  assert (map (λ '(c, wk), (Score.z_at AppCa.negatives c (cols c) i, wk))
              (zip AppCa.indicators (Weights.to_list w))
          = map (λ '(x, wk), (Some x, wk))
              (map (λ '(c, wk), (v c, wk))
                 (zip AppCa.indicators (Weights.to_list w)))) as E.
  { rewrite map_map. apply map_ext_in. intros [c wk] Hin.
    apply list_elem_of_In, elem_of_zip_l in Hin.
    destruct (Hv c Hin) as [Hz _]. unfold Score.z_at. by rewrite Hz. }
  rewrite E, row_total_numbers in Hrow.
  2: { unfold AppCa.indicators, Weights.to_list. by cbn [zip zip_with map]. }
  rewrite map_map in Hrow.
  eexists. split; [exact Hrow|].
  pose proof (weighted_bounds v lo hi
                (zip AppCa.indicators (Weights.to_list w))) as Hb.
  assert (map snd (zip AppCa.indicators (Weights.to_list w))
          = Weights.to_list w) as Hsnd by reflexivity.
  rewrite Hsnd, <- py_sum_Rsum, Hone in Hb.
  assert (Stats.Rsum
            (map (λ x : string * R,
                    let '(x0, wk) := let '(c, wk) := x in (v c, wk) in
                    (x0 * wk)%R)
               (zip AppCa.indicators (Weights.to_list w)))
          = Stats.Rsum (map (λ '(c, wk), (v c * wk)%R)
               (zip AppCa.indicators (Weights.to_list w)))) as ->.
  { f_equal; apply map_ext; by intros [c wk]. }
  assert (Forall (λ cw : string * R, (0 <= cw.2)%R ∧ (lo <= v cw.1 <= hi)%R)
            (zip AppCa.indicators (Weights.to_list w))) as HF.
  { apply Forall_forall. intros [c wk] Hin. cbn [fst snd]. split.
    - apply elem_of_zip_r in Hin.
      eapply Forall_forall in Hunit; [|exact Hin]. cbn in Hunit. lra.
    - apply elem_of_zip_l in Hin. by destruct (Hv c Hin). }
  specialize (Hb HF). lra.
Qed.

Lemma X17_composite_is_weighted_average_witness :
  ∃ (w : weights) (u : Series),
    Weights.resolve (Weights.choose Even (λ _, 0%R)) = Ok w ∧
    Score.weighted_sum (AppCa.standardize Examples.with_alpine)
      (Score.terms w) = Ok u ∧
    Forall (λ x, 0 <= x <= 1)%R (Weights.to_list w) ∧
    Weights.py_sum (Weights.to_list w) = 1%R ∧
    ∃ t, u !! 0 = Some (Some t) ∧ (-1 <= t <= 1)%R.
Proof.
  destruct (resolve_Even (λ _, 0%R)) as [w Hw].
  pose proof (with_fips_complete
                [PyStr "06001"; PyStr "06003"; PyStr "06005"]
                (λ _, Examples.col123)) as Hdf.
  destruct (weighted_sum_complete _ _ w Hdf) as [u Hu].
  exists w, u. split; [exact Hw|]. split; [exact Hu|].
  apply (X17_composite_is_weighted_average
           Examples.with_alpine (λ _, Examples.col123) Even (λ _, 0%R)
           w u 0
           (λ c, if bool_decide (c ∈ AppCa.negatives) then 1 else -1)%R
           (-1) 1).
  - intros _. lra.
  - exact Hdf.
  - exact Hw.
  - exact Hu.
  - intros c _. unfold Score.z_column. rewrite zscore_col123.
    destruct (bool_decide (c ∈ AppCa.negatives));
      cbn [Stats.neg_series map Float.neg lookup list_lookup];
      (split; [do 2 f_equal; lra|lra]).
Defined.
